(** * RTCStatsCollector: a shallow embedding of webrtc/api/rtcstatscollector.cc

    The collector gathers stats on three threads, merges the partial reports
    on the signaling thread, caches the merged report for a bounded time and
    hands the cached report to every callback that asked for one.

    The embedding follows the C++ text function by function.  Objects that
    the code shares through [rtc::scoped_refptr] (the reports) live in an
    explicit store and are named by their address, so that "the same report"
    is equality of addresses.  [RTC_DCHECK]s are modelled as they behave in a
    build that has them switched on: a failed check ends the run ([None]). *)

From Stdlib Require Import ZArith PrimFloat SpecFloat FloatOps.
From Stdlib Require FloatAxioms Uint63.
From stdpp Require Import gmap strings list fin_maps.

Local Open Scope Z_scope.

(** ** Machine arithmetic *)

(** [static_cast<uint32_t>], [static_cast<uint64_t>]: reduction modulo 2^w.
    [static_cast<int32_t>]: the two's complement reading of the low 32 bits.
    [static_cast<double>] of an integer: the nearest binary64 value. *)
Definition to_uint32 (z : Z) : Z := z mod 2 ^ 32.
Definition to_uint64 (z : Z) : Z := z mod 2 ^ 64.
Definition to_int32 (z : Z) : Z := (z + 2 ^ 31) mod 2 ^ 32 - 2 ^ 31.
Definition to_double (z : Z) : float :=
  SF2Prim (binary_normalize prec emax z 0 false).

(** [RTC_DCHECK(b)]: continue when [b] holds, fatal otherwise. *)
Definition RTC_DCHECK (b : bool) : option unit :=
  if b then Some () else None.

(** ** Threads *)

Definition Thread := nat.

(** [thread->IsCurrent()], asked by code that runs on thread [cur]. *)
Definition IsCurrent (thread cur : Thread) : bool := Nat.eqb thread cur.

(** ** What the collaborators hand over (webrtc/p2p/base, webrtc/base) *)

Module cricket.

(** The four port type tags of webrtc/p2p/base/port.h and the four
    candidate type names of RTCIceCandidateType.  Their declarations are
    not part of the sources at hand, so they are taken as parameters. *)
Record Constants := {
  LOCAL_PORT_TYPE : string;
  STUN_PORT_TYPE : string;
  PRFLX_PORT_TYPE : string;
  RELAY_PORT_TYPE : string;
  kHost : string;
  kSrflx : string;
  kPrflx : string;
  kRelay : string
}.

Record SocketAddress := {
  ipaddr : string;      (* ipaddr().ToString() *)
  port : Z              (* uint16_t *)
}.

Record Candidate := {
  id : string;
  address : SocketAddress;
  protocol : string;
  type : string;
  priority : Z          (* uint32_t *)
}.

Record ConnectionInfo := {
  local_candidate : Candidate;
  remote_candidate : Candidate;
  writable : bool;
  sent_total_bytes : Z;
  recv_total_bytes : Z;
  rtt : Z;
  sent_ping_requests_total : Z;
  recv_ping_responses : Z;
  sent_ping_responses : Z
}.

Record TransportChannelStats := {
  connection_infos : list ConnectionInfo
}.

Record TransportStats := {
  transport_name : string;
  channel_stats : list TransportChannelStats
}.

End cricket.

(** [SessionStats::transport_stats] is a [std::map] from transport name to
    [TransportStats]; the list is the sequence of its entries as a range-for
    visits them. *)
Record SessionStats := {
  transport_stats : list (string * cricket.TransportStats)
}.

Module rtc.

(** [SSLCertificateStats]: one node of the issuer chain; [issuer] is the
    [std::unique_ptr] to the next node, [None] for the null pointer. *)
#[warnings="-register-all"]
Inductive SSLCertificateStats := mkSSLCertificateStats {
  fingerprint : string;
  fingerprint_algorithm : string;
  base64_certificate : string;
  issuer : option SSLCertificateStats
}.

(** A certificate is used through [GetStats()] only. *)
Record SSLCertificate := {
  GetStats : option SSLCertificateStats
}.

Record RTCCertificate := {
  ssl_certificate : SSLCertificate
}.

End rtc.

Module DataChannelInterface.
Inductive DataState := kConnecting | kOpen | kClosing | kClosed.

Definition DataState_eqb (a b : DataState) : bool :=
  match a, b with
  | kConnecting, kConnecting | kOpen, kOpen
  | kClosing, kClosing | kClosed, kClosed => true
  | _, _ => false
  end.
End DataChannelInterface.

Record DataChannel := {
  state : DataChannelInterface.DataState
}.

Record WebRtcSession := {
  signaling_thread : Thread;
  worker_thread : Thread;
  network_thread : Thread;
  (* GetTransportStats fills a SessionStats and returns true: [Some] *)
  GetTransportStats : option SessionStats;
  (* GetLocalCertificate(name, out) returns true and sets out: [Some] *)
  GetLocalCertificate : string -> option rtc.RTCCertificate;
  (* GetRemoteSSLCertificate(name): [None] for the null pointer *)
  GetRemoteSSLCertificate : string -> option rtc.SSLCertificate
}.

Record PeerConnection := {
  session : WebRtcSession;
  sctp_data_channels : list DataChannel
}.

(** ** Stats objects (webrtc/api/stats/rtcstats_objects.h)

    Every member is an [RTCStatsMember<T>]: [None] while undefined.  The
    members are those the collector and its test name. *)

Module RTCCertificateStats.
Record t := {
  fingerprint : option string;
  fingerprint_algorithm : option string;
  base64_certificate : option string;
  issuer_certificate_id : option string
}.
End RTCCertificateStats.

Module RTCIceCandidateStats.
Record t := {
  ip : option string;
  port : option Z;
  protocol : option string;
  candidate_type : option string;
  priority : option Z;
  url : option string
}.
End RTCIceCandidateStats.

Module RTCIceCandidatePairStats.
Record t := {
  transport_id : option string;
  local_candidate_id : option string;
  remote_candidate_id : option string;
  state : option string;
  priority : option Z;
  nominated : option bool;
  writable : option bool;
  readable : option bool;
  bytes_sent : option Z;
  bytes_received : option Z;
  total_rtt : option float;
  current_rtt : option float;
  available_outgoing_bitrate : option float;
  available_incoming_bitrate : option float;
  requests_received : option Z;
  requests_sent : option Z;
  responses_received : option Z;
  responses_sent : option Z;
  retransmissions_received : option Z;
  retransmissions_sent : option Z;
  consent_requests_received : option Z;
  consent_requests_sent : option Z;
  consent_responses_received : option Z;
  consent_responses_sent : option Z
}.
End RTCIceCandidatePairStats.

Module RTCPeerConnectionStats.
Record t := {
  data_channels_opened : option Z;
  data_channels_closed : option Z
}.
End RTCPeerConnectionStats.

(** The concrete class of a stats object together with its members. *)
Inductive RTCStatsMembers :=
| Certificate (m : RTCCertificateStats.t)
| LocalIceCandidate (m : RTCIceCandidateStats.t)
| RemoteIceCandidate (m : RTCIceCandidateStats.t)
| IceCandidatePair (m : RTCIceCandidatePairStats.t)
| PeerConnectionSummary (m : RTCPeerConnectionStats.t).

(** [RTCStats::type()]: the [kType] of the concrete class. *)
Inductive StatsType :=
| RTCCertificateStats_kType
| RTCLocalIceCandidateStats_kType
| RTCRemoteIceCandidateStats_kType
| RTCIceCandidatePairStats_kType
| RTCPeerConnectionStats_kType.

Module RTCStats.
Record t := {
  id : string;
  timestamp_us : Z;
  members : RTCStatsMembers
}.

Definition type (s : t) : StatsType :=
  match members s with
  | Certificate _ => RTCCertificateStats_kType
  | LocalIceCandidate _ => RTCLocalIceCandidateStats_kType
  | RemoteIceCandidate _ => RTCRemoteIceCandidateStats_kType
  | IceCandidatePair _ => RTCIceCandidatePairStats_kType
  | PeerConnectionSummary _ => RTCPeerConnectionStats_kType
  end.
End RTCStats.

Definition StatsType_eqb (a b : StatsType) : bool :=
  match a, b with
  | RTCCertificateStats_kType, RTCCertificateStats_kType
  | RTCLocalIceCandidateStats_kType, RTCLocalIceCandidateStats_kType
  | RTCRemoteIceCandidateStats_kType, RTCRemoteIceCandidateStats_kType
  | RTCIceCandidatePairStats_kType, RTCIceCandidatePairStats_kType
  | RTCPeerConnectionStats_kType, RTCPeerConnectionStats_kType => true
  | _, _ => false
  end.

(** ** The report (webrtc/api/stats/rtcstatsreport.h) *)

(** A report maps the id of a stats object to the object. *)
Abbreviation RTCStatsReport := (gmap string RTCStats.t).

(** Modelled from the spec: [RTCStatsReport::Get], whose definition is not
    among the sources; "lookup by id". *)
Definition Get (id : string) (report : RTCStatsReport) : option RTCStats.t :=
  report !! id.

(** Modelled from the spec: [RTCStatsReport::AddStats], whose definition is
    not among the sources; "inserts", under the id of the object.  What
    happens when the id is taken already is left to the caller there, and
    the results below that depend on it ask for a free id. *)
Definition AddStats (stats : RTCStats.t) (report : RTCStatsReport)
  : RTCStatsReport :=
  <[RTCStats.id stats := stats]> report.

(** Modelled from the spec: [RTCStatsReport::TakeMembersFrom], whose
    definition is not among the sources; "moves/unions all entries of other
    into the receiver; the receiver must not already contain any id also
    present in other (assert / fail fast on collision)".  The result is the
    receiver and the emptied victim. *)
Definition TakeMembersFrom (report victim : RTCStatsReport)
  : option (RTCStatsReport * RTCStatsReport) :=
  if decide (report ##ₘ victim) then Some (report ∪ victim, ∅) else None.

(** [GetStatsOfType<T>()]: the objects of one concrete class. *)
Definition GetStatsOfType (ty : StatsType) (report : RTCStatsReport)
  : list RTCStats.t :=
  filter (fun s => StatsType_eqb (RTCStats.type s) ty = true)
         (snd <$> map_to_list report).

(** ** The collector (webrtc/api/rtcstatscollector.h) *)

(** Reports are shared through [rtc::scoped_refptr<RTCStatsReport>]: a
    report is named by its address in the store of the [World] below.
    Callbacks are [rtc::scoped_refptr<RTCStatsCollectorCallback>]; all the
    collector does with one is to call [OnStatsDelivered] on it, which the
    world records. *)
Definition ReportPtr := nat.
Definition Callback := nat.

(** What [invoker_.AsyncInvoke] can be asked to run later: the bound method
    with its bound arguments. *)
Inductive Task :=
| Bind_ProducePartialResultsOnSignalingThread (timestamp_us : Z)
| Bind_ProducePartialResultsOnWorkerThread (timestamp_us : Z)
| Bind_ProducePartialResultsOnNetworkThread (timestamp_us : Z)
| Bind_AddPartialResults_s (partial_report : ReportPtr).

(** The data members.  [invoker_] holds the invocations that were posted
    and have not run yet, each with the thread it was posted to.  [pc_] is
    not a member here: what the peer connection answers is an input of the
    code that asks it. *)
Record RTCStatsCollector := {
  signaling_thread_ : Thread;
  worker_thread_ : Thread;
  network_thread_ : Thread;
  invoker_ : list (Thread * Task);
  num_pending_partial_reports_ : Z;
  partial_report_timestamp_us_ : Z;
  partial_report_ : option ReportPtr;
  cache_timestamp_us_ : Z;
  cache_lifetime_us_ : Z;
  cached_report_ : option ReportPtr;
  callbacks_ : list Callback
}.

Definition set_invoker_ (v : list (Thread * Task)) (c : RTCStatsCollector) :=
  {| signaling_thread_ := signaling_thread_ c;
     worker_thread_ := worker_thread_ c;
     network_thread_ := network_thread_ c;
     invoker_ := v;
     num_pending_partial_reports_ := num_pending_partial_reports_ c;
     partial_report_timestamp_us_ := partial_report_timestamp_us_ c;
     partial_report_ := partial_report_ c;
     cache_timestamp_us_ := cache_timestamp_us_ c;
     cache_lifetime_us_ := cache_lifetime_us_ c;
     cached_report_ := cached_report_ c;
     callbacks_ := callbacks_ c |}.

Definition set_num_pending_partial_reports_ (v : Z) (c : RTCStatsCollector) :=
  {| signaling_thread_ := signaling_thread_ c;
     worker_thread_ := worker_thread_ c;
     network_thread_ := network_thread_ c;
     invoker_ := invoker_ c;
     num_pending_partial_reports_ := v;
     partial_report_timestamp_us_ := partial_report_timestamp_us_ c;
     partial_report_ := partial_report_ c;
     cache_timestamp_us_ := cache_timestamp_us_ c;
     cache_lifetime_us_ := cache_lifetime_us_ c;
     cached_report_ := cached_report_ c;
     callbacks_ := callbacks_ c |}.

Definition set_partial_report_timestamp_us_ (v : Z) (c : RTCStatsCollector) :=
  {| signaling_thread_ := signaling_thread_ c;
     worker_thread_ := worker_thread_ c;
     network_thread_ := network_thread_ c;
     invoker_ := invoker_ c;
     num_pending_partial_reports_ := num_pending_partial_reports_ c;
     partial_report_timestamp_us_ := v;
     partial_report_ := partial_report_ c;
     cache_timestamp_us_ := cache_timestamp_us_ c;
     cache_lifetime_us_ := cache_lifetime_us_ c;
     cached_report_ := cached_report_ c;
     callbacks_ := callbacks_ c |}.

Definition set_partial_report_ (v : option ReportPtr) (c : RTCStatsCollector) :=
  {| signaling_thread_ := signaling_thread_ c;
     worker_thread_ := worker_thread_ c;
     network_thread_ := network_thread_ c;
     invoker_ := invoker_ c;
     num_pending_partial_reports_ := num_pending_partial_reports_ c;
     partial_report_timestamp_us_ := partial_report_timestamp_us_ c;
     partial_report_ := v;
     cache_timestamp_us_ := cache_timestamp_us_ c;
     cache_lifetime_us_ := cache_lifetime_us_ c;
     cached_report_ := cached_report_ c;
     callbacks_ := callbacks_ c |}.

Definition set_cache_timestamp_us_ (v : Z) (c : RTCStatsCollector) :=
  {| signaling_thread_ := signaling_thread_ c;
     worker_thread_ := worker_thread_ c;
     network_thread_ := network_thread_ c;
     invoker_ := invoker_ c;
     num_pending_partial_reports_ := num_pending_partial_reports_ c;
     partial_report_timestamp_us_ := partial_report_timestamp_us_ c;
     partial_report_ := partial_report_ c;
     cache_timestamp_us_ := v;
     cache_lifetime_us_ := cache_lifetime_us_ c;
     cached_report_ := cached_report_ c;
     callbacks_ := callbacks_ c |}.

Definition set_cached_report_ (v : option ReportPtr) (c : RTCStatsCollector) :=
  {| signaling_thread_ := signaling_thread_ c;
     worker_thread_ := worker_thread_ c;
     network_thread_ := network_thread_ c;
     invoker_ := invoker_ c;
     num_pending_partial_reports_ := num_pending_partial_reports_ c;
     partial_report_timestamp_us_ := partial_report_timestamp_us_ c;
     partial_report_ := partial_report_ c;
     cache_timestamp_us_ := cache_timestamp_us_ c;
     cache_lifetime_us_ := cache_lifetime_us_ c;
     cached_report_ := v;
     callbacks_ := callbacks_ c |}.

Definition set_callbacks_ (v : list Callback) (c : RTCStatsCollector) :=
  {| signaling_thread_ := signaling_thread_ c;
     worker_thread_ := worker_thread_ c;
     network_thread_ := network_thread_ c;
     invoker_ := invoker_ c;
     num_pending_partial_reports_ := num_pending_partial_reports_ c;
     partial_report_timestamp_us_ := partial_report_timestamp_us_ c;
     partial_report_ := partial_report_ c;
     cache_timestamp_us_ := cache_timestamp_us_ c;
     cache_lifetime_us_ := cache_lifetime_us_ c;
     cached_report_ := cached_report_ c;
     callbacks_ := v |}.

(** The collector as its constructor leaves it.  The thread handles are
    never null here, which is what three of the constructor's checks ask. *)
Definition Create (pc : PeerConnection) (cache_lifetime_us : Z)
  : option RTCStatsCollector :=
  RTC_DCHECK (0 <=? cache_lifetime_us);;
  Some {| signaling_thread_ := signaling_thread (session pc);
          worker_thread_ := worker_thread (session pc);
          network_thread_ := network_thread (session pc);
          invoker_ := [];
          num_pending_partial_reports_ := 0;
          partial_report_timestamp_us_ := 0;
          partial_report_ := None;
          cache_timestamp_us_ := 0;
          cache_lifetime_us_ := cache_lifetime_us;
          cached_report_ := None;
          callbacks_ := [] |}.

(** The collector, the report objects by address, and the calls of
    [OnStatsDelivered] made so far (callback and the report it was given),
    oldest first. *)
Record World := {
  this : RTCStatsCollector;
  reports : gmap ReportPtr RTCStatsReport;
  delivered : list (Callback * ReportPtr)
}.

Definition upd_this (f : RTCStatsCollector -> RTCStatsCollector) (w : World) :=
  {| this := f (this w); reports := reports w; delivered := delivered w |}.

Definition set_reports (v : gmap ReportPtr RTCStatsReport) (w : World) :=
  {| this := this w; reports := v; delivered := delivered w |}.

Definition set_delivered (v : list (Callback * ReportPtr)) (w : World) :=
  {| this := this w; reports := reports w; delivered := v |}.

Definition new_World (c : RTCStatsCollector) : World :=
  {| this := c; reports := ∅; delivered := [] |}.

(** A range-for whose body may end the run. *)
Fixpoint for_each {A S : Type} (body : A -> S -> option S) (l : list A) (s : S)
  : option S :=
  match l with
  | [] => Some s
  | x :: l' => s' ← body x s; for_each body l' s'
  end.

(** ** The functions of rtcstatscollector.cc *)

Section Collector.

Variable K : cricket.Constants.

Definition CandidateTypeToRTCIceCandidateType (type : string)
  : option string :=
  if String.eqb type (cricket.LOCAL_PORT_TYPE K) then Some (cricket.kHost K)
  else if String.eqb type (cricket.STUN_PORT_TYPE K) then
    Some (cricket.kSrflx K)
  else if String.eqb type (cricket.PRFLX_PORT_TYPE K) then
    Some (cricket.kPrflx K)
  else if String.eqb type (cricket.RELAY_PORT_TYPE K) then
    Some (cricket.kRelay K)
  else None. (* RTC_NOTREACHED() *)

(** *** Delivery and the entry points *)

Definition DeliverCachedReport (cur : Thread) (w : World) : option World :=
  RTC_DCHECK (IsCurrent (signaling_thread_ (this w)) cur);;
  RTC_DCHECK (negb (bool_decide (callbacks_ (this w) = [])));;
  cached_report ← cached_report_ (this w);
  Some (upd_this (set_callbacks_ [])
          (set_delivered
             (delivered w ++
              ((fun callback => (callback, cached_report)) <$>
                 callbacks_ (this w))) w)).

(** The test of the first branch of [GetStatsReport]. *)
Definition cache_is_fresh (c : RTCStatsCollector) (cache_now_us : Z) : bool :=
  bool_decide (is_Some (cached_report_ c)) &&
  (cache_now_us - cache_timestamp_us_ c <=? cache_lifetime_us_ c).

(** [cache_now_us] is what [rtc::TimeMicros()] returns during the call and
    [timestamp_us] what [rtc::TimeUTCMicros()] returns.  Both are [int64_t]
    readings of clocks that count up from zero, so the difference in the
    test is the difference of the integers.  The callback is not null. *)
Definition GetStatsReport (cur : Thread) (callback : Callback)
    (cache_now_us timestamp_us : Z) (w : World) : option World :=
  RTC_DCHECK (IsCurrent (signaling_thread_ (this w)) cur);;
  let w := upd_this (fun c => set_callbacks_ (callbacks_ c ++ [callback]) c) w in
  if cache_is_fresh (this w) cache_now_us then
    DeliverCachedReport cur w
  else if num_pending_partial_reports_ (this w) =? 0 then
    Some (upd_this (fun c =>
      set_invoker_
        (invoker_ c ++
         [(signaling_thread_ c,
           Bind_ProducePartialResultsOnSignalingThread timestamp_us);
          (worker_thread_ c,
           Bind_ProducePartialResultsOnWorkerThread timestamp_us);
          (network_thread_ c,
           Bind_ProducePartialResultsOnNetworkThread timestamp_us)])
        (set_partial_report_timestamp_us_ cache_now_us
           (set_num_pending_partial_reports_ 3 c))) w)
  else Some w.

Definition ClearCachedStatsReport (cur : Thread) (w : World) : option World :=
  RTC_DCHECK (IsCurrent (signaling_thread_ (this w)) cur);;
  Some (upd_this (set_cached_report_ None) w).

(** *** Merging the partial reports *)

Definition AddPartialResults_s (cur : Thread) (partial_report : ReportPtr)
    (w : World) : option World :=
  RTC_DCHECK (IsCurrent (signaling_thread_ (this w)) cur);;
  RTC_DCHECK (0 <? num_pending_partial_reports_ (this w));;
  w ← match partial_report_ (this w) with
      | None => Some (upd_this (set_partial_report_ (Some partial_report)) w)
      | Some accumulator =>
          receiver ← reports w !! accumulator;
          victim ← reports w !! partial_report;
          '(receiver', victim') ← TakeMembersFrom receiver victim;
          Some (set_reports
                  (<[partial_report := victim']>
                     (<[accumulator := receiver']> (reports w))) w)
      end;
  let w := upd_this (fun c =>
    set_num_pending_partial_reports_ (num_pending_partial_reports_ c - 1) c) w in
  if num_pending_partial_reports_ (this w) =? 0 then
    let w := upd_this (fun c =>
      set_partial_report_ None
        (set_cached_report_ (partial_report_ c)
           (set_cache_timestamp_us_ (partial_report_timestamp_us_ c) c))) w in
    DeliverCachedReport cur w
  else Some w.

Definition AddPartialResults (cur : Thread) (partial_report : ReportPtr)
    (w : World) : option World :=
  if negb (IsCurrent (signaling_thread_ (this w)) cur) then
    Some (upd_this (fun c =>
      set_invoker_
        (invoker_ c ++
         [(signaling_thread_ c, Bind_AddPartialResults_s partial_report)]) c) w)
  else AddPartialResults_s cur partial_report w.

(** *** The producers

    Each producer works on the report it is handed ([RTCStatsReport*
    report]); here it takes the content of that report and returns the
    content it leaves. *)

(** The body of the loop over the issuer chain.  [prev_stats] points to
    the object that the turn before gave to the report; the report holds
    that object under its id, so the pointer is that id here and the write
    through it is [alter] at that id. *)
Definition set_issuer_certificate_id (v : string) (stats : RTCStats.t)
  : RTCStats.t :=
  match RTCStats.members stats with
  | Certificate m =>
      {| RTCStats.id := RTCStats.id stats;
         RTCStats.timestamp_us := RTCStats.timestamp_us stats;
         RTCStats.members := Certificate
           {| RTCCertificateStats.fingerprint :=
                RTCCertificateStats.fingerprint m;
              RTCCertificateStats.fingerprint_algorithm :=
                RTCCertificateStats.fingerprint_algorithm m;
              RTCCertificateStats.base64_certificate :=
                RTCCertificateStats.base64_certificate m;
              RTCCertificateStats.issuer_certificate_id := Some v |} |}
  | _ => stats
  end.

Definition new_RTCCertificateStats (timestamp_us : Z)
    (s : rtc.SSLCertificateStats) : RTCStats.t :=
  {| RTCStats.id := "RTCCertificate_" +:+ rtc.fingerprint s;
     RTCStats.timestamp_us := timestamp_us;
     RTCStats.members := Certificate
       {| RTCCertificateStats.fingerprint := Some (rtc.fingerprint s);
          RTCCertificateStats.fingerprint_algorithm :=
            Some (rtc.fingerprint_algorithm s);
          RTCCertificateStats.base64_certificate :=
            Some (rtc.base64_certificate s);
          RTCCertificateStats.issuer_certificate_id := None |} |}.

Definition chain_turn (timestamp_us : Z) (s : rtc.SSLCertificateStats)
    (prev_stats : option string) (report : RTCStatsReport)
  : option string * RTCStatsReport :=
  let stats := new_RTCCertificateStats timestamp_us s in
  let report :=
    match prev_stats with
    | Some prev =>
        alter (set_issuer_certificate_id (RTCStats.id stats)) prev report
    | None => report
    end in
  (Some (RTCStats.id stats), AddStats stats report).

Fixpoint chain_loop (timestamp_us : Z) (s : rtc.SSLCertificateStats)
    (prev_stats : option string) (report : RTCStatsReport)
  : RTCStatsReport :=
  let '(prev_stats, report) := chain_turn timestamp_us s prev_stats report in
  match rtc.issuer s with
  | Some s' => chain_loop timestamp_us s' prev_stats report
  | None => report
  end.

Definition ProduceCertificateStatsFromSSLCertificateAndChain_s
    (c : RTCStatsCollector) (cur : Thread) (timestamp_us : Z)
    (certificate : rtc.SSLCertificate) (report : RTCStatsReport)
  : option RTCStatsReport :=
  RTC_DCHECK (IsCurrent (signaling_thread_ c) cur);;
  match rtc.GetStats certificate with
  | Some s => Some (chain_loop timestamp_us s None report)
  | None => Some report
  end.

Definition ProduceCertificateStats_s (c : RTCStatsCollector) (cur : Thread)
    (pc : PeerConnection) (timestamp_us : Z) (session_stats : SessionStats)
    (report : RTCStatsReport) : option RTCStatsReport :=
  RTC_DCHECK (IsCurrent (signaling_thread_ c) cur);;
  for_each (fun (transport_stats : string * cricket.TransportStats) report =>
    report ←
      match GetLocalCertificate (session pc)
              (cricket.transport_name transport_stats.2) with
      | Some local_certificate =>
          ProduceCertificateStatsFromSSLCertificateAndChain_s c cur
            timestamp_us (rtc.ssl_certificate local_certificate) report
      | None => Some report
      end;
    match GetRemoteSSLCertificate (session pc)
            (cricket.transport_name transport_stats.2) with
    | Some remote_certificate =>
        ProduceCertificateStatsFromSSLCertificateAndChain_s c cur
          timestamp_us remote_certificate report
    | None => Some report
    end) (transport_stats session_stats) report.

Definition new_RTCIceCandidateStats (id : string) (timestamp_us : Z)
    (is_local : bool) (m : RTCIceCandidateStats.t) : RTCStats.t :=
  {| RTCStats.id := id;
     RTCStats.timestamp_us := timestamp_us;
     RTCStats.members :=
       if is_local then LocalIceCandidate m else RemoteIceCandidate m |}.

(** Returns the id of the candidate's stats object and the report. *)
Definition ProduceIceCandidateStats_s (c : RTCStatsCollector) (cur : Thread)
    (timestamp_us : Z) (candidate : cricket.Candidate) (is_local : bool)
    (report : RTCStatsReport) : option (string * RTCStatsReport) :=
  RTC_DCHECK (IsCurrent (signaling_thread_ c) cur);;
  let id := "RTCIceCandidate_" +:+ cricket.id candidate in
  '(stats, report) ←
    match Get id report with
    | Some stats => Some (stats, report)
    | None =>
        candidate_type ←
          CandidateTypeToRTCIceCandidateType (cricket.type candidate);
        let candidate_stats :=
          new_RTCIceCandidateStats id timestamp_us is_local
            {| RTCIceCandidateStats.ip :=
                 Some (cricket.ipaddr (cricket.address candidate));
               RTCIceCandidateStats.port :=
                 Some (to_int32 (cricket.port (cricket.address candidate)));
               RTCIceCandidateStats.protocol :=
                 Some (cricket.protocol candidate);
               RTCIceCandidateStats.candidate_type := Some candidate_type;
               RTCIceCandidateStats.priority :=
                 Some (to_int32 (cricket.priority candidate));
               RTCIceCandidateStats.url := None |} in
        Some (candidate_stats, AddStats candidate_stats report)
    end;
  RTC_DCHECK (StatsType_eqb (RTCStats.type stats)
                (if is_local then RTCLocalIceCandidateStats_kType
                 else RTCRemoteIceCandidateStats_kType));;
  Some (RTCStats.id stats, report).

(** The candidate pair object as it is when it is given to the report. *)
Definition new_RTCIceCandidatePairStats (id : string) (timestamp_us : Z)
    (local_candidate_id remote_candidate_id : string)
    (info : cricket.ConnectionInfo) : RTCStats.t :=
  {| RTCStats.id := id;
     RTCStats.timestamp_us := timestamp_us;
     RTCStats.members := IceCandidatePair
       {| RTCIceCandidatePairStats.transport_id := None;
          RTCIceCandidatePairStats.local_candidate_id :=
            Some local_candidate_id;
          RTCIceCandidatePairStats.remote_candidate_id :=
            Some remote_candidate_id;
          RTCIceCandidatePairStats.state := None;
          RTCIceCandidatePairStats.priority := None;
          RTCIceCandidatePairStats.nominated := None;
          RTCIceCandidatePairStats.writable := Some (cricket.writable info);
          RTCIceCandidatePairStats.readable := None;
          RTCIceCandidatePairStats.bytes_sent :=
            Some (to_uint64 (cricket.sent_total_bytes info));
          RTCIceCandidatePairStats.bytes_received :=
            Some (to_uint64 (cricket.recv_total_bytes info));
          RTCIceCandidatePairStats.total_rtt := None;
          RTCIceCandidatePairStats.current_rtt :=
            Some (to_double (cricket.rtt info) / 1000)%float;
          RTCIceCandidatePairStats.available_outgoing_bitrate := None;
          RTCIceCandidatePairStats.available_incoming_bitrate := None;
          RTCIceCandidatePairStats.requests_received := None;
          RTCIceCandidatePairStats.requests_sent :=
            Some (to_uint64 (cricket.sent_ping_requests_total info));
          RTCIceCandidatePairStats.responses_received :=
            Some (to_uint64 (cricket.recv_ping_responses info));
          RTCIceCandidatePairStats.responses_sent :=
            Some (to_uint64 (cricket.sent_ping_responses info));
          RTCIceCandidatePairStats.retransmissions_received := None;
          RTCIceCandidatePairStats.retransmissions_sent := None;
          RTCIceCandidatePairStats.consent_requests_received := None;
          RTCIceCandidatePairStats.consent_requests_sent := None;
          RTCIceCandidatePairStats.consent_responses_received := None;
          RTCIceCandidatePairStats.consent_responses_sent := None |} |}.

(** The body of the innermost loop of [ProduceIceCandidateAndPairStats_s]. *)
Definition ProduceIceCandidateAndPairStats_info (c : RTCStatsCollector)
    (cur : Thread) (timestamp_us : Z) (info : cricket.ConnectionInfo)
    (report : RTCStatsReport) : option RTCStatsReport :=
  let id := "RTCIceCandidatePair_" +:+
            cricket.id (cricket.local_candidate info) +:+ "_" +:+
            cricket.id (cricket.remote_candidate info) in
  '(local_candidate_id, report) ←
    ProduceIceCandidateStats_s c cur timestamp_us
      (cricket.local_candidate info) true report;
  '(remote_candidate_id, report) ←
    ProduceIceCandidateStats_s c cur timestamp_us
      (cricket.remote_candidate info) false report;
  Some (AddStats
          (new_RTCIceCandidatePairStats id timestamp_us
             local_candidate_id remote_candidate_id info) report).

Definition ProduceIceCandidateAndPairStats_s (c : RTCStatsCollector)
    (cur : Thread) (timestamp_us : Z) (session_stats : SessionStats)
    (report : RTCStatsReport) : option RTCStatsReport :=
  RTC_DCHECK (IsCurrent (signaling_thread_ c) cur);;
  for_each (fun (transport_stats : string * cricket.TransportStats) =>
    for_each (fun channel_stats : cricket.TransportChannelStats =>
      for_each (ProduceIceCandidateAndPairStats_info c cur timestamp_us)
        (cricket.connection_infos channel_stats))
      (cricket.channel_stats transport_stats.2))
    (transport_stats session_stats) report.

(** The counting loop of [ProducePeerConnectionStats_s]; the counter is a
    [uint32_t]. *)
Fixpoint count_data_channels_opened (data_channels : list DataChannel)
    (data_channels_opened : Z) : Z :=
  match data_channels with
  | [] => data_channels_opened
  | data_channel :: rest =>
      count_data_channels_opened rest
        (if DataChannelInterface.DataState_eqb (state data_channel)
              DataChannelInterface.kOpen
         then to_uint32 (data_channels_opened + 1)
         else data_channels_opened)
  end.

Definition ProducePeerConnectionStats_s (c : RTCStatsCollector) (cur : Thread)
    (pc : PeerConnection) (timestamp_us : Z) (report : RTCStatsReport)
  : option RTCStatsReport :=
  RTC_DCHECK (IsCurrent (signaling_thread_ c) cur);;
  let data_channels := sctp_data_channels pc in
  let data_channels_opened := count_data_channels_opened data_channels 0 in
  let stats :=
    {| RTCStats.id := "RTCPeerConnection";
       RTCStats.timestamp_us := timestamp_us;
       RTCStats.members := PeerConnectionSummary
         {| RTCPeerConnectionStats.data_channels_opened :=
              Some data_channels_opened;
            RTCPeerConnectionStats.data_channels_closed :=
              Some (to_uint32
                      (to_uint32 (Z.of_nat (length data_channels)) -
                       data_channels_opened)) |} |} in
  Some (AddStats stats report).

(** *** The three tasks *)

(** [RTCStatsReport::Create()]: a new, empty report at an address that is
    not in use. *)
Definition RTCStatsReport_Create (w : World) : ReportPtr * World :=
  let report := fresh (dom (reports w)) in
  (report, set_reports (<[report := ∅]> (reports w)) w).

Definition ProducePartialResultsOnSignalingThread (cur : Thread)
    (pc : PeerConnection) (timestamp_us : Z) (w : World) : option World :=
  RTC_DCHECK (IsCurrent (signaling_thread_ (this w)) cur);;
  let '(report, w) := RTCStatsReport_Create w in
  content ←
    match GetTransportStats (session pc) with
    | Some session_stats =>
        content ← ProduceCertificateStats_s (this w) cur pc timestamp_us
                    session_stats ∅;
        ProduceIceCandidateAndPairStats_s (this w) cur timestamp_us
          session_stats content
    | None => Some ∅
    end;
  content ← ProducePeerConnectionStats_s (this w) cur pc timestamp_us content;
  AddPartialResults cur report
    (set_reports (<[report := content]> (reports w)) w).

Definition ProducePartialResultsOnWorkerThread (cur : Thread)
    (timestamp_us : Z) (w : World) : option World :=
  RTC_DCHECK (IsCurrent (worker_thread_ (this w)) cur);;
  let '(report, w) := RTCStatsReport_Create w in
  AddPartialResults cur report w.

Definition ProducePartialResultsOnNetworkThread (cur : Thread)
    (timestamp_us : Z) (w : World) : option World :=
  RTC_DCHECK (IsCurrent (network_thread_ (this w)) cur);;
  let '(report, w) := RTCStatsReport_Create w in
  AddPartialResults cur report w.

(** ** Runs of the collector *)

(** What can happen to a collector: a caller on thread [cur] enters one of
    the two public methods, or a thread takes one of the posted invocations
    (the one at position [i] of [invoker_]) and runs it; [pc] is what the
    peer connection answers while it runs.  Any posted invocation may be
    the next to run: the runs in which each thread takes its own
    invocations in the order of their posting are among these. *)
Inductive Event :=
| call_GetStatsReport (cur : Thread) (callback : Callback)
    (cache_now_us timestamp_us : Z)
| call_ClearCachedStatsReport (cur : Thread)
| run_invoked (i : nat) (pc : PeerConnection).

Definition run_Task (cur : Thread) (pc : PeerConnection) (task : Task)
    (w : World) : option World :=
  match task with
  | Bind_ProducePartialResultsOnSignalingThread timestamp_us =>
      ProducePartialResultsOnSignalingThread cur pc timestamp_us w
  | Bind_ProducePartialResultsOnWorkerThread timestamp_us =>
      ProducePartialResultsOnWorkerThread cur timestamp_us w
  | Bind_ProducePartialResultsOnNetworkThread timestamp_us =>
      ProducePartialResultsOnNetworkThread cur timestamp_us w
  | Bind_AddPartialResults_s partial_report =>
      AddPartialResults_s cur partial_report w
  end.

Definition step (e : Event) (w : World) : option World :=
  match e with
  | call_GetStatsReport cur callback cache_now_us timestamp_us =>
      GetStatsReport cur callback cache_now_us timestamp_us w
  | call_ClearCachedStatsReport cur => ClearCachedStatsReport cur w
  | run_invoked i pc =>
      '(thread, task) ← invoker_ (this w) !! i;
      run_Task thread pc task
        (upd_this (fun c => set_invoker_ (delete i (invoker_ c)) c) w)
  end.

Fixpoint run (es : list Event) (w : World) : option World :=
  match es with
  | [] => Some w
  | e :: es' => w' ← step e w; run es' w'
  end.

End Collector.

(** * Properties *)

(** ** Helpers *)

Lemma IsCurrent_refl (t : Thread) : IsCurrent t t = true.
Proof. apply Nat.eqb_refl. Qed.

Lemma IsCurrent_true (t cur : Thread) : IsCurrent t cur = true -> cur = t.
Proof. unfold IsCurrent. intros H. symmetry. by apply Nat.eqb_eq. Qed.

(** The port type tags differ from one another. *)
Definition port_types_distinct (K : cricket.Constants) : Prop :=
  NoDup [cricket.LOCAL_PORT_TYPE K; cricket.STUN_PORT_TYPE K;
         cricket.PRFLX_PORT_TYPE K; cricket.RELAY_PORT_TYPE K].

Definition known_port_type (K : cricket.Constants) (type : string) : Prop :=
  type ∈ [cricket.LOCAL_PORT_TYPE K; cricket.STUN_PORT_TYPE K;
          cricket.PRFLX_PORT_TYPE K; cricket.RELAY_PORT_TYPE K].

(** The constants as webrtc defines them, for the examples. *)
Definition webrtc_constants : cricket.Constants :=
  {| cricket.LOCAL_PORT_TYPE := "local";
     cricket.STUN_PORT_TYPE := "stun";
     cricket.PRFLX_PORT_TYPE := "prflx";
     cricket.RELAY_PORT_TYPE := "relay";
     cricket.kHost := "host";
     cricket.kSrflx := "srflx";
     cricket.kPrflx := "prflx";
     cricket.kRelay := "relay" |}.

Lemma known_port_type_Some K type :
  known_port_type K type ->
  is_Some (CandidateTypeToRTCIceCandidateType K type).
Proof.
  unfold known_port_type, CandidateTypeToRTCIceCandidateType.
  rewrite !elem_of_cons, elem_of_nil.
  intros [-> | [-> | [-> | [-> | []]]]];
    repeat match goal with
           | |- context [String.eqb ?a ?b] =>
               destruct (String.eqb_spec a b); [by eauto |]
           end; congruence.
Qed.

Lemma unknown_port_type_None K type :
  ¬ known_port_type K type ->
  CandidateTypeToRTCIceCandidateType K type = None.
Proof.
  unfold known_port_type, CandidateTypeToRTCIceCandidateType.
  rewrite !elem_of_cons, elem_of_nil. intros Hn.
  repeat match goal with
         | |- context [String.eqb ?a ?b] =>
             destruct (String.eqb_spec a b); [tauto |]
         end.
  reflexivity.
Qed.

(** ** The candidate type translation *)

(** C8.  With the four port type tags distinct, the translation takes the
    local tag to host, the stun tag to srflx, the prflx tag to prflx and the
    relay tag to relay, and gives nothing else; on every other tag it reaches
    [RTC_NOTREACHED()], and a candidate object that would need the type of
    such a tag is never made: the producer ends the run.  On the four known
    tags the translation always answers, so the fatal branch is not taken. *)
Theorem CandidateType_translation (K : cricket.Constants) :
  port_types_distinct K ->
  CandidateTypeToRTCIceCandidateType K (cricket.LOCAL_PORT_TYPE K)
    = Some (cricket.kHost K) ∧
  CandidateTypeToRTCIceCandidateType K (cricket.STUN_PORT_TYPE K)
    = Some (cricket.kSrflx K) ∧
  CandidateTypeToRTCIceCandidateType K (cricket.PRFLX_PORT_TYPE K)
    = Some (cricket.kPrflx K) ∧
  CandidateTypeToRTCIceCandidateType K (cricket.RELAY_PORT_TYPE K)
    = Some (cricket.kRelay K) ∧
  (∀ type v,
     CandidateTypeToRTCIceCandidateType K type = Some v ->
     (type, v) ∈ [(cricket.LOCAL_PORT_TYPE K, cricket.kHost K);
                  (cricket.STUN_PORT_TYPE K, cricket.kSrflx K);
                  (cricket.PRFLX_PORT_TYPE K, cricket.kPrflx K);
                  (cricket.RELAY_PORT_TYPE K, cricket.kRelay K)]) ∧
  (∀ type,
     ¬ known_port_type K type ->
     CandidateTypeToRTCIceCandidateType K type = None ∧
     ∀ c timestamp_us candidate is_local report,
       cricket.type candidate = type ->
       Get ("RTCIceCandidate_" +:+ cricket.id candidate) report = None ->
       ProduceIceCandidateStats_s K c (signaling_thread_ c) timestamp_us
         candidate is_local report = None) ∧
  (∀ type,
     known_port_type K type ->
     is_Some (CandidateTypeToRTCIceCandidateType K type)).
Proof.
  unfold port_types_distinct. rewrite !NoDup_cons, !elem_of_cons.
  intros (H1 & H2 & H3 & _).
  assert (Hne : ∀ a b : string, a ≠ b -> String.eqb a b = false)
    by (intros a b; apply String.eqb_neq).
  split; [| split; [| split; [| split; [| split; [| split]]]]].
  - unfold CandidateTypeToRTCIceCandidateType. by rewrite String.eqb_refl.
  - unfold CandidateTypeToRTCIceCandidateType.
    rewrite (Hne (cricket.STUN_PORT_TYPE K) (cricket.LOCAL_PORT_TYPE K))
      by (intros E; apply H1; auto).
    by rewrite String.eqb_refl.
  - unfold CandidateTypeToRTCIceCandidateType.
    rewrite (Hne (cricket.PRFLX_PORT_TYPE K) (cricket.LOCAL_PORT_TYPE K))
      by (intros E; apply H1; auto).
    rewrite (Hne (cricket.PRFLX_PORT_TYPE K) (cricket.STUN_PORT_TYPE K))
      by (intros E; apply H2; auto).
    by rewrite String.eqb_refl.
  - unfold CandidateTypeToRTCIceCandidateType.
    rewrite (Hne (cricket.RELAY_PORT_TYPE K) (cricket.LOCAL_PORT_TYPE K))
      by (intros E; apply H1; auto).
    rewrite (Hne (cricket.RELAY_PORT_TYPE K) (cricket.STUN_PORT_TYPE K))
      by (intros E; apply H2; auto).
    rewrite (Hne (cricket.RELAY_PORT_TYPE K) (cricket.PRFLX_PORT_TYPE K))
      by (intros E; apply H3; auto).
    by rewrite String.eqb_refl.
  - intros type v. unfold CandidateTypeToRTCIceCandidateType.
    repeat match goal with
           | |- context [String.eqb ?a ?b] =>
               destruct (String.eqb_spec a b) as [-> | _];
                 [intros [= <-]; set_solver |]
           end.
    discriminate.
  - intros type Hn. split; [by apply unknown_port_type_None |].
    intros c timestamp_us candidate is_local report <- Hget.
    unfold ProduceIceCandidateStats_s. rewrite IsCurrent_refl. simpl.
    rewrite Hget.
    by rewrite (unknown_port_type_None K (cricket.type candidate)).
  - apply known_port_type_Some.
Qed.

Lemma webrtc_constants_distinct : port_types_distinct webrtc_constants.
Proof.
  unfold port_types_distinct. simpl.
  apply (bool_decide_unpack _). by vm_compute.
Qed.

Lemma CandidateType_translation_witness :
  port_types_distinct webrtc_constants ∧
  CandidateTypeToRTCIceCandidateType webrtc_constants "stun" = Some "srflx" ∧
  CandidateTypeToRTCIceCandidateType webrtc_constants "ssltcp" = None.
Proof.
  split; [exact webrtc_constants_distinct |].
  pose proof (CandidateType_translation webrtc_constants
                webrtc_constants_distinct) as (_ & H & _ & _ & _ & Hn & _).
  split; [exact H |].
  apply Hn. unfold known_port_type. simpl.
  rewrite !elem_of_cons, elem_of_nil.
  intros [? | [? | [? | [? | []]]]]; discriminate.
Defined.

(** ** The peer connection summary *)

#[global] Instance DataState_eq_dec : EqDecision DataChannelInterface.DataState.
Proof. solve_decision. Defined.

Lemma DataState_eqb_decide (a b : DataChannelInterface.DataState) :
  DataChannelInterface.DataState_eqb a b = bool_decide (a = b).
Proof. by destruct a, b. Qed.

(** The channels that are open now. *)
Definition open_channels (data_channels : list DataChannel) : list DataChannel :=
  filter (fun d => state d = DataChannelInterface.kOpen) data_channels.

Lemma to_uint32_small (z : Z) : 0 <= z < 2 ^ 32 -> to_uint32 z = z.
Proof. intros H. unfold to_uint32. by apply Z.mod_small. Qed.


Lemma open_channels_length (data_channels : list DataChannel) :
  (length (open_channels data_channels) <= length data_channels)%nat.
Proof. apply length_filter. Qed.

Lemma count_data_channels_opened_spec (data_channels : list DataChannel) :
  ∀ n : Z,
    0 <= n ->
    n + Z.of_nat (length data_channels) < 2 ^ 32 ->
    count_data_channels_opened data_channels n
    = n + Z.of_nat (length (open_channels data_channels)).
Proof.
  induction data_channels as [|d l IH]; intros n Hn Hlt; simpl.
  - lia.
  - simpl in Hlt. rewrite DataState_eqb_decide.
    unfold open_channels. rewrite filter_cons.
    destruct (decide (state d = DataChannelInterface.kOpen)) as [He | He].
    + rewrite bool_decide_eq_true_2 by done.
      rewrite to_uint32_small by lia. rewrite IH by lia.
      fold (open_channels l). simpl. lia.
    + rewrite bool_decide_eq_false_2 by done.
      rewrite IH by lia. done.
Qed.

(** C7.  When the number of data channels fits the [uint32_t] counters, the
    producer adds one object to the report, under the constant id
    [RTCPeerConnection]; its [data_channels_opened] is the number of
    channels whose state is open now and its [data_channels_closed] is the
    number of all channels minus that number. *)
Theorem PeerConnectionStats_counts (c : RTCStatsCollector) (pc : PeerConnection)
    (timestamp_us : Z) (report : RTCStatsReport) :
  Z.of_nat (length (sctp_data_channels pc)) < 2 ^ 32 ->
  ProducePeerConnectionStats_s c (signaling_thread_ c) pc timestamp_us report
  = Some (<["RTCPeerConnection" :=
            {| RTCStats.id := "RTCPeerConnection";
               RTCStats.timestamp_us := timestamp_us;
               RTCStats.members := PeerConnectionSummary
                 {| RTCPeerConnectionStats.data_channels_opened :=
                      Some (Z.of_nat
                              (length (open_channels (sctp_data_channels pc))));
                    RTCPeerConnectionStats.data_channels_closed :=
                      Some (Z.of_nat (length (sctp_data_channels pc)) -
                            Z.of_nat
                              (length (open_channels (sctp_data_channels pc))))
                 |} |}]> report).
Proof.
  intros Hlt. unfold ProducePeerConnectionStats_s.
  rewrite IsCurrent_refl. simpl. unfold AddStats. simpl.
  pose proof (open_channels_length (sctp_data_channels pc)) as Hle.
  rewrite count_data_channels_opened_spec by lia.
  rewrite Z.add_0_l.
  rewrite (to_uint32_small (Z.of_nat (length (sctp_data_channels pc)))) by lia.
  rewrite to_uint32_small by lia.
  reflexivity.
Qed.

(** Any collector and session will do for the examples of the producers. *)
Definition example_session : WebRtcSession :=
  {| signaling_thread := 1%nat;
     worker_thread := 2%nat;
     network_thread := 3%nat;
     GetTransportStats := None;
     GetLocalCertificate := fun _ => None;
     GetRemoteSSLCertificate := fun _ => None |}.

Definition example_collector : RTCStatsCollector :=
  {| signaling_thread_ := 1%nat;
     worker_thread_ := 2%nat;
     network_thread_ := 3%nat;
     invoker_ := [];
     num_pending_partial_reports_ := 0;
     partial_report_timestamp_us_ := 0;
     partial_report_ := None;
     cache_timestamp_us_ := 0;
     cache_lifetime_us_ := 50000;
     cached_report_ := None;
     callbacks_ := [] |}.

Definition four_channels : PeerConnection :=
  {| session := example_session;
     sctp_data_channels :=
       [ {| state := DataChannelInterface.kConnecting |};
         {| state := DataChannelInterface.kOpen |};
         {| state := DataChannelInterface.kClosing |};
         {| state := DataChannelInterface.kClosed |} ] |}.

Definition no_channels : PeerConnection :=
  {| session := example_session; sctp_data_channels := [] |}.

Definition summary_of (opened closed : Z) : RTCStats.t :=
  {| RTCStats.id := "RTCPeerConnection";
     RTCStats.timestamp_us := 7;
     RTCStats.members := PeerConnectionSummary
       {| RTCPeerConnectionStats.data_channels_opened := Some opened;
          RTCPeerConnectionStats.data_channels_closed := Some closed |} |}.

Lemma PeerConnectionStats_counts_witness :
  (Z.of_nat (length (sctp_data_channels four_channels)) < 2 ^ 32 ∧
   ProducePeerConnectionStats_s example_collector 1%nat four_channels 7 ∅
   = Some {["RTCPeerConnection" := summary_of 1 3]}) ∧
  (Z.of_nat (length (sctp_data_channels no_channels)) < 2 ^ 32 ∧
   ProducePeerConnectionStats_s example_collector 1%nat no_channels 7 ∅
   = Some {["RTCPeerConnection" := summary_of 0 0]}).
Proof.
  split; (split; [reflexivity |]).
  - exact (PeerConnectionStats_counts example_collector four_channels 7 ∅
             eq_refl).
  - exact (PeerConnectionStats_counts example_collector no_channels 7 ∅
             eq_refl).
Defined.

(** ** Candidates and candidate pairs *)

(** The ids the producer makes up. *)
Definition candidate_stats_id (candidate : cricket.Candidate) : string :=
  "RTCIceCandidate_" +:+ cricket.id candidate.

Definition candidate_pair_stats_id (info : cricket.ConnectionInfo) : string :=
  "RTCIceCandidatePair_" +:+ cricket.id (cricket.local_candidate info) +:+
  "_" +:+ cricket.id (cricket.remote_candidate info).

Definition candidate_kType (is_local : bool) : StatsType :=
  if is_local then RTCLocalIceCandidateStats_kType
  else RTCRemoteIceCandidateStats_kType.

(** The object [ProduceIceCandidateStats_s] makes for a candidate. *)
Definition candidate_stats_of (K : cricket.Constants) (timestamp_us : Z)
    (is_local : bool) (candidate : cricket.Candidate) : RTCStats.t :=
  new_RTCIceCandidateStats (candidate_stats_id candidate) timestamp_us is_local
    {| RTCIceCandidateStats.ip :=
         Some (cricket.ipaddr (cricket.address candidate));
       RTCIceCandidateStats.port :=
         Some (to_int32 (cricket.port (cricket.address candidate)));
       RTCIceCandidateStats.protocol := Some (cricket.protocol candidate);
       RTCIceCandidateStats.candidate_type :=
         CandidateTypeToRTCIceCandidateType K (cricket.type candidate);
       RTCIceCandidateStats.priority :=
         Some (to_int32 (cricket.priority candidate));
       RTCIceCandidateStats.url := None |}.

(** Every object of a report sits under its own id. *)
Definition keyed (report : RTCStatsReport) : Prop :=
  ∀ k stats, report !! k = Some stats -> RTCStats.id stats = k.

(** An object found under the id of a candidate is of the class that the
    side of the candidate asks for: the check that ends
    [ProduceIceCandidateStats_s] passes. *)
Definition side_agrees (is_local : bool) (candidate : cricket.Candidate)
    (report : RTCStatsReport) : Prop :=
  ∀ stats, report !! candidate_stats_id candidate = Some stats ->
           RTCStats.type stats = candidate_kType is_local.

(** Insertion that keeps what is there. *)
Definition add_if_absent (stats : RTCStats.t) (report : RTCStatsReport)
  : RTCStatsReport :=
  match report !! RTCStats.id stats with
  | Some _ => report
  | None => <[RTCStats.id stats := stats]> report
  end.

Lemma keyed_empty : keyed ∅.
Proof. intros k stats. by rewrite lookup_empty. Qed.

Lemma keyed_insert (stats : RTCStats.t) (report : RTCStatsReport) :
  keyed report -> keyed (<[RTCStats.id stats := stats]> report).
Proof.
  intros Hk k s. rewrite lookup_insert.
  case_decide; [by intros [= <-] | apply Hk].
Qed.

Lemma keyed_add_if_absent (stats : RTCStats.t) (report : RTCStatsReport) :
  keyed report -> keyed (add_if_absent stats report).
Proof.
  intros Hk. unfold add_if_absent.
  destruct (report !! RTCStats.id stats); [done | by apply keyed_insert].
Qed.

Lemma add_if_absent_subseteq (stats : RTCStats.t) (report : RTCStatsReport) :
  report ⊆ add_if_absent stats report.
Proof.
  unfold add_if_absent.
  destruct (report !! RTCStats.id stats) eqn:E; [done |].
  by apply insert_subseteq.
Qed.

Lemma add_if_absent_dom (stats : RTCStats.t) (report : RTCStatsReport) :
  dom (add_if_absent stats report) = {[RTCStats.id stats]} ∪ dom report.
Proof.
  unfold add_if_absent.
  destruct (report !! RTCStats.id stats) eqn:E.
  - apply elem_of_dom_2 in E. apply set_eq. intros x.
    rewrite elem_of_union, elem_of_singleton.
    split; [by right | by intros [-> | ?]].
  - apply dom_insert_L.
Qed.

Lemma add_if_absent_lookup_ne (stats : RTCStats.t) (report : RTCStatsReport) k :
  k ≠ RTCStats.id stats -> add_if_absent stats report !! k = report !! k.
Proof.
  intros Hne. unfold add_if_absent.
  destruct (report !! RTCStats.id stats); [done |].
  by rewrite lookup_insert_ne.
Qed.

Lemma add_if_absent_lookup (stats : RTCStats.t) (report : RTCStatsReport) :
  add_if_absent stats report !! RTCStats.id stats
  = Some (default stats (report !! RTCStats.id stats)).
Proof.
  unfold add_if_absent.
  destruct (report !! RTCStats.id stats) eqn:E; simpl; [done |].
  by rewrite lookup_insert_eq.
Qed.

Lemma candidate_stats_of_id K timestamp_us is_local candidate :
  RTCStats.id (candidate_stats_of K timestamp_us is_local candidate)
  = candidate_stats_id candidate.
Proof. reflexivity. Qed.

Lemma candidate_stats_of_type K timestamp_us is_local candidate :
  RTCStats.type (candidate_stats_of K timestamp_us is_local candidate)
  = candidate_kType is_local.
Proof. by destruct is_local. Qed.

Lemma StatsType_eqb_eq (a b : StatsType) : StatsType_eqb a b = true <-> a = b.
Proof. destruct a, b; simpl; split; congruence. Qed.

(** The ids of candidates and of candidate pairs never meet. *)
Lemma candidate_id_not_pair_id candidate info :
  candidate_stats_id candidate ≠ candidate_pair_stats_id info.
Proof.
  unfold candidate_stats_id, candidate_pair_stats_id. intros H. discriminate H.
Qed.

Lemma pair_id_not_candidate_id info candidate :
  candidate_pair_stats_id info ≠ candidate_stats_id candidate.
Proof. apply not_eq_sym, candidate_id_not_pair_id. Qed.

Lemma candidate_stats_id_inj a b :
  candidate_stats_id a = candidate_stats_id b -> cricket.id a = cricket.id b.
Proof. unfold candidate_stats_id. intros H. by simplify_eq/=. Qed.

(** What one call of [ProduceIceCandidateStats_s] does: it answers the id
    made from the candidate's id, and the report gains the candidate's
    object when it had none under that id and stays as it is otherwise. *)
Lemma ProduceIceCandidateStats_s_spec K c timestamp_us candidate is_local
    (report : RTCStatsReport) :
  keyed report ->
  known_port_type K (cricket.type candidate) ->
  side_agrees is_local candidate report ->
  ProduceIceCandidateStats_s K c (signaling_thread_ c) timestamp_us candidate
    is_local report
  = Some (candidate_stats_id candidate,
          add_if_absent (candidate_stats_of K timestamp_us is_local candidate)
            report).
Proof.
  intros Hk Hty Hside. unfold ProduceIceCandidateStats_s, Get.
  rewrite IsCurrent_refl.
  change ("RTCIceCandidate_" +:+ cricket.id candidate)
    with (candidate_stats_id candidate).
  unfold add_if_absent. rewrite candidate_stats_of_id.
  destruct (report !! candidate_stats_id candidate) as [stats|] eqn:E.
  - simpl. rewrite (Hside stats E), (Hk _ _ E). by destruct is_local.
  - destruct (known_port_type_Some K _ Hty) as [v Hv].
    unfold candidate_stats_of. rewrite Hv. simpl. by destruct is_local.
Qed.

(** The candidate pair object made for an entry. *)
Definition pair_stats_of (timestamp_us : Z) (info : cricket.ConnectionInfo)
  : RTCStats.t :=
  new_RTCIceCandidatePairStats (candidate_pair_stats_id info) timestamp_us
    (candidate_stats_id (cricket.local_candidate info))
    (candidate_stats_id (cricket.remote_candidate info)) info.

(** The report after the body of the loop has run for an entry. *)
Definition info_result (K : cricket.Constants) (timestamp_us : Z)
    (info : cricket.ConnectionInfo) (report : RTCStatsReport) : RTCStatsReport :=
  <[candidate_pair_stats_id info := pair_stats_of timestamp_us info]>
    (add_if_absent
       (candidate_stats_of K timestamp_us false (cricket.remote_candidate info))
       (add_if_absent
          (candidate_stats_of K timestamp_us true (cricket.local_candidate info))
          report)).

Lemma ProduceIceCandidateAndPairStats_info_spec K c timestamp_us info
    (report : RTCStatsReport) :
  keyed report ->
  known_port_type K (cricket.type (cricket.local_candidate info)) ->
  known_port_type K (cricket.type (cricket.remote_candidate info)) ->
  side_agrees true (cricket.local_candidate info) report ->
  side_agrees false (cricket.remote_candidate info) report ->
  cricket.id (cricket.local_candidate info)
    ≠ cricket.id (cricket.remote_candidate info) ->
  ProduceIceCandidateAndPairStats_info K c (signaling_thread_ c) timestamp_us
    info report
  = Some (info_result K timestamp_us info report).
Proof.
  intros Hk Hl Hr Hsl Hsr Hne. unfold ProduceIceCandidateAndPairStats_info.
  rewrite ProduceIceCandidateStats_s_spec by done. simpl.
  rewrite ProduceIceCandidateStats_s_spec; [done | | done |].
  - by apply keyed_add_if_absent.
  - intros stats. rewrite add_if_absent_lookup_ne; [apply Hsr |].
    rewrite candidate_stats_of_id. intros E.
    by apply candidate_stats_id_inj in E.
Qed.

(** *** Range-for loops *)

Lemma for_each_app {A S : Type} (body : A -> S -> option S) (l1 l2 : list A)
    (s : S) :
  for_each body (l1 ++ l2) s = for_each body l1 s ≫= for_each body l2.
Proof.
  revert s. induction l1 as [|x l1 IH]; intros s; simpl; [done |].
  destruct (body x s); simpl; [apply IH | done].
Qed.

Lemma for_each_nested {A B S : Type} (inner : A -> list B)
    (body : B -> S -> option S) (l : list A) (s : S) :
  for_each (fun x => for_each body (inner x)) l s
  = for_each body (l ≫= inner) s.
Proof.
  revert s. induction l as [|x l IH]; intros s; simpl; [done |].
  rewrite for_each_app.
  destruct (for_each body (inner x) s); simpl; [apply IH | done].
Qed.

Lemma for_each_invariant {A S : Type} (P : S -> Prop)
    (body : A -> S -> option S) (l : list A) :
  (∀ x s s', x ∈ l -> P s -> body x s = Some s' -> P s') ->
  ∀ s s', P s -> for_each body l s = Some s' -> P s'.
Proof.
  induction l as [|x l IH]; intros Hbody s s' Hs; simpl.
  - by intros [= <-].
  - destruct (body x s) as [s1|] eqn:E; simpl; [| done].
    apply IH.
    + intros y t t' Hy. apply Hbody. by right.
    + eapply Hbody; [by left | exact Hs | exact E].
Qed.

(** The entries of a session in the order the three loops visit them. *)
Definition session_infos (session_stats : SessionStats)
  : list cricket.ConnectionInfo :=
  transport_stats session_stats ≫= fun transport_stats =>
    cricket.channel_stats transport_stats.2 ≫= cricket.connection_infos.

Lemma ProduceIceCandidateAndPairStats_s_flat K c timestamp_us session_stats
    (report : RTCStatsReport) :
  ProduceIceCandidateAndPairStats_s K c (signaling_thread_ c) timestamp_us
    session_stats report
  = for_each
      (ProduceIceCandidateAndPairStats_info K c (signaling_thread_ c)
         timestamp_us)
      (session_infos session_stats) report.
Proof.
  unfold ProduceIceCandidateAndPairStats_s, session_infos.
  rewrite IsCurrent_refl. simpl.
  rewrite <- for_each_nested.
  generalize (transport_stats session_stats) report.
  induction l as [|x l IH]; intros r; simpl; [done |].
  rewrite for_each_nested.
  destruct (for_each _ _ r); simpl; [apply IH | done].
Qed.

(** What the entries and the report have to satisfy for the producer to
    pass its own checks: the report is keyed by id, every candidate type is
    one of the four, no candidate id is used on both sides, and an object
    that is already there under a candidate's id is of the candidate's
    side. *)
Record infos_ready (K : cricket.Constants)
    (infos : list cricket.ConnectionInfo) (report : RTCStatsReport) : Prop := {
  ready_keyed : keyed report;
  ready_types : ∀ info, info ∈ infos ->
    known_port_type K (cricket.type (cricket.local_candidate info)) ∧
    known_port_type K (cricket.type (cricket.remote_candidate info));
  ready_sides : ∀ i j, i ∈ infos -> j ∈ infos ->
    cricket.id (cricket.local_candidate i)
      ≠ cricket.id (cricket.remote_candidate j);
  ready_agree : ∀ info, info ∈ infos ->
    side_agrees true (cricket.local_candidate info) report ∧
    side_agrees false (cricket.remote_candidate info) report
}.

Lemma info_result_keyed K timestamp_us info (report : RTCStatsReport) :
  keyed report -> keyed (info_result K timestamp_us info report).
Proof.
  intros Hk. unfold info_result.
  apply (keyed_insert (pair_stats_of timestamp_us info)).
  by do 2 apply keyed_add_if_absent.
Qed.

Lemma info_result_lookup_other K timestamp_us info (report : RTCStatsReport) k :
  k ≠ candidate_pair_stats_id info ->
  k ≠ candidate_stats_id (cricket.local_candidate info) ->
  k ≠ candidate_stats_id (cricket.remote_candidate info) ->
  info_result K timestamp_us info report !! k = report !! k.
Proof.
  intros H1 H2 H3. unfold info_result.
  rewrite lookup_insert_ne by done.
  by rewrite !add_if_absent_lookup_ne.
Qed.

Lemma info_result_subseteq K timestamp_us info (report : RTCStatsReport) :
  report !! candidate_pair_stats_id info = None ->
  report ⊆ info_result K timestamp_us info report.
Proof.
  intros Hfresh. unfold info_result.
  etrans; [apply add_if_absent_subseteq |].
  etrans; [apply add_if_absent_subseteq |].
  apply insert_subseteq.
  rewrite !add_if_absent_lookup_ne; [done | |];
    rewrite candidate_stats_of_id; apply pair_id_not_candidate_id.
Qed.

Lemma info_result_dom K timestamp_us info (report : RTCStatsReport) :
  dom (info_result K timestamp_us info report)
  = {[candidate_pair_stats_id info]} ∪
    ({[candidate_stats_id (cricket.remote_candidate info)]} ∪
     ({[candidate_stats_id (cricket.local_candidate info)]} ∪ dom report)).
Proof.
  unfold info_result. rewrite dom_insert_L, !add_if_absent_dom.
  by rewrite !candidate_stats_of_id.
Qed.

Lemma info_result_local K timestamp_us info (report : RTCStatsReport) :
  side_agrees true (cricket.local_candidate info) report ->
  ∃ stats,
    info_result K timestamp_us info report
      !! candidate_stats_id (cricket.local_candidate info) = Some stats ∧
    RTCStats.type stats = RTCLocalIceCandidateStats_kType.
Proof.
  intros Hs. unfold info_result.
  rewrite lookup_insert_ne by apply pair_id_not_candidate_id.
  pose proof (add_if_absent_lookup
    (candidate_stats_of K timestamp_us true (cricket.local_candidate info))
    report) as Hl.
  rewrite candidate_stats_of_id in Hl.
  eexists. split.
  - eapply lookup_weaken; [exact Hl | apply add_if_absent_subseteq].
  - destruct (report !! _) as [s|] eqn:E; simpl; [by apply Hs | done].
Qed.

Lemma info_result_remote K timestamp_us info (report : RTCStatsReport) :
  side_agrees false (cricket.remote_candidate info) report ->
  cricket.id (cricket.local_candidate info)
    ≠ cricket.id (cricket.remote_candidate info) ->
  ∃ stats,
    info_result K timestamp_us info report
      !! candidate_stats_id (cricket.remote_candidate info) = Some stats ∧
    RTCStats.type stats = RTCRemoteIceCandidateStats_kType.
Proof.
  intros Hs Hne. unfold info_result.
  rewrite lookup_insert_ne by apply pair_id_not_candidate_id.
  pose proof (add_if_absent_lookup
    (candidate_stats_of K timestamp_us false (cricket.remote_candidate info))
    (add_if_absent
       (candidate_stats_of K timestamp_us true (cricket.local_candidate info))
       report)) as Hl.
  rewrite candidate_stats_of_id in Hl. rewrite Hl. clear Hl.
  eexists. split; [done |].
  rewrite add_if_absent_lookup_ne.
  - destruct (report !! _) as [s|] eqn:E; simpl; [by apply Hs | done].
  - rewrite candidate_stats_of_id. intros E.
    apply candidate_stats_id_inj in E. congruence.
Qed.

Lemma infos_ready_tail K timestamp_us info infos (report : RTCStatsReport) :
  infos_ready K (info :: infos) report ->
  infos_ready K infos (info_result K timestamp_us info report).
Proof.
  intros [Hk Hty Hsides Hag].
  assert (Hin : info ∈ info :: infos) by left.
  destruct (Hag info Hin) as [Hal Har].
  split.
  - by apply info_result_keyed.
  - intros i Hi. apply Hty. by right.
  - intros i j Hi Hj. apply Hsides; by right.
  - intros i Hi.
    assert (Hi' : i ∈ info :: infos) by by right.
    destruct (Hag i Hi') as [Hil Hir].
    split; intros stats Hlook.
    + destruct (decide (candidate_stats_id (cricket.local_candidate i)
                        = candidate_stats_id (cricket.remote_candidate info)))
        as [E | Hn1].
      { apply candidate_stats_id_inj in E. by apply Hsides in E. }
      destruct (decide (candidate_stats_id (cricket.local_candidate i)
                        = candidate_stats_id (cricket.local_candidate info)))
        as [E | Hn2].
      { destruct (info_result_local K timestamp_us info report Hal)
          as (s & Hs & Hts).
        rewrite E in Hlook. by simplify_eq. }
      rewrite info_result_lookup_other in Hlook
        by (done || apply candidate_id_not_pair_id).
      by apply Hil.
    + destruct (decide (candidate_stats_id (cricket.remote_candidate i)
                        = candidate_stats_id (cricket.local_candidate info)))
        as [E | Hn1].
      { apply candidate_stats_id_inj in E. symmetry in E.
        by apply Hsides in E. }
      destruct (decide (candidate_stats_id (cricket.remote_candidate i)
                        = candidate_stats_id (cricket.remote_candidate info)))
        as [E | Hn2].
      { destruct (info_result_remote K timestamp_us info report Har)
          as (s & Hs & Hts); [by apply Hsides |].
        rewrite E in Hlook. by simplify_eq. }
      rewrite info_result_lookup_other in Hlook
        by (done || apply candidate_id_not_pair_id).
      by apply Hir.
Qed.

(** The candidate part of a report after the loop over the entries: the
    run goes through, what was in the report stays, every entry has its
    pair object, and under the id of each candidate there is one object, of
    the candidate's side. *)
Lemma for_each_info_spec K c timestamp_us infos :
  ∀ report : RTCStatsReport,
    infos_ready K infos report ->
    NoDup (candidate_pair_stats_id <$> infos) ->
    (∀ info, info ∈ infos -> report !! candidate_pair_stats_id info = None) ->
    ∃ report' : RTCStatsReport,
      for_each
        (ProduceIceCandidateAndPairStats_info K c (signaling_thread_ c)
           timestamp_us) infos report = Some report' ∧
      keyed report' ∧
      report ⊆ report' ∧
      dom report'
      = dom report ∪
        list_to_set (candidate_pair_stats_id <$> infos) ∪
        list_to_set
          ((fun i => candidate_stats_id (cricket.local_candidate i)) <$> infos) ∪
        list_to_set
          ((fun i => candidate_stats_id (cricket.remote_candidate i)) <$> infos) ∧
      ∀ info, info ∈ infos ->
        report' !! candidate_pair_stats_id info
          = Some (pair_stats_of timestamp_us info) ∧
        (∃ stats,
           report' !! candidate_stats_id (cricket.local_candidate info)
             = Some stats ∧
           RTCStats.type stats = RTCLocalIceCandidateStats_kType) ∧
        (∃ stats,
           report' !! candidate_stats_id (cricket.remote_candidate info)
             = Some stats ∧
           RTCStats.type stats = RTCRemoteIceCandidateStats_kType).
Proof.
  induction infos as [|info infos IH]; intros report Hready Hnd Hfresh.
  - exists report. simpl.
    split; [done |]. split; [apply Hready |]. split; [done |].
    split; [by rewrite !union_empty_r_L |].
    intros info Hin. by apply elem_of_nil in Hin.
  - assert (Hin : info ∈ info :: infos) by left.
    destruct (ready_types _ _ _ Hready info Hin) as [Htl Htr].
    destruct (ready_agree _ _ _ Hready info Hin) as [Hal Har].
    pose proof (ready_sides _ _ _ Hready info info Hin Hin) as Hne.
    pose proof (ready_keyed _ _ _ Hready) as Hk.
    rewrite fmap_cons in Hnd. apply NoDup_cons in Hnd as [Hnotin Hnd].
    assert (Hsub : report ⊆ info_result K timestamp_us info report)
      by (apply info_result_subseteq, Hfresh, Hin).
    destruct (IH (info_result K timestamp_us info report)) as
      (report' & Hrun & Hk' & Hsub' & Hdom & Hall).
    + by apply infos_ready_tail.
    + done.
    + intros i Hi.
      rewrite info_result_lookup_other.
      * apply Hfresh. by right.
      * intros E. apply Hnotin. rewrite <- E.
        apply list_elem_of_fmap. by exists i.
      * apply pair_id_not_candidate_id.
      * apply pair_id_not_candidate_id.
    + exists report'. simpl.
      rewrite ProduceIceCandidateAndPairStats_info_spec by done. simpl.
      split; [exact Hrun |]. split; [exact Hk' |].
      split; [by etrans |].
      split.
      * rewrite Hdom, info_result_dom. set_solver.
      * intros i Hi. apply elem_of_cons in Hi as [-> | Hi]; [| by apply Hall].
        split; [| split].
        -- eapply lookup_weaken; [| exact Hsub'].
           unfold info_result. by rewrite lookup_insert_eq.
        -- destruct (info_result_local K timestamp_us info report Hal)
             as (s & Hs & Hts).
           exists s. split; [| done]. by eapply lookup_weaken.
        -- destruct (info_result_remote K timestamp_us info report Har Hne)
             as (s & Hs & Hts).
           exists s. split; [| done]. by eapply lookup_weaken.
Qed.

Lemma infos_ready_empty K infos :
  (∀ info, info ∈ infos ->
     known_port_type K (cricket.type (cricket.local_candidate info)) ∧
     known_port_type K (cricket.type (cricket.remote_candidate info))) ->
  (∀ i j, i ∈ infos -> j ∈ infos ->
     cricket.id (cricket.local_candidate i)
       ≠ cricket.id (cricket.remote_candidate j)) ->
  infos_ready K infos ∅.
Proof.
  intros Hty Hsides. split; [apply keyed_empty | done | done |].
  intros info _. split; intros stats; by rewrite lookup_empty.
Qed.







(** The entry of the collector's own test: 42 bytes sent, 1234 received,
    an rtt of 1337 ms. *)
Definition example_candidate (id type : string) : cricket.Candidate :=
  {| cricket.id := id;
     cricket.address := {| cricket.ipaddr := "42.42.42.42"; cricket.port := 42 |};
     cricket.protocol := "protocol";
     cricket.type := type;
     cricket.priority := 42 |}.

Definition example_info (local_id remote_id : string) : cricket.ConnectionInfo :=
  {| cricket.local_candidate := example_candidate local_id "local";
     cricket.remote_candidate := example_candidate remote_id "local";
     cricket.writable := true;
     cricket.sent_total_bytes := 42;
     cricket.recv_total_bytes := 1234;
     cricket.rtt := 1337;
     cricket.sent_ping_requests_total := 1010;
     cricket.recv_ping_responses := 4321;
     cricket.sent_ping_responses := 1000 |}.

Definition session_of (infos : list cricket.ConnectionInfo) : SessionStats :=
  {| transport_stats :=
       [("transport",
         {| cricket.transport_name := "transport";
            cricket.channel_stats :=
              [ {| cricket.connection_infos := infos |} ] |})] |}.

Lemma example_known_type : known_port_type webrtc_constants "local".
Proof. unfold known_port_type. simpl. by left. Qed.

Lemma example_infos_ready (infos : list cricket.ConnectionInfo) :
  Forall (fun info =>
    cricket.type (cricket.local_candidate info) = "local" ∧
    cricket.type (cricket.remote_candidate info) = "local") infos ->
  Forall (fun i => Forall (fun j =>
    cricket.id (cricket.local_candidate i)
      ≠ cricket.id (cricket.remote_candidate j)) infos) infos ->
  infos_ready webrtc_constants infos ∅.
Proof.
  rewrite !Forall_forall. intros Hty Hsides. apply infos_ready_empty.
  - intros info Hin. destruct (Hty info Hin) as [-> ->].
    split; apply example_known_type.
  - intros i j Hi Hj. specialize (Hsides i Hi).
    rewrite Forall_forall in Hsides. by apply Hsides.
Qed.



(** C5, as the code has it.  The id of a candidate's object is
    [RTCIceCandidate_] followed by the candidate's id.  One call of
    [ProduceIceCandidateStats_s] answers that id and makes the object only
    when the report has none under it.  For a whole session whose entries
    pass the producer's checks (known candidate types, no candidate id used
    both as local and as remote, pair ids distinct and free): the producer
    goes through, keeps every object the report had, adds one object per
    pair id and one per candidate id however many entries share the
    candidate, and the pair object of every entry carries the ids of its two
    candidates, under each of which the report holds one object of the
    candidate's side. *)
Theorem candidate_dedup_on_insert K c timestamp_us :
  (∀ candidate is_local (report : RTCStatsReport),
     keyed report ->
     known_port_type K (cricket.type candidate) ->
     side_agrees is_local candidate report ->
     ProduceIceCandidateStats_s K c (signaling_thread_ c) timestamp_us
       candidate is_local report
     = Some ("RTCIceCandidate_" +:+ cricket.id candidate,
             match report !! ("RTCIceCandidate_" +:+ cricket.id candidate) with
             | Some _ => report
             | None =>
                 <["RTCIceCandidate_" +:+ cricket.id candidate :=
                     candidate_stats_of K timestamp_us is_local candidate]>
                   report
             end)) ∧
  (∀ session_stats (report : RTCStatsReport),
     infos_ready K (session_infos session_stats) report ->
     NoDup (candidate_pair_stats_id <$> session_infos session_stats) ->
     (∀ i, i ∈ session_infos session_stats ->
           report !! candidate_pair_stats_id i = None) ->
     ∃ report' : RTCStatsReport,
       ProduceIceCandidateAndPairStats_s K c (signaling_thread_ c)
         timestamp_us session_stats report = Some report' ∧
       report ⊆ report' ∧
       dom report'
       = dom report ∪
         list_to_set
           (candidate_pair_stats_id <$> session_infos session_stats) ∪
         list_to_set
           ((fun i => "RTCIceCandidate_" +:+
                      cricket.id (cricket.local_candidate i))
              <$> session_infos session_stats) ∪
         list_to_set
           ((fun i => "RTCIceCandidate_" +:+
                      cricket.id (cricket.remote_candidate i))
              <$> session_infos session_stats) ∧
       ∀ info, info ∈ session_infos session_stats ->
         ∃ pair m local remote,
           report' !! candidate_pair_stats_id info = Some pair ∧
           RTCStats.members pair = IceCandidatePair m ∧
           RTCIceCandidatePairStats.local_candidate_id m
             = Some (RTCStats.id local) ∧
           RTCIceCandidatePairStats.remote_candidate_id m
             = Some (RTCStats.id remote) ∧
           report' !! ("RTCIceCandidate_" +:+
                       cricket.id (cricket.local_candidate info))
             = Some local ∧
           RTCStats.id local
             = "RTCIceCandidate_" +:+ cricket.id (cricket.local_candidate info) ∧
           RTCStats.type local = RTCLocalIceCandidateStats_kType ∧
           report' !! ("RTCIceCandidate_" +:+
                       cricket.id (cricket.remote_candidate info))
             = Some remote ∧
           RTCStats.id remote
             = "RTCIceCandidate_" +:+ cricket.id (cricket.remote_candidate info) ∧
           RTCStats.type remote = RTCRemoteIceCandidateStats_kType).
Proof.
  split.
  - intros candidate is_local report Hk Hty Hside.
    by rewrite ProduceIceCandidateStats_s_spec.
  - intros session_stats report Hready Hnd Hfresh.
    rewrite ProduceIceCandidateAndPairStats_s_flat.
    destruct (for_each_info_spec K c timestamp_us _ report Hready Hnd Hfresh)
      as (report' & Hrun & Hk & Hsub & Hdom & Hall).
    exists report'. split; [exact Hrun |]. split; [exact Hsub |].
    split; [exact Hdom |].
    intros info Hin.
    destruct (Hall info Hin) as (Hpair & (l & Hl & Htl) & (r & Hr & Htr)).
    eexists _, _, l, r. split; [exact Hpair |]. split; [reflexivity |].
    pose proof (Hk _ _ Hl) as Hidl. pose proof (Hk _ _ Hr) as Hidr.
    simpl. rewrite Hidl, Hidr. done.
Qed.

(** Two pairs that share their local candidate. *)
Definition sharing_session : SessionStats :=
  session_of [example_info "Lx" "Rx"; example_info "Lx" "Ry"].

Lemma candidate_dedup_on_insert_witness :
  ∃ report' : RTCStatsReport,
    ProduceIceCandidateAndPairStats_s webrtc_constants example_collector 1%nat
      7 sharing_session ∅ = Some report' ∧
    dom report'
    = ({["RTCIceCandidatePair_Lx_Rx"; "RTCIceCandidatePair_Lx_Ry";
         "RTCIceCandidate_Lx"; "RTCIceCandidate_Rx"; "RTCIceCandidate_Ry"]}
       : gset string).
Proof.
  destruct (candidate_dedup_on_insert webrtc_constants example_collector 7)
    as [_ H].
  destruct (H sharing_session ∅) as (report' & Hrun & _ & Hdom & _).
  - apply example_infos_ready; repeat constructor; done.
  - apply (bool_decide_unpack _). by vm_compute.
  - intros i _. apply lookup_empty.
  - exists report'. split; [exact Hrun |].
    rewrite Hdom. apply (bool_decide_unpack _). by vm_compute.
Defined.

(** The claim as the spec words it (ids [Candidate_...]) fails on the code:
    after the producer has run on two pairs that share the local candidate
    [Lx], nothing is under [Candidate_Lx]; the candidate's one object is
    under [RTCIceCandidate_Lx] and carries that id.  When a candidate id is
    used as local in one pair and as remote in another, the check that ends
    [ProduceIceCandidateStats_s] fails, and there is no report.  And two
    pairs whose ids run together to the same pair id ([a_b] with [c], [a]
    with [b_c]) leave one pair object, not two: four candidates and one
    pair. *)
Lemma candidate_dedup_counterexample :
  (fun report' : RTCStatsReport =>
     (report' !! ("Candidate_" +:+ "Lx"),
      RTCStats.id <$> report' !! "RTCIceCandidate_Lx",
      size report')) <$>
    ProduceIceCandidateAndPairStats_s webrtc_constants example_collector 1%nat
      7 sharing_session ∅
  = Some (None, Some "RTCIceCandidate_Lx", 5%nat) ∧
  ProduceIceCandidateAndPairStats_s webrtc_constants example_collector 1%nat
    7 (session_of [example_info "Lx" "Rx"; example_info "Ly" "Lx"]) ∅ = None ∧
  (size : RTCStatsReport -> nat) <$>
    ProduceIceCandidateAndPairStats_s webrtc_constants example_collector 1%nat
      7 (session_of [example_info "a_b" "c"; example_info "a" "b_c"]) ∅
  = Some 5%nat.
Proof. repeat split; vm_compute; reflexivity. Qed.

(** ** Certificate chains *)

(** The nodes of an issuer chain, leaf first. *)
Fixpoint chain_nodes (s : rtc.SSLCertificateStats)
  : list rtc.SSLCertificateStats :=
  s :: match rtc.issuer s with
       | Some s' => chain_nodes s'
       | None => []
       end.

Definition certificate_stats_id (s : rtc.SSLCertificateStats) : string :=
  "RTCCertificate_" +:+ rtc.fingerprint s.

(** The object of a node once the walk is over: it names its issuer's
    object when there is one. *)
Definition certificate_stats_of (prefix : string) (timestamp_us : Z)
    (s : rtc.SSLCertificateStats) (issuer_certificate_id : option string)
  : RTCStats.t :=
  {| RTCStats.id := prefix +:+ rtc.fingerprint s;
     RTCStats.timestamp_us := timestamp_us;
     RTCStats.members := Certificate
       {| RTCCertificateStats.fingerprint := Some (rtc.fingerprint s);
          RTCCertificateStats.fingerprint_algorithm :=
            Some (rtc.fingerprint_algorithm s);
          RTCCertificateStats.base64_certificate :=
            Some (rtc.base64_certificate s);
          RTCCertificateStats.issuer_certificate_id :=
            issuer_certificate_id |} |}.

(** The loop over the chain as turns over the list of its nodes. *)
Fixpoint chain_turns (timestamp_us : Z) (nodes : list rtc.SSLCertificateStats)
    (prev_stats : option string) (report : RTCStatsReport)
  : option string * RTCStatsReport :=
  match nodes with
  | [] => (prev_stats, report)
  | s :: rest =>
      let '(prev_stats, report) := chain_turn timestamp_us s prev_stats report in
      chain_turns timestamp_us rest prev_stats report
  end.

Lemma SSLCertificateStats_chain_ind (P : rtc.SSLCertificateStats -> Prop) :
  (∀ s, rtc.issuer s = None -> P s) ->
  (∀ s s', rtc.issuer s = Some s' -> P s' -> P s) ->
  ∀ s, P s.
Proof.
  intros Hleaf Hnode. fix IH 1. intros [fp alg b64 [s' |]].
  - apply (Hnode _ s'); [done | apply IH].
  - by apply Hleaf.
Qed.

Lemma chain_loop_turns timestamp_us s :
  ∀ prev_stats (report : RTCStatsReport),
    chain_loop timestamp_us s prev_stats report
    = (chain_turns timestamp_us (chain_nodes s) prev_stats report).2.
Proof.
  induction s as [s Hs | s s' Hs IH] using SSLCertificateStats_chain_ind;
    intros prev_stats report.
  - destruct s as [fp alg b64 iss]. simpl in Hs. subst iss. reflexivity.
  - destruct s as [fp alg b64 iss]. simpl in Hs. subst iss. simpl.
    apply IH.
Qed.

Lemma certificate_stats_id_inj : Inj (=) (=) (String.append "RTCCertificate_").
Proof. intros a b H. by simplify_eq/=. Qed.

Lemma new_RTCCertificateStats_eq timestamp_us s :
  new_RTCCertificateStats timestamp_us s
  = certificate_stats_of "RTCCertificate_" timestamp_us s None.
Proof. reflexivity. Qed.

Lemma set_issuer_certificate_id_of v prefix timestamp_us s o :
  set_issuer_certificate_id v (certificate_stats_of prefix timestamp_us s o)
  = certificate_stats_of prefix timestamp_us s (Some v).
Proof. reflexivity. Qed.

Lemma chain_turns_cons timestamp_us s rest prev_stats (report : RTCStatsReport) :
  chain_turns timestamp_us (s :: rest) prev_stats report
  = chain_turns timestamp_us rest (Some (certificate_stats_id s))
      (chain_turn timestamp_us s prev_stats report).2.
Proof. reflexivity. Qed.

(** The walk from any turn on.  [prev_stats], when set, names an object of
    the report that is none of the nodes still to come. *)
Lemma chain_turns_spec timestamp_us nodes :
  ∀ prev_stats (report : RTCStatsReport),
    NoDup (certificate_stats_id <$> nodes) ->
    (∀ s, s ∈ nodes -> report !! certificate_stats_id s = None) ->
    (∀ p, prev_stats = Some p -> p ∉ certificate_stats_id <$> nodes) ->
    let report' := (chain_turns timestamp_us nodes prev_stats report).2 in
    (∀ k, k ∉ certificate_stats_id <$> nodes -> prev_stats ≠ Some k ->
          report' !! k = report !! k) ∧
    (∀ p, prev_stats = Some p ->
          report' !! p
          = match nodes with
            | [] => report !! p
            | s :: _ =>
                set_issuer_certificate_id (certificate_stats_id s)
                  <$> report !! p
            end) ∧
    (∀ i s, nodes !! i = Some s ->
            report' !! certificate_stats_id s
            = Some (certificate_stats_of "RTCCertificate_" timestamp_us s
                      (certificate_stats_id <$> nodes !! S i))) ∧
    dom report' = dom report ∪ list_to_set (certificate_stats_id <$> nodes).
Proof.
  induction nodes as [|s rest IH]; intros prev_stats report Hnd Hfresh Hprev.
  - simpl. split; [done |]. split; [done |]. split; [done |].
    by rewrite union_empty_r_L.
  - rewrite chain_turns_cons.
    rewrite fmap_cons in Hnd. apply NoDup_cons in Hnd as [Hs Hnd].
    set (report1 := (chain_turn timestamp_us s prev_stats report).2).
    assert (Hlook1 : ∀ k, k ≠ certificate_stats_id s -> prev_stats ≠ Some k ->
                          report1 !! k = report !! k).
    { intros k Hk Hp. unfold report1, chain_turn, AddStats. simpl.
      rewrite lookup_insert_ne by done.
      destruct prev_stats as [prev|]; [| done].
      rewrite lookup_alter_ne; [done | congruence]. }
    assert (Hlooks : report1 !! certificate_stats_id s
                     = Some (new_RTCCertificateStats timestamp_us s)).
    { unfold report1, chain_turn, AddStats. simpl. apply lookup_insert_eq. }
    assert (Hlookp : ∀ p, prev_stats = Some p ->
              report1 !! p
              = set_issuer_certificate_id (certificate_stats_id s)
                  <$> report !! p).
    { intros p ->. unfold report1, chain_turn, AddStats. simpl.
      rewrite lookup_insert_ne.
      - by rewrite lookup_alter_eq.
      - intros E. apply (Hprev p eq_refl). rewrite fmap_cons, <- E. by left. }
    assert (Hdom1 : dom report1 = {[certificate_stats_id s]} ∪ dom report).
    { unfold report1, chain_turn, AddStats. simpl. rewrite dom_insert_L.
      destruct prev_stats as [prev|]; [| done]. by rewrite dom_alter_L. }
    destruct (IH (Some (certificate_stats_id s)) report1) as (Ha & Hb & Hc & Hd).
    + done.
    + intros s' Hs'.
      assert (Hne : certificate_stats_id s' ≠ certificate_stats_id s).
      { intros E. apply Hs. rewrite <- E. apply list_elem_of_fmap. eauto. }
      destruct (decide (prev_stats = Some (certificate_stats_id s'))) as [E | Hn].
      * rewrite (Hlookp _ E). rewrite Hfresh; [done | by right].
      * rewrite Hlook1 by done. apply Hfresh. by right.
    + by intros p [= <-].
    + cbv zeta. split; [| split; [| split]].
      * intros k Hk Hp. rewrite fmap_cons, not_elem_of_cons in Hk.
        destruct Hk as [Hk1 Hk2].
        rewrite Ha; [by apply Hlook1 | done | congruence].
      * intros p Hp.
        assert (Hpn : p ∉ certificate_stats_id <$> s :: rest)
          by by apply Hprev.
        rewrite fmap_cons, not_elem_of_cons in Hpn. destruct Hpn as [Hp1 Hp2].
        rewrite Ha; [by apply Hlookp | done | congruence].
      * intros [|i] s0 Hi; simpl in Hi.
        -- injection Hi as <-.
           rewrite (Hb _ eq_refl), Hlooks. simpl.
           destruct rest as [|s1 rest]; simpl; [done |].
           by rewrite new_RTCCertificateStats_eq.
        -- by apply Hc.
      * rewrite Hd, Hdom1, fmap_cons. simpl. set_solver.
Qed.

(** What the claim about chains says of a report before and after the
    walk, for ids made with [prefix]: as many objects more as the chain has
    nodes, and under the id of each node an object that carries the node's
    data and names the object of the next node, the last naming none. *)
Definition chain_linked (prefix : string) (timestamp_us : Z)
    (nodes : list rtc.SSLCertificateStats) (report report' : RTCStatsReport)
  : Prop :=
  size report' = (size report + length nodes)%nat ∧
  ∀ i s, nodes !! i = Some s ->
    report' !! (prefix +:+ rtc.fingerprint s)
    = Some (certificate_stats_of prefix timestamp_us s
              ((fun s' => prefix +:+ rtc.fingerprint s') <$> nodes !! S i)).

Lemma chain_ids_NoDup (nodes : list rtc.SSLCertificateStats) :
  NoDup (rtc.fingerprint <$> nodes) -> NoDup (certificate_stats_id <$> nodes).
Proof.
  intros H.
  change (NoDup ((String.append "RTCCertificate_" ∘ rtc.fingerprint) <$> nodes)).
  rewrite list_fmap_compose.
  apply NoDup_fmap_2; [apply certificate_stats_id_inj | done].
Qed.

Lemma certificate_chain_run c timestamp_us s (report : RTCStatsReport) :
  ProduceCertificateStatsFromSSLCertificateAndChain_s c (signaling_thread_ c)
    timestamp_us {| rtc.GetStats := Some s |} report
  = Some (chain_turns timestamp_us (chain_nodes s) None report).2.
Proof.
  unfold ProduceCertificateStatsFromSSLCertificateAndChain_s.
  rewrite IsCurrent_refl. simpl. by rewrite chain_loop_turns.
Qed.

(** The walk leaves what the report held before it. *)
Lemma chain_turns_keep timestamp_us nodes (report : RTCStatsReport) :
  NoDup (rtc.fingerprint <$> nodes) ->
  (∀ node, node ∈ nodes ->
           report !! ("RTCCertificate_" +:+ rtc.fingerprint node) = None) ->
  report ⊆ (chain_turns timestamp_us nodes None report).2.
Proof.
  intros Hnd Hfresh. apply chain_ids_NoDup in Hnd.
  destruct (chain_turns_spec timestamp_us nodes None report Hnd Hfresh)
    as (Ha & _); [done |].
  apply map_subseteq_spec. intros k x Hk. rewrite Ha; [done | | done].
  intros Hin. apply list_elem_of_fmap in Hin as (node & -> & Hin).
  specialize (Hfresh node Hin). unfold certificate_stats_id in Hk.
  congruence.
Qed.

(** C4, as the code has it.  For a chain whose fingerprints are pairwise
    distinct and whose ids are free in the report, the producer keeps what
    the report had and adds as many objects as the chain has nodes; the
    object of a node is under [RTCCertificate_] followed by the node's
    fingerprint, and its [issuer_certificate_id] is the id of the next
    node's object, undefined for the last node. *)
Theorem certificate_chain_linked c timestamp_us s (report : RTCStatsReport) :
  NoDup (rtc.fingerprint <$> chain_nodes s) ->
  (∀ node, node ∈ chain_nodes s ->
           report !! ("RTCCertificate_" +:+ rtc.fingerprint node) = None) ->
  ∃ report' : RTCStatsReport,
    ProduceCertificateStatsFromSSLCertificateAndChain_s c (signaling_thread_ c)
      timestamp_us {| rtc.GetStats := Some s |} report = Some report' ∧
    report ⊆ report' ∧
    chain_linked "RTCCertificate_" timestamp_us (chain_nodes s) report report'.
Proof.
  intros Hnd Hfresh. rewrite certificate_chain_run.
  eexists. split; [reflexivity |].
  split; [by apply chain_turns_keep |].
  apply chain_ids_NoDup in Hnd.
  destruct (chain_turns_spec timestamp_us (chain_nodes s) None report
              Hnd Hfresh) as (_ & _ & Hc & Hd); [done |].
  split.
  - rewrite <- !size_dom, Hd. rewrite size_union.
    + by rewrite size_list_to_set, length_fmap.
    + intros k Hk1 Hk2. apply elem_of_list_to_set in Hk2.
      apply list_elem_of_fmap in Hk2 as (node & -> & Hin).
      apply elem_of_dom in Hk1 as [x Hx].
      specialize (Hfresh node Hin). unfold certificate_stats_id in Hx.
      congruence.
  - intros i node Hi. apply (Hc i node Hi).
Qed.

Definition example_certificate (fingerprint : string)
    (issuer : option rtc.SSLCertificateStats) : rtc.SSLCertificateStats :=
  {| rtc.fingerprint := fingerprint;
     rtc.fingerprint_algorithm := "sha-1";
     rtc.base64_certificate := "pem of " +:+ fingerprint;
     rtc.issuer := issuer |}.

(** A chain of four, as in the collector's test, and chains of two. *)
Definition chain_of_four : rtc.SSLCertificateStats :=
  example_certificate "A"
    (Some (example_certificate "B"
       (Some (example_certificate "C"
          (Some (example_certificate "D" None)))))).

Definition chain_A_B : rtc.SSLCertificateStats :=
  example_certificate "A" (Some (example_certificate "B" None)).

Definition chain_A_A : rtc.SSLCertificateStats :=
  example_certificate "A" (Some (example_certificate "A" None)).

Lemma certificate_chain_linked_witness :
  ∃ report' : RTCStatsReport,
    ProduceCertificateStatsFromSSLCertificateAndChain_s example_collector 1%nat
      7 {| rtc.GetStats := Some chain_of_four |} ∅ = Some report' ∧
    ∅ ⊆ report' ∧
    chain_linked "RTCCertificate_" 7 (chain_nodes chain_of_four) ∅ report'.
Proof.
  apply (certificate_chain_linked example_collector 7 chain_of_four ∅).
  - apply (bool_decide_unpack _). by vm_compute.
  - intros node _. apply lookup_empty.
Defined.

(** The claim as the spec words it fails on the code.  For the chain A, B
    the walk leaves nothing under [Certificate_A], so the report is not
    linked in the sense of the claim with ids [Certificate_...]; for a
    chain that names the certificate A twice the report has one object,
    not two; and a second walk over the chain A, B, on the report the first
    walk left, adds no object. *)
Lemma certificate_chain_counterexample :
  (∃ report' : RTCStatsReport,
     ProduceCertificateStatsFromSSLCertificateAndChain_s example_collector
       1%nat 7 {| rtc.GetStats := Some chain_A_B |} ∅ = Some report' ∧
     report' !! "Certificate_A" = None ∧
     ¬ chain_linked "Certificate_" 7 (chain_nodes chain_A_B) ∅ report') ∧
  (∃ report' : RTCStatsReport,
     ProduceCertificateStatsFromSSLCertificateAndChain_s example_collector
       1%nat 7 {| rtc.GetStats := Some chain_A_A |} ∅ = Some report' ∧
     size report' = 1%nat ∧
     ¬ chain_linked "RTCCertificate_" 7 (chain_nodes chain_A_A) ∅ report') ∧
  (∃ report' report'' : RTCStatsReport,
     ProduceCertificateStatsFromSSLCertificateAndChain_s example_collector
       1%nat 7 {| rtc.GetStats := Some chain_A_B |} ∅ = Some report' ∧
     ProduceCertificateStatsFromSSLCertificateAndChain_s example_collector
       1%nat 7 {| rtc.GetStats := Some chain_A_B |} report' = Some report'' ∧
     size report' = 2%nat ∧ size report'' = 2%nat ∧
     ¬ chain_linked "RTCCertificate_" 7 (chain_nodes chain_A_B) report'
         report'').
Proof.
  split; [| split].
  - eexists. split; [reflexivity |].
    assert (Hnone :
      chain_loop 7 chain_A_B None (∅ : RTCStatsReport) !! "Certificate_A" = None)
      by (vm_compute; reflexivity).
    split; [exact Hnone |].
    intros [_ Hlook]. specialize (Hlook 0%nat _ eq_refl).
    vm_compute in Hlook. discriminate.
  - eexists. split; [reflexivity |].
    assert (Hsize : size (chain_loop 7 chain_A_A None (∅ : RTCStatsReport)) = 1%nat)
      by (vm_compute; reflexivity).
    split; [exact Hsize |].
    intros [Hs _]. rewrite Hsize in Hs. vm_compute in Hs. discriminate.
  - eexists _, _. split; [reflexivity |]. split; [reflexivity |].
    assert (Hsize1 :
      size (chain_loop 7 chain_A_B None (∅ : RTCStatsReport)) = 2%nat)
      by (vm_compute; reflexivity).
    assert (Hsize2 :
      size (chain_loop 7 chain_A_B None
              (chain_loop 7 chain_A_B None (∅ : RTCStatsReport))) = 2%nat)
      by (vm_compute; reflexivity).
    split; [exact Hsize1 |]. split; [exact Hsize2 |].
    intros [Hs _]. rewrite Hsize1, Hsize2 in Hs. vm_compute in Hs.
    discriminate.
Qed.

(** ** The collector: requests, merging, delivery *)

(** How [AddPartialResults_s] merges the report at [partial_report] into
    the accumulator: the first report becomes the accumulator; a later one
    is emptied into it.  [accumulator] is where the accumulator is after the
    merge and [store] what the report objects are then. *)
Inductive merges (w : World) (partial_report : ReportPtr)
  : ReportPtr -> gmap ReportPtr RTCStatsReport -> Prop :=
| merges_first :
    partial_report_ (this w) = None ->
    merges w partial_report partial_report (reports w)
| merges_later accumulator (receiver victim : RTCStatsReport) :
    partial_report_ (this w) = Some accumulator ->
    reports w !! accumulator = Some receiver ->
    reports w !! partial_report = Some victim ->
    receiver ##ₘ victim ->
    merges w partial_report accumulator
      (<[partial_report := ∅]>
         (<[accumulator := receiver ∪ victim]> (reports w))).

(** The world after a contribution that leaves others pending. *)
Definition still_pending (w : World) (accumulator : ReportPtr)
    (store : gmap ReportPtr RTCStatsReport) : World :=
  {| this :=
       set_num_pending_partial_reports_
         (num_pending_partial_reports_ (this w) - 1)
         (set_partial_report_ (Some accumulator) (this w));
     reports := store;
     delivered := delivered w |}.

(** The world after the contribution that was the last one pending. *)
Definition cycle_completed (w : World) (accumulator : ReportPtr)
    (store : gmap ReportPtr RTCStatsReport) : World :=
  {| this :=
       set_callbacks_ []
         (set_partial_report_ None
            (set_cached_report_ (Some accumulator)
               (set_cache_timestamp_us_ (partial_report_timestamp_us_ (this w))
                  (set_num_pending_partial_reports_ 0 (this w)))));
     reports := store;
     delivered :=
       delivered w ++
       ((fun callback => (callback, accumulator)) <$> callbacks_ (this w)) |}.

Lemma bool_decide_nil_false {A} `{EqDecision A} (l : list A) :
  l ≠ [] -> bool_decide (l = []) = false.
Proof. intros H. by apply bool_decide_eq_false_2. Qed.

Lemma AddPartialResults_s_continues (w : World) partial_report accumulator store :
  1 < num_pending_partial_reports_ (this w) ->
  merges w partial_report accumulator store ->
  AddPartialResults_s (signaling_thread_ (this w)) partial_report w
  = Some (still_pending w accumulator store).
Proof.
  intros Hn Hm. unfold AddPartialResults_s. rewrite IsCurrent_refl.
  replace (0 <? _) with true by (symmetry; apply Z.ltb_lt; lia).
  destruct Hm as [Hacc | a receiver victim Hacc Hr Hv Hdisj]; rewrite Hacc.
  - simpl.
    replace (_ =? 0) with false by (symmetry; apply Z.eqb_neq; lia).
    reflexivity.
  - rewrite Hr, Hv. simpl. unfold TakeMembersFrom.
    rewrite decide_True by done. simpl.
    replace (_ =? 0) with false by (symmetry; apply Z.eqb_neq; lia).
    destruct w as [[] ? ?]. simpl in *. by subst.
Qed.

Lemma AddPartialResults_s_completes (w : World) partial_report accumulator store :
  num_pending_partial_reports_ (this w) = 1 ->
  callbacks_ (this w) ≠ [] ->
  merges w partial_report accumulator store ->
  AddPartialResults_s (signaling_thread_ (this w)) partial_report w
  = Some (cycle_completed w accumulator store).
Proof.
  intros Hn Hcb Hm. unfold AddPartialResults_s. rewrite IsCurrent_refl.
  rewrite Hn.
  destruct Hm as [Hacc | a receiver victim Hacc Hr Hv Hdisj]; rewrite Hacc.
  - simpl. rewrite Hn. simpl. unfold DeliverCachedReport. simpl.
    rewrite IsCurrent_refl. simpl.
    rewrite (bool_decide_nil_false _ Hcb). simpl.
    unfold cycle_completed. destruct w as [[] ? ?]. simpl in *. by subst.
  - rewrite Hr, Hv. simpl. unfold TakeMembersFrom.
    rewrite decide_True by done. simpl. rewrite Hn. simpl.
    unfold DeliverCachedReport. simpl. rewrite IsCurrent_refl. simpl.
    rewrite (bool_decide_nil_false _ Hcb). simpl. rewrite Hacc. simpl.
    unfold cycle_completed. destruct w as [[] ? ?]. simpl in *. by subst.
Qed.

(** Whenever [AddPartialResults_s] returns, it has done one of the two. *)
Lemma AddPartialResults_s_inv cur (w w' : World) partial_report :
  AddPartialResults_s cur partial_report w = Some w' ->
  cur = signaling_thread_ (this w) ∧
  0 < num_pending_partial_reports_ (this w) ∧
  ∃ accumulator store,
    merges w partial_report accumulator store ∧
    ((1 < num_pending_partial_reports_ (this w) ∧
      w' = still_pending w accumulator store) ∨
     (num_pending_partial_reports_ (this w) = 1 ∧
      callbacks_ (this w) ≠ [] ∧
      w' = cycle_completed w accumulator store)).
Proof.
  intros H.
  assert (Hcur : cur = signaling_thread_ (this w)).
  { unfold AddPartialResults_s in H.
    destruct (IsCurrent _ cur) eqn:E; [by apply IsCurrent_true | done]. }
  subst cur.
  assert (Hpos : 0 < num_pending_partial_reports_ (this w)).
  { unfold AddPartialResults_s in H. rewrite IsCurrent_refl in H. simpl in H.
    destruct (0 <? _) eqn:E; [by apply Z.ltb_lt | done]. }
  split; [done |]. split; [done |].
  assert (Hm : ∃ accumulator store, merges w partial_report accumulator store).
  { unfold AddPartialResults_s in H. rewrite IsCurrent_refl in H. simpl in H.
    replace (0 <? _) with true in H by (symmetry; by apply Z.ltb_lt).
    simpl in H.
    destruct (partial_report_ (this w)) as [a|] eqn:Hacc.
    - destruct (reports w !! a) as [receiver|] eqn:Hr; [| done].
      destruct (reports w !! partial_report) as [victim|] eqn:Hv; [| done].
      simpl in H. unfold TakeMembersFrom in H.
      destruct (decide (receiver ##ₘ victim)); [| done].
      eexists _, _. by eapply merges_later.
    - eexists _, _. by apply merges_first. }
  destruct Hm as (accumulator & store & Hm). exists accumulator, store.
  split; [done |].
  destruct (decide (num_pending_partial_reports_ (this w) = 1)) as [Hn | Hn].
  - right. split; [done |].
    destruct (decide (callbacks_ (this w) = [])) as [Hcb | Hcb].
    + exfalso. revert H. unfold AddPartialResults_s.
      rewrite IsCurrent_refl. rewrite Hn.
      destruct Hm as [Hacc | a receiver victim Hacc Hr Hv Hdisj];
        rewrite Hacc.
      * simpl. rewrite Hn. simpl. unfold DeliverCachedReport. simpl.
        rewrite IsCurrent_refl, Hcb. done.
      * rewrite Hr, Hv. simpl. unfold TakeMembersFrom.
        rewrite decide_True by done. simpl. rewrite Hn. simpl.
        unfold DeliverCachedReport. simpl. rewrite IsCurrent_refl, Hcb. done.
    + split; [done |].
      rewrite (AddPartialResults_s_completes w _ _ _ Hn Hcb Hm) in H.
      by injection H.
  - left. assert (1 < num_pending_partial_reports_ (this w)) by lia.
    split; [done |].
    rewrite (AddPartialResults_s_continues w _ _ _ H0 Hm) in H.
    by injection H.
Qed.

Lemma cache_is_fresh_true (c : RTCStatsCollector) cache_now_us cached :
  cached_report_ c = Some cached ->
  cache_now_us - cache_timestamp_us_ c <= cache_lifetime_us_ c ->
  cache_is_fresh c cache_now_us = true.
Proof.
  intros Hc Hle. unfold cache_is_fresh. rewrite Hc.
  rewrite bool_decide_eq_true_2 by eauto. simpl. by apply Z.leb_le.
Qed.

Lemma cache_is_fresh_false (c : RTCStatsCollector) cache_now_us :
  cached_report_ c = None ∨
  cache_lifetime_us_ c < cache_now_us - cache_timestamp_us_ c ->
  cache_is_fresh c cache_now_us = false.
Proof.
  unfold cache_is_fresh. intros [Hc | Hlt].
  - rewrite Hc. rewrite bool_decide_eq_false_2; [done |]. by intros [x Hx].
  - apply andb_false_iff. right. apply Z.leb_gt. lia.
Qed.

(** C2.  A request that finds a cached report whose age, by the monotonic
    clock, is within the lifetime: every queued callback, the new one
    included, is given the cached report itself (the address in
    [cached_report_]; the report objects are as before, nothing is copied or
    made), the queue is empty afterwards, and nothing else of the collector
    changes; in particular nothing is posted to any thread. *)
Theorem cache_hit_delivers_cached (w : World) callback cache_now_us
    timestamp_us cached :
  cached_report_ (this w) = Some cached ->
  cache_now_us - cache_timestamp_us_ (this w) <= cache_lifetime_us_ (this w) ->
  GetStatsReport (signaling_thread_ (this w)) callback cache_now_us
    timestamp_us w
  = Some {| this := set_callbacks_ [] (this w);
            reports := reports w;
            delivered :=
              delivered w ++
              ((fun cb => (cb, cached)) <$> (callbacks_ (this w) ++ [callback]))
         |}.
Proof.
  intros Hc Hle. unfold GetStatsReport. rewrite IsCurrent_refl. simpl.
  rewrite (cache_is_fresh_true _ _ cached) by done.
  unfold DeliverCachedReport. simpl. rewrite IsCurrent_refl. simpl.
  rewrite bool_decide_nil_false by (by destruct (callbacks_ (this w))).
  simpl. by rewrite Hc.
Qed.

(** A collector that holds the report at address 0 in its cache, taken at
    time 1000, and has one callback queued. *)
Definition cached_world : World :=
  {| this :=
       set_callbacks_ [11%nat]
         (set_cached_report_ (Some 0%nat)
            (set_cache_timestamp_us_ 1000 example_collector));
     reports := {[0%nat := {["RTCPeerConnection" := summary_of 0 0]}]};
     delivered := [] |}.

Lemma cache_hit_delivers_cached_witness :
  cached_report_ (this cached_world) = Some 0%nat ∧
  30000 - cache_timestamp_us_ (this cached_world)
    <= cache_lifetime_us_ (this cached_world) ∧
  GetStatsReport 1%nat 12%nat 30000 99 cached_world
  = Some {| this := set_callbacks_ [] (this cached_world);
            reports := reports cached_world;
            delivered := [(11%nat, 0%nat); (12%nat, 0%nat)] |}.
Proof.
  split; [reflexivity |]. split; [by vm_compute |].
  exact (cache_hit_delivers_cached cached_world 12%nat 30000 99 0%nat eq_refl
           ltac:(by vm_compute)).
Defined.

(** C3.  A contribution while contributions are pending is merged into the
    accumulator ([merges]).  When it was the last one pending, the cache
    timestamp becomes the monotonic time taken when the cycle was started,
    the accumulator becomes the cached report and is cleared, every queued
    callback is given that report and the queue is emptied.  When others are
    still pending, the count goes down by one, the accumulator is the merged
    report, and the cache, its timestamp, the queue, the deliveries and what
    is posted stay as they were. *)
Theorem contribution_merges_then_publishes (w : World) partial_report
    accumulator store :
  0 < num_pending_partial_reports_ (this w) ->
  merges w partial_report accumulator store ->
  (num_pending_partial_reports_ (this w) = 1 ->
   callbacks_ (this w) ≠ [] ->
   ∃ w',
     AddPartialResults_s (signaling_thread_ (this w)) partial_report w
       = Some w' ∧
     num_pending_partial_reports_ (this w') = 0 ∧
     cache_timestamp_us_ (this w') = partial_report_timestamp_us_ (this w) ∧
     cached_report_ (this w') = Some accumulator ∧
     partial_report_ (this w') = None ∧
     reports w' = store ∧
     delivered w'
       = delivered w ++
         ((fun callback => (callback, accumulator)) <$> callbacks_ (this w)) ∧
     callbacks_ (this w') = [] ∧
     invoker_ (this w') = invoker_ (this w) ∧
     partial_report_timestamp_us_ (this w')
       = partial_report_timestamp_us_ (this w) ∧
     cache_lifetime_us_ (this w') = cache_lifetime_us_ (this w)) ∧
  (1 < num_pending_partial_reports_ (this w) ->
   ∃ w',
     AddPartialResults_s (signaling_thread_ (this w)) partial_report w
       = Some w' ∧
     num_pending_partial_reports_ (this w')
       = num_pending_partial_reports_ (this w) - 1 ∧
     partial_report_ (this w') = Some accumulator ∧
     reports w' = store ∧
     cache_timestamp_us_ (this w') = cache_timestamp_us_ (this w) ∧
     cached_report_ (this w') = cached_report_ (this w) ∧
     delivered w' = delivered w ∧
     callbacks_ (this w') = callbacks_ (this w) ∧
     invoker_ (this w') = invoker_ (this w) ∧
     partial_report_timestamp_us_ (this w')
       = partial_report_timestamp_us_ (this w) ∧
     cache_lifetime_us_ (this w') = cache_lifetime_us_ (this w)).
Proof.
  intros Hpos Hm. split.
  - intros Hn Hcb. exists (cycle_completed w accumulator store).
    split; [by apply AddPartialResults_s_completes |]. done.
  - intros Hn. exists (still_pending w accumulator store).
    split; [by apply AddPartialResults_s_continues |]. done.
Qed.

(** The last of three contributions arrives: the accumulator is the report
    at address 0, and the report at address 2 is empty. *)
Definition last_pending_world : World :=
  {| this :=
       set_callbacks_ [11%nat; 12%nat]
         (set_partial_report_ (Some 0%nat)
            (set_partial_report_timestamp_us_ 5000
               (set_num_pending_partial_reports_ 1 example_collector)));
     reports :=
       <[2%nat := ∅]>
         {[0%nat := {["RTCPeerConnection" := summary_of 0 0]}]};
     delivered := [] |}.

Lemma last_pending_world_merges :
  merges last_pending_world 2%nat 0%nat
    (<[2%nat := ∅]>
       (<[0%nat := {["RTCPeerConnection" := summary_of 0 0]} ∪ ∅]>
          (reports last_pending_world))).
Proof.
  apply merges_later; [reflexivity | reflexivity | reflexivity |].
  apply map_disjoint_empty_r.
Qed.

Lemma contribution_merges_then_publishes_witness :
  ∃ w',
    AddPartialResults_s 1%nat 2%nat last_pending_world = Some w' ∧
    cache_timestamp_us_ (this w') = 5000 ∧
    cached_report_ (this w') = Some 0%nat ∧
    partial_report_ (this w') = None ∧
    delivered w' = [(11%nat, 0%nat); (12%nat, 0%nat)] ∧
    callbacks_ (this w') = [].
Proof.
  destruct (contribution_merges_then_publishes last_pending_world 2%nat 0%nat _
              ltac:(by vm_compute) last_pending_world_merges) as [H _].
  destruct (H eq_refl ltac:(done))
    as (w' & Hrun & _ & Hts & Hc & Hp & _ & Hd & Hcb & _).
  exists w'. by repeat split.
Defined.

(** *** What a posted invocation does when it runs *)

(** The partial report of the signaling thread: the content of the report
    that [ProducePartialResultsOnSignalingThread] hands to
    [AddPartialResults]. *)
Definition signaling_partial (K : cricket.Constants) (c : RTCStatsCollector)
    (cur : Thread) (pc : PeerConnection) (timestamp_us : Z)
  : option RTCStatsReport :=
  content ←
    match GetTransportStats (session pc) with
    | Some session_stats =>
        content ← ProduceCertificateStats_s c cur pc timestamp_us
                    session_stats ∅;
        ProduceIceCandidateAndPairStats_s K c cur timestamp_us
          session_stats content
    | None => Some ∅
    end;
  ProducePeerConnectionStats_s c cur pc timestamp_us content.

(** The report a task brings to the merge, and the report objects when it
    does: a task that produces brings a new report, at an address that was
    not in use; a posted [AddPartialResults_s] brings the report it was
    bound to. *)
Inductive brings (K : cricket.Constants) (cur : Thread) (pc : PeerConnection)
    (w : World)
  : Task -> ReportPtr -> gmap ReportPtr RTCStatsReport -> Prop :=
| brings_signaling timestamp_us content :
    cur = signaling_thread_ (this w) ->
    signaling_partial K (this w) cur pc timestamp_us = Some content ->
    brings K cur pc w (Bind_ProducePartialResultsOnSignalingThread timestamp_us)
      (fresh (dom (reports w)))
      (<[fresh (dom (reports w)) := content]> (reports w))
| brings_worker timestamp_us :
    brings K cur pc w (Bind_ProducePartialResultsOnWorkerThread timestamp_us)
      (fresh (dom (reports w)))
      (<[fresh (dom (reports w)) := ∅]> (reports w))
| brings_network timestamp_us :
    brings K cur pc w (Bind_ProducePartialResultsOnNetworkThread timestamp_us)
      (fresh (dom (reports w)))
      (<[fresh (dom (reports w)) := ∅]> (reports w))
| brings_posted partial_report :
    brings K cur pc w (Bind_AddPartialResults_s partial_report)
      partial_report (reports w).

Lemma ProducePartialResultsOnSignalingThread_eq K cur pc timestamp_us
    (w : World) :
  ProducePartialResultsOnSignalingThread K cur pc timestamp_us w
  = (RTC_DCHECK (IsCurrent (signaling_thread_ (this w)) cur);;
     content ← signaling_partial K (this w) cur pc timestamp_us;
     AddPartialResults cur (fresh (dom (reports w)))
       (set_reports (<[fresh (dom (reports w)) := content]> (reports w)) w)).
Proof.
  unfold ProducePartialResultsOnSignalingThread, signaling_partial,
    RTCStatsReport_Create.
  cbn [this reports set_reports delivered].
  destruct (RTC_DCHECK _); [| done]. cbn [mbind option_bind].
  destruct (GetTransportStats (session pc)) as [ss|].
  - destruct (ProduceCertificateStats_s (this w) cur pc timestamp_us ss ∅);
      [| done]. cbn [mbind option_bind].
    destruct (ProduceIceCandidateAndPairStats_s K (this w) cur timestamp_us ss _);
      [| done]. cbn [mbind option_bind].
    destruct (ProducePeerConnectionStats_s (this w) cur pc timestamp_us _);
      [| done]. cbn [mbind option_bind].
    by rewrite insert_insert_eq.
  - cbn [mbind option_bind].
    destruct (ProducePeerConnectionStats_s (this w) cur pc timestamp_us _);
      [| done]. cbn [mbind option_bind].
    by rewrite insert_insert_eq.
Qed.

(** A task that returns has either merged what it brings, on the signaling
    thread, or, on another thread, posted the merge to the signaling
    thread. *)
Lemma run_Task_inv K cur pc task (w w1 : World) :
  run_Task K cur pc task w = Some w1 ->
  ∃ partial_report store,
    brings K cur pc w task partial_report store ∧
    (AddPartialResults_s cur partial_report (set_reports store w) = Some w1 ∨
     (cur ≠ signaling_thread_ (this w) ∧
      w1 = upd_this (fun c =>
             set_invoker_
               (invoker_ c ++
                [(signaling_thread_ c, Bind_AddPartialResults_s partial_report)])
               c) (set_reports store w))).
Proof.
  assert (Hadd : ∀ p store,
    AddPartialResults cur p (set_reports store w) = Some w1 ->
    AddPartialResults_s cur p (set_reports store w) = Some w1 ∨
    (cur ≠ signaling_thread_ (this w) ∧
     w1 = upd_this (fun c =>
            set_invoker_
              (invoker_ c ++ [(signaling_thread_ c, Bind_AddPartialResults_s p)])
              c) (set_reports store w))).
  { intros p store. unfold AddPartialResults. simpl.
    destruct (IsCurrent (signaling_thread_ (this w)) cur) eqn:E; simpl.
    - by left.
    - intros [= <-]. right. split; [| done].
      intros ->. by rewrite IsCurrent_refl in E. }
  destruct task as [ts | ts | ts | p]; simpl.
  - rewrite ProducePartialResultsOnSignalingThread_eq.
    destruct (IsCurrent (signaling_thread_ (this w)) cur) eqn:E; [| done].
    apply IsCurrent_true in E. simpl.
    destruct (signaling_partial K (this w) cur pc ts) as [content|] eqn:Hc;
      [| done].
    simpl. intros H. eexists _, _. split; [| by apply Hadd].
    by apply brings_signaling.
  - unfold ProducePartialResultsOnWorkerThread.
    destruct (RTC_DCHECK _); [| done]. simpl.
    intros H. eexists _, _. split; [apply brings_worker | by apply Hadd].
  - unfold ProducePartialResultsOnNetworkThread.
    destruct (RTC_DCHECK _); [| done]. simpl.
    intros H. eexists _, _. split; [apply brings_network | by apply Hadd].
  - intros H. eexists _, _. split; [apply brings_posted |].
    left. by destruct w.
Qed.

(** *** A cycle in flight *)

(** The rest of a cycle: from a world in which contributions are pending,
    what can happen while they are: a request that finds no fresh cached
    report, a call of [ClearCachedStatsReport], a posted invocation that
    runs.  The list is the callbacks of the requests, in their order. *)
Inductive rest_of_cycle (K : cricket.Constants)
  : World -> list Callback -> World -> Prop :=
| cycle_here w : rest_of_cycle K w [] w
| cycle_request w cur callback cache_now_us timestamp_us w1 queued w2 :
    0 < num_pending_partial_reports_ (this w) ->
    (cached_report_ (this w) = None ∨
     cache_lifetime_us_ (this w)
       < cache_now_us - cache_timestamp_us_ (this w)) ->
    GetStatsReport cur callback cache_now_us timestamp_us w = Some w1 ->
    rest_of_cycle K w1 queued w2 ->
    rest_of_cycle K w (callback :: queued) w2
| cycle_clear w cur w1 queued w2 :
    0 < num_pending_partial_reports_ (this w) ->
    ClearCachedStatsReport cur w = Some w1 ->
    rest_of_cycle K w1 queued w2 ->
    rest_of_cycle K w queued w2
| cycle_invoked w i pc w1 queued w2 :
    0 < num_pending_partial_reports_ (this w) ->
    step K (run_invoked i pc) w = Some w1 ->
    rest_of_cycle K w1 queued w2 ->
    rest_of_cycle K w queued w2.

Lemma cache_is_fresh_set_callbacks_ v (c : RTCStatsCollector) cache_now_us :
  cache_is_fresh (set_callbacks_ v c) cache_now_us
  = cache_is_fresh c cache_now_us.
Proof. reflexivity. Qed.

Lemma GetStatsReport_in_flight (w : World) callback cache_now_us timestamp_us :
  0 < num_pending_partial_reports_ (this w) ->
  (cached_report_ (this w) = None ∨
   cache_lifetime_us_ (this w) < cache_now_us - cache_timestamp_us_ (this w)) ->
  GetStatsReport (signaling_thread_ (this w)) callback cache_now_us
    timestamp_us w
  = Some {| this := set_callbacks_ (callbacks_ (this w) ++ [callback]) (this w);
            reports := reports w;
            delivered := delivered w |}.
Proof.
  intros Hpos Hstale. unfold GetStatsReport. rewrite IsCurrent_refl. simpl.
  rewrite cache_is_fresh_set_callbacks_.
  rewrite (cache_is_fresh_false (this w) cache_now_us Hstale).
  replace (_ =? 0) with false by (symmetry; apply Z.eqb_neq; lia).
  reflexivity.
Qed.

Lemma GetStatsReport_on_signaling cur callback cache_now_us timestamp_us
    (w w1 : World) :
  GetStatsReport cur callback cache_now_us timestamp_us w = Some w1 ->
  cur = signaling_thread_ (this w).
Proof.
  unfold GetStatsReport.
  destruct (IsCurrent _ cur) eqn:E; [by apply IsCurrent_true in E | done].
Qed.

(** A posted invocation that runs while contributions are pending either
    leaves the queue and the deliveries alone, with contributions still
    pending, or is the last contribution and gives the report it caches to
    every queued callback. *)
Lemma run_invoked_in_flight K i pc (w w1 : World) :
  0 < num_pending_partial_reports_ (this w) ->
  step K (run_invoked i pc) w = Some w1 ->
  (0 < num_pending_partial_reports_ (this w1) ∧
   callbacks_ (this w1) = callbacks_ (this w) ∧
   delivered w1 = delivered w) ∨
  (num_pending_partial_reports_ (this w1) = 0 ∧
   ∃ report,
     cached_report_ (this w1) = Some report ∧
     delivered w1
     = delivered w ++ ((fun cb => (cb, report)) <$> callbacks_ (this w))).
Proof.
  intros Hpos. simpl.
  destruct (invoker_ (this w) !! i) as [[thread task]|]; [| done]. simpl.
  intros H. apply run_Task_inv in H as (p & store & _ & [H | [_ ->]]).
  - apply AddPartialResults_s_inv in H
      as (_ & _ & acc & store' & _ & [[Hn ->] | (Hn & _ & ->)]).
    + left. simpl in *. split; [lia | done].
    + right. simpl. split; [done |]. by exists acc.
  - left. by simpl.
Qed.

Lemma rest_of_cycle_delivers K (w : World) queued (w' : World) :
  rest_of_cycle K w queued w' ->
  0 < num_pending_partial_reports_ (this w) ->
  num_pending_partial_reports_ (this w') = 0 ->
  ∃ report,
    cached_report_ (this w') = Some report ∧
    delivered w'
    = delivered w ++ ((fun cb => (cb, report)) <$> (callbacks_ (this w) ++ queued)).
Proof.
  induction 1 as [w | w cur cb now ts w1 queued w2 Hpos Hstale Hreq Hrest IH
                  | w cur w1 queued w2 Hpos Hclear Hrest IH
                  | w i pc w1 queued w2 Hpos Hstep Hrest IH]; intros Hw Hw'.
  - lia.
  - pose proof (GetStatsReport_on_signaling _ _ _ _ _ _ Hreq) as ->.
    rewrite GetStatsReport_in_flight in Hreq by done.
    injection Hreq as <-. simpl in IH.
    destruct (IH Hw Hw') as (report & Hc & Hd).
    exists report. split; [done |]. by rewrite Hd, <- (assoc_L (++)).
  - unfold ClearCachedStatsReport in Hclear.
    destruct (RTC_DCHECK _); [| done]. injection Hclear as <-.
    apply IH; done.
  - destruct (run_invoked_in_flight K i pc w w1 Hpos Hstep)
      as [(Hpos1 & Hcb & Hd) | (Hzero & report & Hc & Hd)].
    + destruct (IH Hpos1 Hw') as (report & Hc' & Hd').
      exists report. by rewrite Hd', Hcb, Hd.
    + assert (Hend : w2 = w1 ∧ queued = []).
      { inversion Hrest; subst; (done || lia). }
      destruct Hend as [-> ->]. exists report.
      by rewrite app_nil_r.
Qed.

(** C1.  While contributions are pending and the cached report is absent
    or too old, a request only puts its callback at the end of the queue:
    nothing is posted and nothing else changes.  And when the cycle that
    was in flight completes, every callback that was queued then and every
    callback queued since has been given one and the same report, the one
    that the cache now holds. *)
Theorem single_flight (K : cricket.Constants) :
  (∀ (w : World) callback cache_now_us timestamp_us,
     0 < num_pending_partial_reports_ (this w) ->
     (cached_report_ (this w) = None ∨
      cache_lifetime_us_ (this w)
        < cache_now_us - cache_timestamp_us_ (this w)) ->
     GetStatsReport (signaling_thread_ (this w)) callback cache_now_us
       timestamp_us w
     = Some {| this :=
                 set_callbacks_ (callbacks_ (this w) ++ [callback]) (this w);
               reports := reports w;
               delivered := delivered w |}) ∧
  (∀ (w : World) queued (w' : World),
     0 < num_pending_partial_reports_ (this w) ->
     rest_of_cycle K w queued w' ->
     num_pending_partial_reports_ (this w') = 0 ->
     ∃ report,
       cached_report_ (this w') = Some report ∧
       delivered w'
       = delivered w ++
         ((fun cb => (cb, report)) <$> (callbacks_ (this w) ++ queued))).
Proof.
  split.
  - intros. by apply GetStatsReport_in_flight.
  - intros w queued w' Hpos Hrest Hzero.
    by apply (rest_of_cycle_delivers K w queued w').
Qed.

(** A collector right after the request that started a cycle: callback 11
    is queued and the three tasks are posted. *)
Definition in_flight_world : World :=
  {| this :=
       set_callbacks_ [11%nat]
         (set_invoker_
            [(1%nat, Bind_ProducePartialResultsOnSignalingThread 99);
             (2%nat, Bind_ProducePartialResultsOnWorkerThread 99);
             (3%nat, Bind_ProducePartialResultsOnNetworkThread 99)]
            (set_partial_report_timestamp_us_ 100
               (set_num_pending_partial_reports_ 3 example_collector)));
     reports := ∅;
     delivered := [] |}.

Lemma started_cycle :
  GetStatsReport 1%nat 11%nat 100 99 (new_World example_collector)
  = Some in_flight_world.
Proof. reflexivity. Qed.

(** The rest of that cycle: a second request, then the three tasks, then
    the two merges that the worker and the network thread posted. *)
Lemma in_flight_world_rest :
  ∃ w',
    rest_of_cycle webrtc_constants in_flight_world [12%nat] w' ∧
    num_pending_partial_reports_ (this w') = 0.
Proof.
  eexists. split.
  - eapply (cycle_request _ _ 1%nat 12%nat 200 199);
      [by vm_compute | by left | vm_compute; reflexivity |].
    do 5 (eapply (cycle_invoked _ _ 0%nat no_channels);
          [by vm_compute | vm_compute; reflexivity |]).
    apply cycle_here.
  - vm_compute. reflexivity.
Qed.

Lemma single_flight_witness :
  ∃ w' report,
    rest_of_cycle webrtc_constants in_flight_world [12%nat] w' ∧
    cached_report_ (this w') = Some report ∧
    delivered w' = [(11%nat, report); (12%nat, report)].
Proof.
  destruct in_flight_world_rest as (w' & Hrest & Hzero).
  destruct (single_flight webrtc_constants) as [_ H].
  destruct (H in_flight_world [12%nat] w' ltac:(by vm_compute) Hrest Hzero)
    as (report & Hc & Hd).
  exists w', report. split; [exact Hrest |]. split; [exact Hc | exact Hd].
Defined.

(** ** The peer connection summary in every published report *)

(** A report has no object of the summary's class; a report has one, under
    the constant id. *)
Definition no_summary (report : RTCStatsReport) : Prop :=
  ∀ k stats, report !! k = Some stats ->
             RTCStats.type stats ≠ RTCPeerConnectionStats_kType.

Definition one_summary (report : RTCStatsReport) : Prop :=
  (∃ stats,
     report !! "RTCPeerConnection" = Some stats ∧
     RTCStats.id stats = "RTCPeerConnection" ∧
     RTCStats.type stats = RTCPeerConnectionStats_kType) ∧
  ∀ k stats, report !! k = Some stats ->
             RTCStats.type stats = RTCPeerConnectionStats_kType ->
             k = "RTCPeerConnection".

Lemma no_summary_empty : no_summary ∅.
Proof. intros k stats. by rewrite lookup_empty. Qed.

Lemma one_summary_not_empty : ¬ one_summary ∅.
Proof. intros [(stats & H & _) _]. by rewrite lookup_empty in H. Qed.

Lemma no_summary_insert (stats : RTCStats.t) k (report : RTCStatsReport) :
  RTCStats.type stats ≠ RTCPeerConnectionStats_kType ->
  no_summary report -> no_summary (<[k := stats]> report).
Proof.
  intros Hty Hno k' s. rewrite lookup_insert.
  case_decide; [by intros [= <-] | apply Hno].
Qed.

Lemma set_issuer_certificate_id_type v (stats : RTCStats.t) :
  RTCStats.type (set_issuer_certificate_id v stats) = RTCStats.type stats.
Proof.
  by destruct stats as [id timestamp_us []].
Qed.

Lemma chain_turn_no_summary timestamp_us s prev_stats (report : RTCStatsReport) :
  no_summary report ->
  no_summary (chain_turn timestamp_us s prev_stats report).2.
Proof.
  intros Hno. unfold chain_turn, AddStats. simpl.
  apply no_summary_insert; [done |].
  destruct prev_stats as [prev|]; [| done].
  intros k stats. rewrite lookup_alter.
  case_decide as Hk; [subst k | apply Hno].
  destruct (report !! prev) as [s0|] eqn:E; [| done]. simpl. intros [= <-].
  rewrite set_issuer_certificate_id_type. by eapply Hno.
Qed.

Lemma chain_turns_no_summary timestamp_us nodes :
  ∀ prev_stats (report : RTCStatsReport),
    no_summary report ->
    no_summary (chain_turns timestamp_us nodes prev_stats report).2.
Proof.
  induction nodes as [|s rest IH]; intros prev_stats report Hno; [done |].
  rewrite chain_turns_cons. by apply IH, chain_turn_no_summary.
Qed.

Lemma certificate_chain_no_summary c cur timestamp_us certificate
    (report report' : RTCStatsReport) :
  ProduceCertificateStatsFromSSLCertificateAndChain_s c cur timestamp_us
    certificate report = Some report' ->
  no_summary report -> no_summary report'.
Proof.
  unfold ProduceCertificateStatsFromSSLCertificateAndChain_s.
  destruct (RTC_DCHECK _); [| done]. simpl.
  destruct (rtc.GetStats certificate) as [s|]; intros [= <-]; [| done].
  rewrite chain_loop_turns. apply chain_turns_no_summary.
Qed.

Lemma ProduceCertificateStats_s_no_summary c cur pc timestamp_us session_stats
    (report report' : RTCStatsReport) :
  ProduceCertificateStats_s c cur pc timestamp_us session_stats report
    = Some report' ->
  no_summary report -> no_summary report'.
Proof.
  unfold ProduceCertificateStats_s.
  destruct (RTC_DCHECK _); [| done]. simpl. intros H Hno.
  revert H. apply for_each_invariant; [| done].
  intros [name transport] r r' _ Hr. simpl.
  destruct (GetLocalCertificate _ _) as [local|]; simpl.
  - destruct (ProduceCertificateStatsFromSSLCertificateAndChain_s c cur
                timestamp_us (rtc.ssl_certificate local) r) as [r1|] eqn:E1;
      [| done].
    simpl. apply certificate_chain_no_summary in E1; [| done].
    destruct (GetRemoteSSLCertificate _ _) as [remote|].
    + intros E2. by apply certificate_chain_no_summary in E2.
    + by intros [= <-].
  - destruct (GetRemoteSSLCertificate _ _) as [remote|].
    + intros E2. by apply certificate_chain_no_summary in E2.
    + by intros [= <-].
Qed.

Lemma ProduceIceCandidateStats_s_no_summary K c cur timestamp_us candidate
    is_local (report report' : RTCStatsReport) id :
  ProduceIceCandidateStats_s K c cur timestamp_us candidate is_local report
    = Some (id, report') ->
  no_summary report -> no_summary report'.
Proof.
  unfold ProduceIceCandidateStats_s, Get.
  destruct (RTC_DCHECK _); [| done]. simpl.
  destruct (report !! _) as [stats|]; simpl.
  - destruct (RTC_DCHECK _); [| done]. simpl. by intros [= _ <-].
  - destruct (CandidateTypeToRTCIceCandidateType K _) as [v|]; [| done]. simpl.
    destruct (RTC_DCHECK _); [| done]. simpl. intros [= _ <-] Hno.
    apply no_summary_insert; [by destruct is_local | done].
Qed.

Lemma ProduceIceCandidateAndPairStats_s_no_summary K c cur timestamp_us
    session_stats (report report' : RTCStatsReport) :
  ProduceIceCandidateAndPairStats_s K c cur timestamp_us session_stats report
    = Some report' ->
  no_summary report -> no_summary report'.
Proof.
  unfold ProduceIceCandidateAndPairStats_s.
  destruct (RTC_DCHECK _); [| done]. simpl. intros H Hno.
  revert H. apply for_each_invariant; [| done].
  intros transport r r' _ Hr. apply for_each_invariant; [| done].
  intros channel r0 r0' _ Hr0. apply for_each_invariant; [| done].
  intros info r1 r1' _ Hr1. unfold ProduceIceCandidateAndPairStats_info.
  destruct (ProduceIceCandidateStats_s K c cur timestamp_us
              (cricket.local_candidate info) true r1) as [[lid r2]|] eqn:E1;
    [| done].
  simpl. apply ProduceIceCandidateStats_s_no_summary in E1; [| done].
  destruct (ProduceIceCandidateStats_s K c cur timestamp_us
              (cricket.remote_candidate info) false r2) as [[rid r3]|] eqn:E2;
    [| done].
  simpl. apply ProduceIceCandidateStats_s_no_summary in E2; [| done].
  intros [= <-]. by apply no_summary_insert.
Qed.

Lemma ProducePeerConnectionStats_s_one_summary c cur pc timestamp_us
    (report report' : RTCStatsReport) :
  ProducePeerConnectionStats_s c cur pc timestamp_us report = Some report' ->
  no_summary report -> one_summary report'.
Proof.
  unfold ProducePeerConnectionStats_s, AddStats.
  destruct (RTC_DCHECK _); [| done]. simpl. intros [= <-] Hno. split.
  - eexists. by rewrite lookup_insert_eq.
  - intros k stats. rewrite lookup_insert.
    case_decide; [done |]. intros Hk Hty. by apply Hno in Hk.
Qed.

(** The partial report of the signaling thread has the summary whatever
    [GetTransportStats] answers. *)
Lemma signaling_partial_one_summary K c cur pc timestamp_us content :
  signaling_partial K c cur pc timestamp_us = Some content ->
  one_summary content.
Proof.
  unfold signaling_partial.
  destruct (GetTransportStats (session pc)) as [session_stats|].
  - destruct (ProduceCertificateStats_s c cur pc timestamp_us session_stats ∅)
      as [r1|] eqn:E1; [| done].
    cbn [mbind option_bind].
    destruct (ProduceIceCandidateAndPairStats_s K c cur timestamp_us
                session_stats r1) as [r2|] eqn:E2; [| done].
    cbn [mbind option_bind]. intros E3.
    apply ProduceCertificateStats_s_no_summary in E1;
      [| apply no_summary_empty].
    apply ProduceIceCandidateAndPairStats_s_no_summary in E2; [| done].
    by apply ProducePeerConnectionStats_s_one_summary in E3.
  - cbn [mbind option_bind]. intros E3.
    apply ProducePeerConnectionStats_s_one_summary in E3;
      [done | apply no_summary_empty].
Qed.

(** *** What holds of a collector in every world it can reach *)

(** The reports that have left the collector: the one in the cache and
    those given to callbacks. *)
Definition published (w : World) (report : ReportPtr) : Prop :=
  cached_report_ (this w) = Some report ∨ report ∈ (delivered w).*2.

(** Among the posted invocations: the timestamps of the tasks of the
    signaling thread, and the reports bound to posted merges. *)
Definition signaling_tasks (posted : list (Thread * Task)) : list Z :=
  omap (fun t => match t.2 with
                 | Bind_ProducePartialResultsOnSignalingThread timestamp_us =>
                     Some timestamp_us
                 | _ => None
                 end) posted.

Definition posted_reports (posted : list (Thread * Task)) : list ReportPtr :=
  omap (fun t => match t.2 with
                 | Bind_AddPartialResults_s partial_report => Some partial_report
                 | _ => None
                 end) posted.

Definition is_signaling_task (task : Task) : bool :=
  match task with
  | Bind_ProducePartialResultsOnSignalingThread _ => true
  | _ => false
  end.

(** The invariant.  As many contributions are pending as invocations are
    posted; at most one of them is the task of the signaling thread; while
    that task is still to come the accumulator is empty, and once it has
    run the accumulator has the summary; the reports bound to posted merges
    are empty and are not the accumulator; every published report has the
    summary and is neither the accumulator nor bound to a merge; and the
    cached report has been given to a callback. *)
Record collector_inv (w : World) : Prop := {
  inv_count :
    num_pending_partial_reports_ (this w)
    = Z.of_nat (length (invoker_ (this w)));
  inv_idle : invoker_ (this w) = [] -> partial_report_ (this w) = None;
  inv_signaling : (length (signaling_tasks (invoker_ (this w))) <= 1)%nat;
  inv_accumulator : ∀ a, partial_report_ (this w) = Some a ->
    ¬ published w a ∧
    ∃ r : RTCStatsReport, reports w !! a = Some r ∧
      (signaling_tasks (invoker_ (this w)) ≠ [] -> r = ∅) ∧
      (signaling_tasks (invoker_ (this w)) = [] -> one_summary r);
  inv_accumulator_some :
    invoker_ (this w) ≠ [] -> signaling_tasks (invoker_ (this w)) = [] ->
    is_Some (partial_report_ (this w));
  inv_posted : ∀ p, p ∈ posted_reports (invoker_ (this w)) ->
    reports w !! p = Some ∅ ∧ partial_report_ (this w) ≠ Some p;
  inv_posted_NoDup : NoDup (posted_reports (invoker_ (this w)));
  inv_published : ∀ p, published w p ->
    ∃ r : RTCStatsReport, reports w !! p = Some r ∧ one_summary r;
  inv_cached : ∀ p, cached_report_ (this w) = Some p -> p ∈ (delivered w).*2
}.

(** The same between the moment a task has made its report and the merge
    of that report: [p] is the report the task brings, [from_signaling]
    tells whether the task is the one of the signaling thread. *)
Record pre_merge (w : World) (p : ReportPtr) (from_signaling : bool) : Prop := {
  pm_count :
    num_pending_partial_reports_ (this w)
    = Z.of_nat (length (invoker_ (this w))) + 1;
  pm_signaling :
    (length (signaling_tasks (invoker_ (this w)))
     + (if from_signaling then 1 else 0) <= 1)%nat;
  pm_brought : ∃ content : RTCStatsReport, reports w !! p = Some content ∧
    if from_signaling then one_summary content else content = ∅;
  pm_brought_new :
    partial_report_ (this w) ≠ Some p ∧ ¬ published w p ∧
    p ∉ posted_reports (invoker_ (this w));
  pm_accumulator : ∀ a, partial_report_ (this w) = Some a ->
    ¬ published w a ∧
    ∃ r : RTCStatsReport, reports w !! a = Some r ∧
      (from_signaling = true ∨ signaling_tasks (invoker_ (this w)) ≠ [] ->
       r = ∅) ∧
      (from_signaling = false -> signaling_tasks (invoker_ (this w)) = [] ->
       one_summary r);
  pm_accumulator_some :
    from_signaling = false -> signaling_tasks (invoker_ (this w)) = [] ->
    is_Some (partial_report_ (this w));
  pm_posted : ∀ q, q ∈ posted_reports (invoker_ (this w)) ->
    reports w !! q = Some ∅ ∧ partial_report_ (this w) ≠ Some q;
  pm_posted_NoDup : NoDup (posted_reports (invoker_ (this w)));
  pm_published : ∀ q, published w q ->
    ∃ r : RTCStatsReport, reports w !! q = Some r ∧ one_summary r;
  pm_cached : ∀ q, cached_report_ (this w) = Some q -> q ∈ (delivered w).*2
}.

Lemma invoker_split (l : list (Thread * Task)) i x :
  l !! i = Some x ->
  l = take i l ++ x :: drop (S i) l ∧ delete i l = take i l ++ drop (S i) l.
Proof.
  intros H. split; [symmetry; by apply take_drop_middle | apply delete_take_drop].
Qed.

Lemma fresh_report_not_in (store : gmap ReportPtr RTCStatsReport) :
  store !! fresh (dom store) = None.
Proof. apply not_elem_of_dom, is_fresh. Qed.

(** From the invariant to the moment before the merge. *)
Lemma brings_pre_merge K thread pc (w : World) i task p store :
  collector_inv w ->
  invoker_ (this w) !! i = Some (thread, task) ->
  brings K thread pc
    (upd_this (fun c => set_invoker_ (delete i (invoker_ c)) c) w) task p store ->
  pre_merge
    (set_reports store
       (upd_this (fun c => set_invoker_ (delete i (invoker_ c)) c) w))
    p (is_signaling_task task) ∧
  (∀ q x, reports w !! q = Some x -> store !! q = Some x).
Proof.
  intros [Hcount Hidle Hsig Hacc Hsome Hposted Hnd Hpub Hcached] Hi Hb.
  destruct (invoker_split _ _ _ Hi) as [Hl Hdel].
  set (l1 := take i (invoker_ (this w))) in *.
  set (l2 := drop (S i) (invoker_ (this w))) in *.
  assert (Hlen : length (invoker_ (this w))
                 = S (length (l1 ++ l2))).
  { rewrite Hl at 1. rewrite !length_app. simpl. lia. }
  assert (Hsigs : signaling_tasks (invoker_ (this w))
                  = signaling_tasks l1 ++
                    (if is_signaling_task task
                     then match task with
                          | Bind_ProducePartialResultsOnSignalingThread ts => [ts]
                          | _ => []
                          end
                     else []) ++ signaling_tasks l2).
  { rewrite Hl at 1. unfold signaling_tasks. rewrite omap_app. simpl.
    by destruct task. }
  assert (Hposts : posted_reports (invoker_ (this w))
                   = posted_reports l1 ++
                     match task with
                     | Bind_AddPartialResults_s q => [q]
                     | _ => []
                     end ++ posted_reports l2).
  { rewrite Hl at 1. unfold posted_reports. rewrite omap_app. simpl.
    by destruct task. }
  assert (Hsigs' : signaling_tasks (l1 ++ l2)
                   = signaling_tasks l1 ++ signaling_tasks l2)
    by apply omap_app.
  assert (Hposts' : posted_reports (l1 ++ l2)
                    = posted_reports l1 ++ posted_reports l2)
    by apply omap_app.
  assert (Hsub : ∀ q, q ∈ posted_reports (l1 ++ l2) ->
                      q ∈ posted_reports (invoker_ (this w))).
  { intros q. rewrite Hposts', Hposts, !elem_of_app. tauto. }
  assert (Hnd' : NoDup (posted_reports (l1 ++ l2))).
  { rewrite Hposts'. rewrite Hposts in Hnd.
    apply NoDup_app in Hnd as (H1 & H2 & H3).
    apply NoDup_app in H3 as (_ & _ & H3).
    apply NoDup_app. split; [done |]. split; [| done].
    intros x Hx Hx2. apply (H2 x Hx). apply elem_of_app. by right. }
  assert (Hfresh_in : ∀ q x, reports w !! q = Some x ->
                             q ≠ fresh (dom (reports w))).
  { intros q x Hq ->. by rewrite fresh_report_not_in in Hq. }
  assert (Hpub_in : ∀ q, published w q -> q ≠ fresh (dom (reports w))).
  { intros q Hq. destruct (Hpub q Hq) as (r & Hr & _). by eapply Hfresh_in. }
  assert (Hnew : ∀ content from_signaling,
    is_signaling_task task = from_signaling ->
    (match task with Bind_AddPartialResults_s _ => False | _ => True end) ->
    (if from_signaling then one_summary content else content = ∅) ->
    pre_merge
      (set_reports (<[fresh (dom (reports w)) := content]> (reports w))
         (upd_this (fun c => set_invoker_ (delete i (invoker_ c)) c) w))
      (fresh (dom (reports w))) from_signaling).
  { intros content fs Hfs Hnotadd Hcontent. split; simpl; rewrite ?Hdel.
    - rewrite Hcount, Hlen. lia.
    - rewrite Hsigs, !length_app in Hsig. rewrite Hsigs', length_app.
      rewrite <- Hfs. destruct task; simpl in *; lia.
    - exists content. by rewrite lookup_insert_eq.
    - split; [| split].
      + intros Ha. destruct (Hacc _ Ha) as (_ & r & Hr & _).
        by eapply Hfresh_in.
      + intros Hp. by eapply Hpub_in.
      + intros Hin. destruct (Hposted _ (Hsub _ Hin)) as [Hr _].
        by eapply Hfresh_in.
    - intros a Ha. destruct (Hacc a Ha) as (Hnp & r & Hr & He & Ho).
      split; [done |]. exists r. split; [| split].
      + rewrite lookup_insert_ne; [done |]. intros E. by eapply Hfresh_in.
      + intros Hor. apply He. rewrite Hsigs.
        destruct Hor as [-> | Hne].
        * rewrite Hfs. destruct task; try done. simpl.
          by destruct (signaling_tasks l1).
        * rewrite Hsigs' in Hne.
          destruct (signaling_tasks l1); [| done]. simpl in *.
          by destruct (is_signaling_task task), task,
               (signaling_tasks l2).
      + intros -> Hnil. apply Ho. rewrite Hsigs, Hfs. simpl.
        by rewrite <- Hsigs'.
    - intros -> Hnil. apply Hsome.
      + rewrite Hl. by destruct l1.
      + rewrite Hsigs, Hfs. simpl. by rewrite <- Hsigs'.
    - intros q Hq. destruct (Hposted _ (Hsub _ Hq)) as [Hr Hne].
      split; [| done]. rewrite lookup_insert_ne; [done |].
      intros E. by eapply Hfresh_in.
    - done.
    - intros q Hq. destruct (Hpub q Hq) as (r & Hr & Hone).
      exists r. split; [| done]. rewrite lookup_insert_ne; [done |].
      intros E. by eapply Hfresh_in.
    - done. }
  assert (Hkeep : ∀ content q x, reports w !! q = Some x ->
            <[fresh (dom (reports w)) := content]> (reports w) !! q = Some x).
  { intros content q x Hq. rewrite lookup_insert_ne; [done |].
    intros E. by eapply Hfresh_in. }
  inversion Hb as [ts content Hcur Hpart | ts | ts | q]; subst; simpl in *.
  - split; [| by apply Hkeep]. apply Hnew; [done | done |].
    by eapply signaling_partial_one_summary.
  - split; [| by apply Hkeep]. by apply Hnew.
  - split; [| by apply Hkeep]. by apply Hnew.
  - split; [| done].
    assert (Hq : p ∈ posted_reports (invoker_ (this w))).
    { rewrite Hposts. apply elem_of_app. right. simpl. by left. }
    destruct (Hposted p Hq) as [Hr Hne].
    split; simpl; rewrite ?Hdel.
    + rewrite Hcount, Hlen. lia.
    + rewrite Hsigs, !length_app in Hsig. rewrite Hsigs', length_app.
      simpl in *. lia.
    + by exists ∅.
    + split; [done |]. split.
      * intros Hp. destruct (Hpub p Hp) as (r & Hr' & Hone).
        rewrite Hr in Hr'. injection Hr' as <-.
        by apply one_summary_not_empty in Hone.
      * rewrite Hposts'. rewrite Hposts in Hnd.
        apply NoDup_app in Hnd as (H1 & H2 & H3).
        simpl in H3. apply NoDup_cons in H3 as [H3 H4].
        rewrite elem_of_app. intros [Hin | Hin]; [| done].
        apply (H2 p Hin). by left.
    + intros a Ha. destruct (Hacc a Ha) as (Hnp & r & Hr' & He & Ho).
      split; [done |]. exists r. split; [done |]. split.
      * intros [? | Hne']; [done |]. apply He.
        by rewrite Hsigs, <- Hsigs'.
      * intros _ Hnil. apply Ho. by rewrite Hsigs, <- Hsigs'.
    + intros _ Hnil. apply Hsome.
      * rewrite Hl. by destruct l1.
      * by rewrite Hsigs, <- Hsigs'.
    + intros q' Hq'. by apply Hposted, Hsub.
    + done.
    + done.
    + done.
Qed.

Lemma signaling_tasks_snoc_posted (l : list (Thread * Task)) thread p :
  signaling_tasks (l ++ [(thread, Bind_AddPartialResults_s p)])
  = signaling_tasks l.
Proof. unfold signaling_tasks. rewrite omap_app. simpl. apply app_nil_r. Qed.

Lemma posted_reports_snoc_posted (l : list (Thread * Task)) thread p :
  posted_reports (l ++ [(thread, Bind_AddPartialResults_s p)])
  = posted_reports l ++ [p].
Proof. unfold posted_reports. by rewrite omap_app. Qed.

(** A thread other than the signaling thread posts the merge. *)
Lemma pre_merge_posted (w : World) p :
  pre_merge w p false ->
  collector_inv
    (upd_this (fun c =>
       set_invoker_
         (invoker_ c ++ [(signaling_thread_ c, Bind_AddPartialResults_s p)]) c)
       w).
Proof.
  intros [Hcount Hsig [content [Hp ->]] (Hne & Hnp & Hnin) Hacc Hsome Hposted
          Hnd Hpub Hcached].
  split; simpl.
  - rewrite Hcount, length_app. simpl. lia.
  - by destruct (invoker_ (this w)).
  - rewrite signaling_tasks_snoc_posted. lia.
  - intros a Ha. destruct (Hacc a Ha) as (Hnpa & r & Hr & He & Ho).
    split; [done |]. exists r. rewrite signaling_tasks_snoc_posted.
    split; [done |]. split; [intros ?; apply He; by right | by apply Ho].
  - rewrite signaling_tasks_snoc_posted. intros _. by apply Hsome.
  - intros q. rewrite posted_reports_snoc_posted, elem_of_app, list_elem_of_singleton.
    intros [Hq | ->]; [by apply Hposted | done].
  - rewrite posted_reports_snoc_posted. apply NoDup_app.
    split; [done |]. split; [| apply NoDup_singleton].
    intros x Hx Hx'. apply list_elem_of_singleton in Hx'. by subst.
  - done.
  - done.
Qed.

(** What the merge leaves: the accumulator is not published and is empty
    or has the summary as the invariant asks; the reports bound to posted
    merges are still empty and are not the accumulator; the published
    reports are as they were. *)
Lemma pre_merge_merged (w : World) p from_signaling accumulator store :
  pre_merge w p from_signaling ->
  merges w p accumulator store ->
  ¬ published w accumulator ∧
  (∃ r : RTCStatsReport, store !! accumulator = Some r ∧
     (signaling_tasks (invoker_ (this w)) ≠ [] -> r = ∅) ∧
     (signaling_tasks (invoker_ (this w)) = [] -> one_summary r)) ∧
  (∀ q, q ∈ posted_reports (invoker_ (this w)) ->
        store !! q = Some ∅ ∧ q ≠ accumulator) ∧
  (∀ q x, published w q -> reports w !! q = Some x -> store !! q = Some x).
Proof.
  intros [Hcount Hsig (content & Hp & Hcontent) (Hne & Hnp & Hnin) Hacc Hsome
          Hposted Hnd Hpub Hcached] Hm.
  assert (Hfs : signaling_tasks (invoker_ (this w)) ≠ [] ->
                from_signaling = false).
  { intros Hn. destruct from_signaling; [| done].
    destruct (signaling_tasks (invoker_ (this w))); [done |]. simpl in Hsig.
    lia. }
  destruct Hm as [Hnone | a receiver victim Ha Hr Hv Hdisj].
  - split; [done |]. split; [| split].
    + exists content. split; [done |]. split.
      * intros Hn. by rewrite (Hfs Hn) in Hcontent.
      * intros Hnil. destruct from_signaling; [done |].
        destruct (Hsome eq_refl Hnil) as [x Hx]. congruence.
    + intros q Hq. destruct (Hposted q Hq) as [Hq1 Hq2].
      split; [done |]. by intros ->.
    + done.
  - destruct (Hacc a Ha) as (Hnpa & r & Hr' & He & Ho).
    rewrite Hr in Hr'. injection Hr' as <-.
    rewrite Hp in Hv. injection Hv as <-.
    assert (Hpa : p ≠ a) by congruence.
    split; [done |]. split; [| split].
    + exists (receiver ∪ content).
      split; [by rewrite lookup_insert_ne, lookup_insert_eq |].
      split.
      * intros Hn. rewrite (Hfs Hn) in Hcontent. subst content.
        rewrite He by by right. by rewrite (left_id_L ∅ (∪)).
      * intros Hnil. destruct from_signaling.
        -- rewrite He by by left. by rewrite (left_id_L ∅ (∪)).
        -- subst content. rewrite (right_id_L ∅ (∪)). by apply Ho.
    + intros q Hq. destruct (Hposted q Hq) as [Hq1 Hq2].
      assert (q ≠ a) by congruence.
      assert (q ≠ p) by (by intros ->).
      split; [| done]. by rewrite !lookup_insert_ne.
    + intros q x Hq Hx.
      assert (q ≠ a) by (by intros ->).
      assert (q ≠ p) by (by intros ->).
      by rewrite !lookup_insert_ne.
Qed.

Lemma pre_merge_still_pending (w : World) p from_signaling accumulator store :
  pre_merge w p from_signaling ->
  merges w p accumulator store ->
  1 < num_pending_partial_reports_ (this w) ->
  collector_inv (still_pending w accumulator store).
Proof.
  intros Hpm Hm Hn.
  destruct (pre_merge_merged _ _ _ _ _ Hpm Hm) as (Hnp & Hr & Hq & Hkeep).
  destruct Hpm as [Hcount Hsig _ _ Hacc Hsome Hposted Hnd Hpub Hcached].
  split; simpl.
  - lia.
  - intros Hnil. rewrite Hnil in Hcount. simpl in Hcount. lia.
  - lia.
  - intros a [= <-]. done.
  - eauto.
  - intros q Hq'. destruct (Hq q Hq') as [H1 H2]. split; [done | congruence].
  - done.
  - intros q Hq'. destruct (Hpub q Hq') as (r & Hr' & Hone).
    exists r. split; [by apply Hkeep | done].
  - done.
Qed.

Lemma pre_merge_cycle_completed (w : World) p from_signaling accumulator store :
  pre_merge w p from_signaling ->
  merges w p accumulator store ->
  num_pending_partial_reports_ (this w) = 1 ->
  callbacks_ (this w) ≠ [] ->
  collector_inv (cycle_completed w accumulator store).
Proof.
  intros Hpm Hm Hn Hcb.
  destruct (pre_merge_merged _ _ _ _ _ Hpm Hm) as (Hnp & Hr & Hq & Hkeep).
  destruct Hpm as [Hcount Hsig _ _ Hacc Hsome Hposted Hnd Hpub Hcached].
  assert (Hnil : invoker_ (this w) = []).
  { destruct (invoker_ (this w)); [done |]. simpl in Hcount. lia. }
  split; simpl; rewrite ?Hnil; simpl; try done.
  - lia.
  - intros q Hq'. by apply elem_of_nil in Hq'.
  - apply NoDup_nil_2.
  - intros q [Hc | Hin]; simpl in *.
    + injection Hc as <-.
      destruct Hr as (r & Hr & _ & Hone). exists r. split; [done |].
      apply Hone. by rewrite Hnil.
    + rewrite fmap_app, elem_of_app in Hin.
      destruct Hin as [Hin | Hin].
      * assert (Hpq : published w q) by by right.
        destruct (Hpub q Hpq) as (r & Hr' & Hone).
        exists r. split; [by apply Hkeep | done].
      * rewrite <- list_fmap_compose in Hin.
        apply list_elem_of_fmap in Hin as (cb & -> & _). simpl.
        destruct Hr as (r & Hr & _ & Hone). exists r. split; [done |].
        apply Hone. by rewrite Hnil.
  - intros q [= <-]. rewrite fmap_app, elem_of_app. right.
    destruct (callbacks_ (this w)) as [|cb cbs]; [done |]. simpl. by left.
Qed.

Lemma collector_inv_set_callbacks_ (w : World) v :
  collector_inv w -> collector_inv (upd_this (set_callbacks_ v) w).
Proof. intros []. by split. Qed.

Lemma GetStatsReport_inv cur callback cache_now_us timestamp_us (w w' : World) :
  collector_inv w ->
  GetStatsReport cur callback cache_now_us timestamp_us w = Some w' ->
  collector_inv w' ∧ reports w' = reports w.
Proof.
  intros Hinv. unfold GetStatsReport.
  destruct (RTC_DCHECK _); simpl; [| done].
  destruct (cache_is_fresh _ _) eqn:Hfresh.
  - unfold DeliverCachedReport. simpl.
    destruct (RTC_DCHECK (IsCurrent _ _)); simpl; [| done].
    destruct (RTC_DCHECK (negb _)); simpl; [| done].
    destruct (cached_report_ (this w)) as [cached|] eqn:Hc; [| done]. simpl.
    intros [= <-]. split; [| done].
    destruct Hinv as [Hcount Hidle Hsig Hacc Hsome Hposted Hnd Hpub Hcached].
    assert (Hsame : ∀ q,
      published
        (upd_this (set_callbacks_ [])
           (set_delivered
              (delivered w ++
               ((fun cb => (cb, cached)) <$> (callbacks_ (this w) ++ [callback])))
              (upd_this (fun c => set_callbacks_ (callbacks_ c ++ [callback]) c)
                 w))) q ->
      published w q).
    { intros q [Hq | Hq]; simpl in *; [by left |].
      rewrite fmap_app, elem_of_app in Hq. destruct Hq as [Hq | Hq]; [by right |].
      rewrite <- list_fmap_compose in Hq.
      apply list_elem_of_fmap in Hq as (cb & -> & _). by left. }
    split; simpl; try done.
    + intros a Ha. destruct (Hacc a Ha) as [Hnp Hr]. split; [| done].
      intros Hq. by apply Hnp, Hsame.
    + intros q Hq. by apply Hpub, Hsame.
    + intros q Hq. rewrite fmap_app, elem_of_app. left. by apply Hcached.
  - destruct (_ =? 0) eqn:Hzero.
    + intros [= <-]. split; [| done]. apply Z.eqb_eq in Hzero. simpl in Hzero.
      destruct Hinv as [Hcount Hidle Hsig Hacc Hsome Hposted Hnd Hpub Hcached].
      assert (Hnil : invoker_ (this w) = []).
      { destruct (invoker_ (this w)); [done |]. simpl in Hcount. lia. }
      pose proof (Hidle Hnil) as Hnone.
      split; simpl; rewrite ?Hnil, ?Hnone; simpl; try done.
      * intros q Hq. by apply elem_of_nil in Hq.
      * apply NoDup_nil_2.
    + intros [= <-]. split; [| done]. by apply collector_inv_set_callbacks_.
Qed.

Lemma ClearCachedStatsReport_inv cur (w w' : World) :
  collector_inv w ->
  ClearCachedStatsReport cur w = Some w' ->
  collector_inv w' ∧ reports w' = reports w.
Proof.
  intros [Hcount Hidle Hsig Hacc Hsome Hposted Hnd Hpub Hcached].
  unfold ClearCachedStatsReport.
  destruct (RTC_DCHECK _); simpl; [| done]. intros [= <-]. split; [| done].
  assert (Hsame : ∀ q, published (upd_this (set_cached_report_ None) w) q ->
                       published w q).
  { intros q [Hq | Hq]; simpl in *; [done | by right]. }
  split; simpl; try done.
  - intros a Ha. destruct (Hacc a Ha) as [Hnp Hr]. split; [| done].
    intros Hq. by apply Hnp, Hsame.
  - intros q Hq. by apply Hpub, Hsame.
Qed.

(** Every step keeps the invariant, keeps published what was published,
    and leaves every published report as it is. *)
Lemma step_inv K e (w w' : World) :
  collector_inv w ->
  step K e w = Some w' ->
  collector_inv w' ∧
  (∀ q, published w q -> published w' q) ∧
  (∀ q x, published w q -> reports w !! q = Some x -> reports w' !! q = Some x).
Proof.
  intros Hinv.
  assert (Hdel : ∀ q, published w q -> q ∈ (delivered w).*2).
  { intros q [Hq | Hq]; [by apply (inv_cached _ Hinv) | done]. }
  assert (Hmono : (∀ x, x ∈ (delivered w).*2 -> x ∈ (delivered w').*2) ->
                  ∀ q, published w q -> published w' q).
  { intros Hsub q Hq. right. by apply Hsub, Hdel. }
  destruct e as [cur cb now ts | cur | i pc]; simpl.
  - intros H. destruct (GetStatsReport_inv _ _ _ _ _ _ Hinv H) as [Hinv' Hr].
    rewrite Hr. split; [done |]. split; [| done]. apply Hmono.
    revert H. unfold GetStatsReport.
    destruct (RTC_DCHECK _); simpl; [| done].
    destruct (cache_is_fresh _ _).
    + unfold DeliverCachedReport. simpl.
      destruct (RTC_DCHECK (IsCurrent _ _)); simpl; [| done].
      destruct (RTC_DCHECK (negb _)); simpl; [| done].
      destruct (cached_report_ (this w)); [| done]. simpl.
      intros [= <-] x Hx. simpl. rewrite fmap_app, elem_of_app. by left.
    + destruct (_ =? 0); by intros [= <-].
  - intros H. destruct (ClearCachedStatsReport_inv _ _ _ Hinv H) as [Hinv' Hr].
    rewrite Hr. split; [done |]. split; [| done]. apply Hmono.
    revert H. unfold ClearCachedStatsReport.
    destruct (RTC_DCHECK _); simpl; [| done]. by intros [= <-].
  - destruct (invoker_ (this w) !! i) as [[thread task]|] eqn:Hi; [| done].
    simpl. intros H.
    apply run_Task_inv in H as (p & store & Hb & Hrun).
    destruct (brings_pre_merge K thread pc w i task p store Hinv Hi Hb)
      as [Hpm Hkeep0].
    destruct Hrun as [Hrun | [Hcur ->]].
    + apply AddPartialResults_s_inv in Hrun
        as (_ & _ & acc & store' & Hm & Hcases).
      destruct (pre_merge_merged _ _ _ _ _ Hpm Hm) as (_ & _ & _ & Hkeep).
      assert (Hkeep' : ∀ q x, published w q -> reports w !! q = Some x ->
                              store' !! q = Some x).
      { intros q x Hq Hx. apply Hkeep; [exact Hq |]. by apply Hkeep0. }
      destruct Hcases as [[Hn ->] | (Hn & Hcb & ->)].
      * split; [by eapply pre_merge_still_pending |].
        split; [| done]. by apply Hmono.
      * split; [by eapply pre_merge_cycle_completed |].
        split; [| done]. apply Hmono. intros x Hx. simpl.
        rewrite fmap_app, elem_of_app. by left.
    + assert (Hfs : is_signaling_task task = false).
      { inversion Hb; subst; try done. }
      rewrite Hfs in Hpm. split; [by apply pre_merge_posted |].
      split; [by apply Hmono |].
      simpl. intros q x _. apply Hkeep0.
Qed.

Lemma collector_inv_Create pc cache_lifetime_us c :
  Create pc cache_lifetime_us = Some c -> collector_inv (new_World c).
Proof.
  unfold Create. destruct (RTC_DCHECK _); simpl; [| done]. intros [= <-].
  split; simpl; try done.
  - lia.
  - intros q Hq. by apply elem_of_nil in Hq.
  - apply NoDup_nil_2.
  - intros q [Hq | Hq]; [done | by apply elem_of_nil in Hq].
Qed.

Lemma run_inv K es :
  ∀ w w' : World,
    collector_inv w ->
    run K es w = Some w' ->
    collector_inv w' ∧
    (∀ q, published w q -> published w' q) ∧
    (∀ q x, published w q -> reports w !! q = Some x ->
            reports w' !! q = Some x).
Proof.
  induction es as [|e es IH]; intros w w' Hinv; simpl.
  - by intros [= <-].
  - destruct (step K e w) as [w1|] eqn:Hstep; [| done]. simpl. intros Hrun.
    destruct (step_inv K e w w1 Hinv Hstep) as (Hinv1 & Hpub1 & Hkeep1).
    destruct (IH w1 w' Hinv1 Hrun) as (Hinv' & Hpub' & Hkeep').
    split; [done |]. split; [by eauto |].
    intros q x Hq Hx. apply Hkeep'; [by apply Hpub1 | by apply Hkeep1].
Qed.

Lemma NoDup_all_equal {A} (l : list A) (x : A) :
  NoDup l -> (∀ y, y ∈ l -> y = x) -> x ∈ l -> l = [x].
Proof.
  intros Hnd Hall Hin. destruct l as [|a [|b l]].
  - by apply elem_of_nil in Hin.
  - f_equal. apply Hall. by left.
  - exfalso. apply NoDup_cons in Hnd as [Hnd _]. apply Hnd.
    rewrite (Hall a) by by left. rewrite (Hall b) by (right; by left).
    by left.
Qed.

(** A report with one summary, read as a consumer reads it: the objects of
    the summary's class are one object, with the constant id. *)
Lemma one_summary_GetStatsOfType (report : RTCStatsReport) :
  one_summary report ->
  ∃ stats,
    GetStatsOfType RTCPeerConnectionStats_kType report = [stats] ∧
    RTCStats.id stats = "RTCPeerConnection" ∧
    report !! "RTCPeerConnection" = Some stats.
Proof.
  intros [(stats & Hlook & Hid & Hty) Honly]. exists stats.
  split; [| done]. unfold GetStatsOfType.
  set (P := fun s : RTCStats.t =>
              StatsType_eqb (RTCStats.type s) RTCPeerConnectionStats_kType
              = true).
  assert (Hpairs :
    filter (fun kv : string * RTCStats.t => P kv.2) (map_to_list report)
    = [("RTCPeerConnection", stats)]).
  { apply NoDup_all_equal.
    - apply NoDup_filter, NoDup_map_to_list.
    - intros [k s] Hin. apply list_elem_of_filter in Hin as [HP Hin].
      apply elem_of_map_to_list in Hin. simpl in HP.
      apply StatsType_eqb_eq in HP.
      pose proof (Honly k s Hin HP) as ->. congruence.
    - apply list_elem_of_filter. split.
      + simpl. unfold P. by apply StatsType_eqb_eq.
      + by apply elem_of_map_to_list. }
  assert (Hcomm : ∀ l : list (string * RTCStats.t),
    filter P (l.*2) = (filter (fun kv : string * RTCStats.t => P kv.2) l).*2).
  { induction l as [|[k s] l IH]; [done |]. rewrite fmap_cons. simpl.
    rewrite !filter_cons. simpl. rewrite IH.
    by destruct (decide (P s)). }
  by rewrite Hcomm, Hpairs.
Qed.

(** C10.  In every world that a collector reaches from its creation, every
    report it has published (cached or given to a callback) holds one
    object of the summary's class, under the id [RTCPeerConnection].  The
    signaling thread's partial report has the summary also when
    [GetTransportStats] fails, and then nothing else; the tasks of the
    worker and of the network thread hand an empty report to
    [AddPartialResults]. *)
Theorem published_report_has_one_summary (K : cricket.Constants) :
  (∀ pc cache_lifetime_us c es (w : World) report,
     Create pc cache_lifetime_us = Some c ->
     run K es (new_World c) = Some w ->
     published w report ->
     ∃ (content : RTCStatsReport) stats,
       reports w !! report = Some content ∧
       GetStatsOfType RTCPeerConnectionStats_kType content = [stats] ∧
       RTCStats.id stats = "RTCPeerConnection" ∧
       content !! "RTCPeerConnection" = Some stats) ∧
  (∀ c pc timestamp_us,
     GetTransportStats (session pc) = None ->
     ∃ stats,
       signaling_partial K c (signaling_thread_ c) pc timestamp_us
         = Some {["RTCPeerConnection" := stats]} ∧
       RTCStats.type stats = RTCPeerConnectionStats_kType) ∧
  (∀ (w : World) timestamp_us,
     ProducePartialResultsOnWorkerThread (worker_thread_ (this w))
       timestamp_us w
     = AddPartialResults (worker_thread_ (this w)) (fresh (dom (reports w)))
         (set_reports (<[fresh (dom (reports w)) := ∅]> (reports w)) w) ∧
     ProducePartialResultsOnNetworkThread (network_thread_ (this w))
       timestamp_us w
     = AddPartialResults (network_thread_ (this w)) (fresh (dom (reports w)))
         (set_reports (<[fresh (dom (reports w)) := ∅]> (reports w)) w)).
Proof.
  split; [| split].
  - intros pc cache_lifetime_us c es w report Hc Hrun Hpub.
    apply collector_inv_Create in Hc.
    destruct (run_inv K es _ _ Hc Hrun) as (Hinv & _ & _).
    destruct (inv_published _ Hinv report Hpub) as (content & Hlook & Hone).
    destruct (one_summary_GetStatsOfType content Hone) as (stats & H1 & H2 & H3).
    by exists content, stats.
  - intros c pc timestamp_us Hnone. unfold signaling_partial. rewrite Hnone.
    simpl. unfold ProducePeerConnectionStats_s. rewrite IsCurrent_refl. simpl.
    eexists. split; [reflexivity | done].
  - intros w timestamp_us. split.
    + unfold ProducePartialResultsOnWorkerThread. by rewrite IsCurrent_refl.
    + unfold ProducePartialResultsOnNetworkThread. by rewrite IsCurrent_refl.
Qed.

(** A whole cycle from the creation of the collector: the request, the
    three tasks, the two merges posted by the worker and the network
    thread. *)
Definition one_cycle (callback : Callback) (cache_now_us : Z)
    (pc : PeerConnection) : list Event :=
  [call_GetStatsReport 1%nat callback cache_now_us 99;
   run_invoked 0%nat pc; run_invoked 0%nat pc; run_invoked 0%nat pc;
   run_invoked 0%nat pc; run_invoked 0%nat pc].

Lemma one_cycle_runs :
  ∃ w,
    run webrtc_constants (one_cycle 11%nat 100 no_channels)
      (new_World example_collector) = Some w ∧
    cached_report_ (this w) = Some 0%nat.
Proof.
  eexists. split.
  - vm_compute. reflexivity.
  - vm_compute. reflexivity.
Qed.

Lemma published_report_has_one_summary_witness :
  ∃ (w : World) (content : RTCStatsReport) stats,
    Create no_channels 50000 = Some example_collector ∧
    run webrtc_constants (one_cycle 11%nat 100 no_channels)
      (new_World example_collector) = Some w ∧
    published w 0%nat ∧
    reports w !! 0%nat = Some content ∧
    GetStatsOfType RTCPeerConnectionStats_kType content = [stats] ∧
    RTCStats.id stats = "RTCPeerConnection".
Proof.
  destruct one_cycle_runs as (w & Hrun & Hc).
  assert (Hpub : published w 0%nat) by by left.
  destruct (published_report_has_one_summary webrtc_constants) as [H _].
  destruct (H no_channels 50000 example_collector _ w 0%nat eq_refl Hrun Hpub)
    as (content & stats & H1 & H2 & H3 & _).
  exists w, content, stats.
  split; [reflexivity |]. split; [exact Hrun |]. split; [exact Hpub |].
  split; [exact H1 |]. split; [exact H2 | exact H3].
Defined.

(** ** Objects after their insertion *)

Lemma run_app K es1 es2 (w : World) :
  run K (es1 ++ es2) w = run K es1 w ≫= run K es2.
Proof.
  revert w. induction es1 as [|e es1 IH]; intros w; simpl; [done |].
  destruct (step K e w); simpl; [apply IH | done].
Qed.




(** A second cycle, after the cache was cleared, with other data channels. *)
Definition second_cycle : list Event :=
  call_ClearCachedStatsReport 1%nat :: one_cycle 12%nat 200 four_channels.

Lemma two_cycles_run :
  ∃ w',
    run webrtc_constants (one_cycle 11%nat 100 no_channels ++ second_cycle)
      (new_World example_collector) = Some w'.
Proof. eexists. vm_compute. reflexivity. Qed.



(** * Further properties of the collector *)

(** ** The entry points *)

(** The callbacks of the requests of a run, in the order of the requests. *)
Definition requested (es : list Event) : list Callback :=
  omap (fun e => match e with
                 | call_GetStatsReport _ callback _ _ => Some callback
                 | _ => None
                 end) es.

(** The callbacks that have been given a report, oldest first, followed by
    those that still wait in [callbacks_]. *)
Definition served_then_queued (w : World) : list Callback :=
  (delivered w).*1 ++ callbacks_ (this w).

Lemma DeliverCachedReport_served cur (w w' : World) :
  DeliverCachedReport cur w = Some w' ->
  served_then_queued w' = served_then_queued w.
Proof.
  unfold DeliverCachedReport.
  destruct (RTC_DCHECK (IsCurrent _ _)); simpl; [| done].
  destruct (RTC_DCHECK (negb _)); simpl; [| done].
  destruct (cached_report_ (this w)) as [cached|]; simpl; [| done].
  intros [= <-]. unfold served_then_queued. simpl.
  rewrite fmap_app, <- list_fmap_compose, app_nil_r.
  f_equal. by rewrite list_fmap_id.
Qed.

Lemma GetStatsReport_served cur callback cache_now_us timestamp_us (w w' : World) :
  GetStatsReport cur callback cache_now_us timestamp_us w = Some w' ->
  served_then_queued w' = served_then_queued w ++ [callback].
Proof.
  unfold GetStatsReport.
  destruct (RTC_DCHECK _); simpl; [| done].
  destruct (cache_is_fresh _ _).
  - intros H. apply DeliverCachedReport_served in H. rewrite H.
    unfold served_then_queued. simpl. by rewrite (assoc_L (++)).
  - destruct (_ =? 0); intros [= <-]; unfold served_then_queued; simpl;
      by rewrite (assoc_L (++)).
Qed.

Lemma AddPartialResults_s_served cur partial_report (w w' : World) :
  AddPartialResults_s cur partial_report w = Some w' ->
  served_then_queued w' = served_then_queued w.
Proof.
  intros H. apply AddPartialResults_s_inv in H
    as (_ & _ & acc & store & _ & [[_ ->] | (_ & _ & ->)]).
  - reflexivity.
  - unfold served_then_queued. simpl.
    rewrite fmap_app, <- list_fmap_compose, app_nil_r.
    f_equal. by rewrite list_fmap_id.
Qed.

Lemma step_served K e (w w' : World) :
  step K e w = Some w' ->
  served_then_queued w' = served_then_queued w ++ requested [e].
Proof.
  destruct e as [cur cb now ts | cur | i pc]; simpl.
  - apply GetStatsReport_served.
  - unfold ClearCachedStatsReport. destruct (RTC_DCHECK _); simpl; [| done].
    intros [= <-]. by rewrite app_nil_r.
  - destruct (invoker_ (this w) !! i) as [[thread task]|]; simpl; [| done].
    intros H. rewrite app_nil_r.
    apply run_Task_inv in H as (p & store & _ & [H | [_ ->]]).
    + by apply AddPartialResults_s_served in H.
    + reflexivity.
Qed.

(** X1.  Whatever happens to a collector, no callback is lost, none is
    called twice and none is called out of turn: after any run the callbacks
    that have been given a report, in the order in which they were called,
    followed by those still queued, are the callbacks that were served or
    queued before the run followed by those of the run's requests, in the
    order of the requests. *)
Theorem callbacks_served_once_in_order K es :
  ∀ w w' : World,
    run K es w = Some w' ->
    (delivered w').*1 ++ callbacks_ (this w')
    = ((delivered w).*1 ++ callbacks_ (this w)) ++ requested es.
Proof.
  induction es as [|e es IH]; intros w w'; simpl.
  - intros [= <-]. by rewrite app_nil_r.
  - destruct (step K e w) as [w1|] eqn:Hstep; simpl; [| done].
    intros Hrun. rewrite (IH w1 w' Hrun).
    pose proof (step_served K e w w1 Hstep) as Hs.
    unfold served_then_queued in Hs. rewrite Hs.
    rewrite <- (assoc_L (++)). f_equal.
    by destruct e.
Qed.

Lemma callbacks_served_once_in_order_witness :
  ∃ w' : World,
    run webrtc_constants (one_cycle 11%nat 100 no_channels ++ second_cycle)
      (new_World example_collector) = Some w' ∧
    (delivered w').*1 ++ callbacks_ (this w') = [11%nat; 12%nat].
Proof.
  destruct two_cycles_run as (w' & Hrun). exists w'. split; [exact Hrun |].
  exact (callbacks_served_once_in_order webrtc_constants _ _ _ Hrun).
Defined.

(** [GetStatsReport] is handed its callback as a [scoped_refptr], which may
    be null ([None]); the method checks for that right after the check of
    the thread.  [GetStatsReport] above is the method for a callback that
    is there. *)
Definition GetStatsReport_refptr (cur : Thread) (callback : option Callback)
    (cache_now_us timestamp_us : Z) (w : World) : option World :=
  RTC_DCHECK (IsCurrent (signaling_thread_ (this w)) cur);;
  callback ← callback;
  GetStatsReport cur callback cache_now_us timestamp_us w.

(** X2.  The two public methods fail on the checks at their entry and on
    nothing else, whatever state the collector is in.  [GetStatsReport]
    returns exactly when it is called on the signaling thread with a
    callback that is not null, and [ClearCachedStatsReport] exactly when it
    is called on the signaling thread: the checks of [DeliverCachedReport]
    cannot fail when [GetStatsReport] calls it, for the queue then holds
    the callback just pushed and the cache was found to hold a report. *)
Theorem public_methods_fail_only_on_entry_checks (w : World) cur callback
    cache_now_us timestamp_us :
  (is_Some (GetStatsReport_refptr cur callback cache_now_us timestamp_us w)
   ↔ cur = signaling_thread_ (this w) ∧ is_Some callback) ∧
  (is_Some (ClearCachedStatsReport cur w) ↔ cur = signaling_thread_ (this w)).
Proof.
  split; split.
  - unfold GetStatsReport_refptr. intros [w' H].
    destruct (IsCurrent _ cur) eqn:E; [| done].
    apply IsCurrent_true in E. simpl in H.
    destruct callback as [callback|]; [by eauto | done].
  - intros [-> [callback' ->]]. unfold GetStatsReport_refptr, GetStatsReport.
    rewrite IsCurrent_refl. simpl.
    destruct (cache_is_fresh _ _) eqn:Hfresh.
    + unfold DeliverCachedReport. simpl. rewrite IsCurrent_refl. simpl.
      rewrite bool_decide_nil_false by by destruct (callbacks_ (this w)).
      simpl. unfold cache_is_fresh in Hfresh. simpl in Hfresh.
      apply andb_true_iff in Hfresh as [Hc _].
      apply bool_decide_eq_true_1 in Hc as [cached ->]. simpl. eauto.
    + destruct (_ =? 0); eauto.
  - unfold ClearCachedStatsReport. intros [w' H].
    destruct (IsCurrent _ cur) eqn:E; [by apply IsCurrent_true in E | done].
  - intros ->. unfold ClearCachedStatsReport. rewrite IsCurrent_refl. simpl.
    eauto.
Qed.

(** X3.  A request that finds no contribution pending and no report that it
    may serve from the cache (none cached, or the cached one older than the
    lifetime) starts one gathering cycle: its callback is queued, three
    contributions are pending, the start of the cycle is the monotonic time
    of the request, and three invocations are posted after those already
    there, one to each of the signaling, worker and network threads, all
    bound to the UTC time the request read.  Nothing is delivered, and the
    cache and the reports stay as they are. *)
Theorem request_starts_cycle (w : World) callback cache_now_us timestamp_us :
  num_pending_partial_reports_ (this w) = 0 ->
  (cached_report_ (this w) = None ∨
   cache_lifetime_us_ (this w) < cache_now_us - cache_timestamp_us_ (this w)) ->
  GetStatsReport (signaling_thread_ (this w)) callback cache_now_us
    timestamp_us w
  = Some
      {| this :=
           {| signaling_thread_ := signaling_thread_ (this w);
              worker_thread_ := worker_thread_ (this w);
              network_thread_ := network_thread_ (this w);
              invoker_ :=
                invoker_ (this w) ++
                [(signaling_thread_ (this w),
                  Bind_ProducePartialResultsOnSignalingThread timestamp_us);
                 (worker_thread_ (this w),
                  Bind_ProducePartialResultsOnWorkerThread timestamp_us);
                 (network_thread_ (this w),
                  Bind_ProducePartialResultsOnNetworkThread timestamp_us)];
              num_pending_partial_reports_ := 3;
              partial_report_timestamp_us_ := cache_now_us;
              partial_report_ := partial_report_ (this w);
              cache_timestamp_us_ := cache_timestamp_us_ (this w);
              cache_lifetime_us_ := cache_lifetime_us_ (this w);
              cached_report_ := cached_report_ (this w);
              callbacks_ := callbacks_ (this w) ++ [callback] |};
         reports := reports w;
         delivered := delivered w |}.
Proof.
  intros Hidle Hstale. unfold GetStatsReport. rewrite IsCurrent_refl. simpl.
  rewrite cache_is_fresh_set_callbacks_.
  rewrite (cache_is_fresh_false (this w) cache_now_us Hstale).
  by rewrite Hidle.
Qed.

(** The report in the cache of [cached_world] was taken at time 1000; at
    time 51001 it is older than the lifetime of 50000 microseconds. *)
Lemma request_starts_cycle_witness :
  (invoker_ ∘ this) <$> GetStatsReport 1%nat 12%nat 51001 99 cached_world
  = Some [(1%nat, Bind_ProducePartialResultsOnSignalingThread 99);
          (2%nat, Bind_ProducePartialResultsOnWorkerThread 99);
          (3%nat, Bind_ProducePartialResultsOnNetworkThread 99)].
Proof.
  assert (Hstale :
    cached_report_ (this cached_world) = None ∨
    cache_lifetime_us_ (this cached_world)
      < 51001 - cache_timestamp_us_ (this cached_world))
    by (right; vm_compute; reflexivity).
  pose proof (request_starts_cycle cached_world 12%nat 51001 99 eq_refl Hstale)
    as H.
  change (signaling_thread_ (this cached_world)) with 1%nat in H.
  rewrite H. reflexivity.
Defined.

(** ** The merge of the three contributions *)

(** X4.  The three contributions of a cycle, whatever reports they bring:
    when the three reports are different objects and no id is in two of
    them, the three calls of [AddPartialResults_s] go through; the report
    that came first then holds every object of the three, the other two are
    empty, and it is that first report which is cached, stamped with the
    start of the cycle, and given to every queued callback. *)
Theorem three_contributions_merge (w : World) p1 p2 p3
    (r1 r2 r3 : RTCStatsReport) :
  num_pending_partial_reports_ (this w) = 3 ->
  partial_report_ (this w) = None ->
  callbacks_ (this w) ≠ [] ->
  reports w !! p1 = Some r1 ->
  reports w !! p2 = Some r2 ->
  reports w !! p3 = Some r3 ->
  p1 ≠ p2 -> p1 ≠ p3 -> p2 ≠ p3 ->
  r1 ##ₘ r2 -> r1 ##ₘ r3 -> r2 ##ₘ r3 ->
  (w1 ← AddPartialResults_s (signaling_thread_ (this w)) p1 w;
   w2 ← AddPartialResults_s (signaling_thread_ (this w)) p2 w1;
   AddPartialResults_s (signaling_thread_ (this w)) p3 w2)
  = Some
      {| this :=
           set_callbacks_ []
             (set_cached_report_ (Some p1)
                (set_cache_timestamp_us_ (partial_report_timestamp_us_ (this w))
                   (set_num_pending_partial_reports_ 0 (this w))));
         reports :=
           <[p3 := ∅]> (<[p2 := ∅]> (<[p1 := r1 ∪ r2 ∪ r3]> (reports w)));
         delivered :=
           delivered w ++ ((fun callback => (callback, p1)) <$> callbacks_ (this w))
      |}.
Proof.
  intros Hn Hnone Hcb H1 H2 H3 H12 H13 H23 D12 D13 D23.
  rewrite (AddPartialResults_s_continues w p1 p1 (reports w));
    [| lia | by apply merges_first].
  simpl.
  set (w1 := still_pending w p1 (reports w)).
  set (store2 := <[p2 := ∅]> (<[p1 := r1 ∪ r2]> (reports w))).
  assert (Hm2 : merges w1 p2 p1 store2)
    by by apply (merges_later w1 p2 p1 r1 r2).
  pose proof (AddPartialResults_s_continues w1 p2 p1 store2) as E2.
  change (signaling_thread_ (this w1)) with (signaling_thread_ (this w)) in E2.
  rewrite E2; [| simpl; lia | exact Hm2]. simpl.
  set (w2 := still_pending w1 p1 store2).
  set (store3 := <[p3 := ∅]> (<[p1 := r1 ∪ r2 ∪ r3]> store2)).
  assert (Hm3 : merges w2 p3 p1 store3).
  { apply (merges_later w2 p3 p1 (r1 ∪ r2) r3); simpl.
    - done.
    - unfold store2. by rewrite lookup_insert_ne, lookup_insert_eq.
    - unfold store2. by rewrite !lookup_insert_ne.
    - by apply map_disjoint_union_l. }
  pose proof (AddPartialResults_s_completes w2 p3 p1 store3) as E3.
  change (signaling_thread_ (this w2)) with (signaling_thread_ (this w)) in E3.
  rewrite E3; [| simpl; lia | done | exact Hm3].
  unfold cycle_completed. simpl. f_equal.
  destruct w as [c store d]. simpl in *. f_equal.
  - destruct c. simpl in *. subst. reflexivity.
  - unfold store3, store2. f_equal.
    rewrite (insert_insert_ne _ p1 p2) by done.
    by rewrite insert_insert_eq.
Qed.

(** Three reports brought to a collector that waits for its three
    contributions: the summary, a certificate, and an empty report. *)
Definition three_reports_world : World :=
  {| this :=
       set_callbacks_ [11%nat]
         (set_partial_report_timestamp_us_ 100
            (set_num_pending_partial_reports_ 3 example_collector));
     reports :=
       {[0%nat := {["RTCPeerConnection" := summary_of 0 0]};
         1%nat := {["RTCCertificate_A" :=
                      certificate_stats_of "RTCCertificate_" 7
                        (example_certificate "A" None) None]};
         2%nat := ∅]};
     delivered := [] |}.

Lemma three_contributions_merge_witness :
  (fun w' : World =>
     (dom <$> reports w' !! 0%nat, reports w' !! 1%nat, reports w' !! 2%nat,
      cached_report_ (this w'), cache_timestamp_us_ (this w'), delivered w'))
    <$> (w1 ← AddPartialResults_s 1%nat 0%nat three_reports_world;
         w2 ← AddPartialResults_s 1%nat 1%nat w1;
         AddPartialResults_s 1%nat 2%nat w2)
  = Some (Some ({["RTCPeerConnection"; "RTCCertificate_A"]} : gset string),
          Some ∅, Some ∅, Some 0%nat, 100, [(11%nat, 0%nat)]).
Proof.
  pose proof (three_contributions_merge three_reports_world 0%nat 1%nat 2%nat
                {["RTCPeerConnection" := summary_of 0 0]}
                {["RTCCertificate_A" :=
                    certificate_stats_of "RTCCertificate_" 7
                      (example_certificate "A" None) None]}
                ∅ eq_refl eq_refl ltac:(discriminate)
                eq_refl eq_refl eq_refl
                ltac:(discriminate) ltac:(discriminate) ltac:(discriminate))
    as H.
  change (signaling_thread_ (this three_reports_world)) with 1%nat in H.
  rewrite H.
  - vm_compute. reflexivity.
  - apply (bool_decide_unpack _). vm_compute. reflexivity.
  - apply map_disjoint_empty_r.
  - apply map_disjoint_empty_r.
Defined.

(** ** The age of a cached report *)

(** X5.  The age of a cached report counts from the request that started
    its cycle, not from the moment the report was completed.  After the
    last contribution of a cycle, a request whose clock reading is within
    the lifetime of the start of that cycle is given the new report at
    once; a request whose reading is further from the start than the
    lifetime is not given it, though it was cached a moment ago: it is
    queued and starts the next cycle. *)
Theorem cache_age_counts_from_cycle_start (w : World) partial_report
    accumulator store callback cache_now_us timestamp_us :
  num_pending_partial_reports_ (this w) = 1 ->
  callbacks_ (this w) ≠ [] ->
  merges w partial_report accumulator store ->
  let w1 := cycle_completed w accumulator store in
  AddPartialResults_s (signaling_thread_ (this w)) partial_report w = Some w1 ∧
  (cache_now_us - partial_report_timestamp_us_ (this w)
     <= cache_lifetime_us_ (this w) ->
   GetStatsReport (signaling_thread_ (this w)) callback cache_now_us
     timestamp_us w1
   = Some {| this := this w1;
             reports := store;
             delivered := delivered w1 ++ [(callback, accumulator)] |}) ∧
  (cache_lifetime_us_ (this w)
     < cache_now_us - partial_report_timestamp_us_ (this w) ->
   GetStatsReport (signaling_thread_ (this w)) callback cache_now_us
     timestamp_us w1
   = Some {| this :=
               set_callbacks_ [callback]
                 (set_invoker_
                    (invoker_ (this w) ++
                     [(signaling_thread_ (this w),
                       Bind_ProducePartialResultsOnSignalingThread timestamp_us);
                      (worker_thread_ (this w),
                       Bind_ProducePartialResultsOnWorkerThread timestamp_us);
                      (network_thread_ (this w),
                       Bind_ProducePartialResultsOnNetworkThread timestamp_us)])
                    (set_partial_report_timestamp_us_ cache_now_us
                       (set_num_pending_partial_reports_ 3 (this w1))));
             reports := store;
             delivered := delivered w1 |}).
Proof.
  intros Hn Hcb Hm w1.
  split; [by apply AddPartialResults_s_completes |].
  assert (Hsig : signaling_thread_ (this w1) = signaling_thread_ (this w))
    by reflexivity.
  assert (Hcached : cached_report_ (this w1) = Some accumulator)
    by reflexivity.
  assert (Hstamp : cache_timestamp_us_ (this w1)
                   = partial_report_timestamp_us_ (this w)) by reflexivity.
  assert (Hlife : cache_lifetime_us_ (this w1) = cache_lifetime_us_ (this w))
    by reflexivity.
  assert (Hidle : num_pending_partial_reports_ (this w1) = 0) by reflexivity.
  assert (Hw1 : w1 = cycle_completed w accumulator store) by reflexivity.
  clearbody w1. rewrite <- Hsig.
  split.
  - intros Hage. unfold GetStatsReport. rewrite IsCurrent_refl. simpl.
    rewrite cache_is_fresh_set_callbacks_.
    rewrite (cache_is_fresh_true (this w1) cache_now_us accumulator Hcached)
      by (rewrite Hstamp, Hlife; exact Hage).
    unfold DeliverCachedReport. simpl. rewrite IsCurrent_refl, Hcached.
    rewrite bool_decide_nil_false by by destruct (callbacks_ (this w1)).
    simpl. by subst w1.
  - intros Hage. unfold GetStatsReport. rewrite IsCurrent_refl. simpl.
    rewrite cache_is_fresh_set_callbacks_.
    rewrite (cache_is_fresh_false (this w1) cache_now_us)
      by (right; rewrite Hstamp, Hlife; exact Hage).
    rewrite Hidle. simpl. by subst w1.
Qed.

(** The last contribution arrives in [last_pending_world], whose cycle
    started at time 5000; the lifetime is 50000 microseconds. *)
Lemma cache_age_counts_from_cycle_start_witness :
  (w1 ← AddPartialResults_s 1%nat 2%nat last_pending_world;
   delivered <$> GetStatsReport 1%nat 13%nat 55000 199 w1)
  = Some [(11%nat, 0%nat); (12%nat, 0%nat); (13%nat, 0%nat)] ∧
  (w1 ← AddPartialResults_s 1%nat 2%nat last_pending_world;
   delivered <$> GetStatsReport 1%nat 13%nat 55001 199 w1)
  = Some [(11%nat, 0%nat); (12%nat, 0%nat)].
Proof.
  assert (Hcb : callbacks_ (this last_pending_world) ≠ []) by discriminate.
  destruct (cache_age_counts_from_cycle_start last_pending_world 2%nat 0%nat
              _ 13%nat 55000 199 eq_refl Hcb last_pending_world_merges)
    as (Hadd & Hfresh & _).
  destruct (cache_age_counts_from_cycle_start last_pending_world 2%nat 0%nat
              _ 13%nat 55001 199 eq_refl Hcb last_pending_world_merges)
    as (_ & _ & Hstale).
  change (signaling_thread_ (this last_pending_world)) with 1%nat
    in Hadd, Hfresh, Hstale.
  rewrite Hadd. cbn [mbind option_bind]. split.
  - rewrite Hfresh by (vm_compute; discriminate). reflexivity.
  - rewrite Hstale by (vm_compute; reflexivity). reflexivity.
Defined.

(** ** The constructor and the first request *)

(** X6.  A negative cache lifetime makes the constructor fail.  A
    collector that the constructor does make has a lifetime that is not
    negative (zero is accepted), takes its three threads from the session
    and holds no report: whatever the clocks read, the first request is
    not served from a cache but starts the first cycle. *)
Theorem Create_then_first_request (pc : PeerConnection) cache_lifetime_us :
  (cache_lifetime_us < 0 -> Create pc cache_lifetime_us = None) ∧
  ∀ c, Create pc cache_lifetime_us = Some c ->
    0 <= cache_lifetime_us ∧
    signaling_thread_ c = signaling_thread (session pc) ∧
    worker_thread_ c = worker_thread (session pc) ∧
    network_thread_ c = network_thread (session pc) ∧
    cache_lifetime_us_ c = cache_lifetime_us ∧
    ∀ callback cache_now_us timestamp_us,
      GetStatsReport (signaling_thread (session pc)) callback cache_now_us
        timestamp_us (new_World c)
      = Some
          {| this :=
               set_callbacks_ [callback]
                 (set_invoker_
                    [(signaling_thread (session pc),
                      Bind_ProducePartialResultsOnSignalingThread timestamp_us);
                     (worker_thread (session pc),
                      Bind_ProducePartialResultsOnWorkerThread timestamp_us);
                     (network_thread (session pc),
                      Bind_ProducePartialResultsOnNetworkThread timestamp_us)]
                    (set_partial_report_timestamp_us_ cache_now_us
                       (set_num_pending_partial_reports_ 3 c)));
             reports := ∅;
             delivered := [] |}.
Proof.
  unfold Create. split.
  - intros Hneg. destruct (Z.leb_spec 0 cache_lifetime_us); [lia | done].
  - destruct (Z.leb_spec 0 cache_lifetime_us) as [Hge | Hlt]; simpl; [| done].
    intros c [= <-]. simpl. repeat (split; [done |]).
    intros callback cache_now_us timestamp_us.
    unfold GetStatsReport. simpl. by rewrite IsCurrent_refl.
Qed.

Lemma Create_then_first_request_witness :
  Create no_channels (-1) = None ∧
  Create no_channels 0 ≫= (fun c =>
    (invoker_ ∘ this) <$> GetStatsReport 1%nat 11%nat 0 99 (new_World c))
  = Some [(1%nat, Bind_ProducePartialResultsOnSignalingThread 99);
          (2%nat, Bind_ProducePartialResultsOnWorkerThread 99);
          (3%nat, Bind_ProducePartialResultsOnNetworkThread 99)].
Proof.
  split.
  - apply (Create_then_first_request no_channels (-1)). lia.
  - destruct (Create_then_first_request no_channels 0) as [_ H].
    destruct (Create no_channels 0) as [c|] eqn:Hc; [| discriminate Hc].
    destruct (H c eq_refl) as (_ & _ & _ & _ & _ & Hreq).
    change (signaling_thread (session no_channels)) with 1%nat in Hreq.
    simpl. rewrite Hreq. reflexivity.
Defined.

(** ** Off the signaling thread *)

(** X7.  Only the signaling thread touches the state of the collector.  An
    invocation that returns on another thread is the task of the worker
    thread on the worker thread or the task of the network thread on the
    network thread, and all it does is make a new, empty report and post
    its merge to the signaling thread: the accumulator, the count of
    pending contributions, the cache, its timestamp, the queue of callbacks,
    the other reports and the deliveries stay as they are.  The task of the
    signaling thread and a merge end the run when they are run on another
    thread. *)
Theorem off_signaling_thread_only_posts K cur pc task (w w' : World) :
  cur ≠ signaling_thread_ (this w) ->
  run_Task K cur pc task w = Some w' ->
  (∃ timestamp_us,
     (task = Bind_ProducePartialResultsOnWorkerThread timestamp_us ∧
      cur = worker_thread_ (this w)) ∨
     (task = Bind_ProducePartialResultsOnNetworkThread timestamp_us ∧
      cur = network_thread_ (this w))) ∧
  reports w !! fresh (dom (reports w)) = None ∧
  w' = {| this :=
            set_invoker_
              (invoker_ (this w) ++
               [(signaling_thread_ (this w),
                 Bind_AddPartialResults_s (fresh (dom (reports w))))])
              (this w);
          reports := <[fresh (dom (reports w)) := ∅]> (reports w);
          delivered := delivered w |}.
Proof.
  intros Hcur.
  assert (Hno : IsCurrent (signaling_thread_ (this w)) cur = false).
  { destruct (IsCurrent _ cur) eqn:E; [| done].
    by apply IsCurrent_true in E. }
  destruct task as [ts | ts | ts | p]; simpl.
  - unfold ProducePartialResultsOnSignalingThread. by rewrite Hno.
  - unfold ProducePartialResultsOnWorkerThread, RTCStatsReport_Create,
      AddPartialResults.
    destruct (IsCurrent (worker_thread_ (this w)) cur) eqn:E; [| done].
    apply IsCurrent_true in E. simpl. rewrite Hno. simpl. intros [= <-].
    split; [exists ts; by left |]. split; [apply fresh_report_not_in | done].
  - unfold ProducePartialResultsOnNetworkThread, RTCStatsReport_Create,
      AddPartialResults.
    destruct (IsCurrent (network_thread_ (this w)) cur) eqn:E; [| done].
    apply IsCurrent_true in E. simpl. rewrite Hno. simpl. intros [= <-].
    split; [exists ts; by right |]. split; [apply fresh_report_not_in | done].
  - unfold AddPartialResults_s. by rewrite Hno.
Qed.

Lemma off_signaling_thread_only_posts_witness :
  (fun w' : World => (invoker_ (this w'), partial_report_ (this w'),
                      num_pending_partial_reports_ (this w'), callbacks_ (this w')))
    <$> run_Task webrtc_constants 2%nat no_channels
          (Bind_ProducePartialResultsOnWorkerThread 99)
          (upd_this (set_invoker_ []) in_flight_world)
  = Some ([(1%nat, Bind_AddPartialResults_s 0%nat)], None, 3, [11%nat]).
Proof.
  destruct (run_Task webrtc_constants 2%nat no_channels
              (Bind_ProducePartialResultsOnWorkerThread 99)
              (upd_this (set_invoker_ []) in_flight_world)) as [w'|] eqn:Hrun;
    [| discriminate Hrun].
  assert (Hcur : 2%nat
                  ≠ signaling_thread_
                      (this (upd_this (set_invoker_ []) in_flight_world)))
    by discriminate.
  destruct (off_signaling_thread_only_posts webrtc_constants 2%nat no_channels
              _ _ w' Hcur Hrun) as (_ & _ & ->).
  reflexivity.
Defined.

(** ** The certificates of a session *)

(** The nodes that [GetStats()] of a certificate gives, leaf first; none
    when it gives the null pointer. *)
Definition certificate_nodes (certificate : rtc.SSLCertificate)
  : list rtc.SSLCertificateStats :=
  match rtc.GetStats certificate with
  | Some s => chain_nodes s
  | None => []
  end.

Lemma certificate_walk c timestamp_us certificate (report : RTCStatsReport) :
  ProduceCertificateStatsFromSSLCertificateAndChain_s c (signaling_thread_ c)
    timestamp_us certificate report
  = Some (chain_turns timestamp_us (certificate_nodes certificate) None
            report).2.
Proof.
  unfold ProduceCertificateStatsFromSSLCertificateAndChain_s, certificate_nodes.
  rewrite IsCurrent_refl. simpl.
  destruct (rtc.GetStats certificate) as [s|]; [| done].
  by rewrite chain_loop_turns.
Qed.

(** The object of a node when the walk is over: it carries what the node
    carries and names the object of the node's issuer. *)
Definition certificate_record (timestamp_us : Z) (s : rtc.SSLCertificateStats)
  : RTCStats.t :=
  certificate_stats_of "RTCCertificate_" timestamp_us s
    ((fun issuer => "RTCCertificate_" +:+ rtc.fingerprint issuer)
       <$> rtc.issuer s).

Lemma chain_nodes_next (s : rtc.SSLCertificateStats) :
  ∀ i x, chain_nodes s !! i = Some x -> chain_nodes s !! S i = rtc.issuer x.
Proof.
  induction s as [s Hs | s s' Hs IH] using SSLCertificateStats_chain_ind;
    intros i x.
  - destruct s as [fp alg b64 iss]. simpl in Hs. subst iss. simpl.
    destruct i as [|i]; simpl; [by intros [= <-] | done].
  - destruct s as [fp alg b64 iss]. simpl in Hs. subst iss.
    change (chain_nodes (rtc.mkSSLCertificateStats fp alg b64 (Some s')))
      with (rtc.mkSSLCertificateStats fp alg b64 (Some s') :: chain_nodes s').
    destruct i as [|i]; simpl.
    + intros [= <-]. simpl. by destruct s'.
    + apply IH.
Qed.

(** What the walk over the nodes of a certificate leaves under the ids of
    the nodes and under the other ids. *)
Lemma certificate_nodes_walk timestamp_us certificate (r : RTCStatsReport) :
  NoDup (rtc.fingerprint <$> certificate_nodes certificate) ->
  (∀ node, node ∈ certificate_nodes certificate ->
           r !! ("RTCCertificate_" +:+ rtc.fingerprint node) = None) ->
  (∀ node, node ∈ certificate_nodes certificate ->
     (chain_turns timestamp_us (certificate_nodes certificate) None r).2
       !! ("RTCCertificate_" +:+ rtc.fingerprint node)
     = Some (certificate_record timestamp_us node)) ∧
  (∀ k, (∀ node, node ∈ certificate_nodes certificate ->
                 k ≠ "RTCCertificate_" +:+ rtc.fingerprint node) ->
     (chain_turns timestamp_us (certificate_nodes certificate) None r).2 !! k
     = r !! k).
Proof.
  intros Hnd Hfresh. apply chain_ids_NoDup in Hnd.
  destruct (chain_turns_spec timestamp_us (certificate_nodes certificate)
              None r Hnd Hfresh) as (Ha & _ & Hc & _); [done |].
  split.
  - intros node Hin. apply list_elem_of_lookup in Hin as [i Hi].
    change ("RTCCertificate_" +:+ rtc.fingerprint node)
      with (certificate_stats_id node).
    rewrite (Hc i node Hi). unfold certificate_record. do 2 f_equal.
    unfold certificate_nodes in *.
    destruct (rtc.GetStats certificate) as [s|]; [| done].
    rewrite (chain_nodes_next s i node Hi). by destruct (rtc.issuer node).
  - intros k Hk. apply Ha; [| done].
    intros Hin. apply list_elem_of_fmap in Hin as (node & -> & Hin).
    by apply (Hk node Hin).
Qed.

(** The certificates that [ProduceCertificateStats_s] walks, in its order:
    for every transport the local certificate, when the session has one
    for the transport's name, then the remote one, when there is one. *)
Definition session_certificates (pc : PeerConnection)
    (session_stats : SessionStats) : list rtc.SSLCertificate :=
  transport_stats session_stats ≫= fun transport_stats =>
    option_list
      (rtc.ssl_certificate <$>
         GetLocalCertificate (session pc)
           (cricket.transport_name transport_stats.2)) ++
    option_list
      (GetRemoteSSLCertificate (session pc)
         (cricket.transport_name transport_stats.2)).

Lemma ProduceCertificateStats_s_walks c pc timestamp_us session_stats
    (report : RTCStatsReport) :
  ProduceCertificateStats_s c (signaling_thread_ c) pc timestamp_us
    session_stats report
  = Some (foldl (fun r certificate =>
                   (chain_turns timestamp_us (certificate_nodes certificate)
                      None r).2)
            report (session_certificates pc session_stats)).
Proof.
  unfold ProduceCertificateStats_s, session_certificates.
  rewrite IsCurrent_refl. simpl.
  generalize (transport_stats session_stats) report.
  induction l as [|t l IH]; intros r; simpl; [done |].
  rewrite !foldl_app.
  destruct (GetLocalCertificate (session pc) (cricket.transport_name t.2))
    as [local_certificate|]; simpl.
  - rewrite certificate_walk. simpl.
    destruct (GetRemoteSSLCertificate (session pc) (cricket.transport_name t.2))
      as [remote_certificate|]; simpl.
    + rewrite certificate_walk. simpl. apply IH.
    + apply IH.
  - destruct (GetRemoteSSLCertificate (session pc) (cricket.transport_name t.2))
      as [remote_certificate|]; simpl.
    + rewrite certificate_walk. simpl. apply IH.
    + apply IH.
Qed.

Lemma walks_lookup timestamp_us certificates :
  ∀ report : RTCStatsReport,
    NoDup (rtc.fingerprint <$> (certificates ≫= certificate_nodes)) ->
    (∀ node, node ∈ certificates ≫= certificate_nodes ->
             report !! ("RTCCertificate_" +:+ rtc.fingerprint node) = None) ->
    let report' :=
      foldl (fun r certificate =>
               (chain_turns timestamp_us (certificate_nodes certificate)
                  None r).2) report certificates in
    (∀ node, node ∈ certificates ≫= certificate_nodes ->
       report' !! ("RTCCertificate_" +:+ rtc.fingerprint node)
       = Some (certificate_record timestamp_us node)) ∧
    (∀ k, (∀ node, node ∈ certificates ≫= certificate_nodes ->
                   k ≠ "RTCCertificate_" +:+ rtc.fingerprint node) ->
       report' !! k = report !! k).
Proof.
  induction certificates as [|certificate certificates IH] using rev_ind;
    intros report Hnd Hfresh.
  - simpl. split; [| done]. intros node Hin. by apply elem_of_nil in Hin.
  - rewrite foldl_app. cbv zeta. simpl.
    set (r1 := foldl _ report certificates).
    assert (Hin_l : ∀ node, node ∈ certificates ≫= certificate_nodes ->
              node ∈ (certificates ++ [certificate]) ≫= certificate_nodes).
    { intros node Hin. rewrite bind_app. apply elem_of_app. by left. }
    assert (Hin_r : ∀ node, node ∈ certificate_nodes certificate ->
              node ∈ (certificates ++ [certificate]) ≫= certificate_nodes).
    { intros node Hin. rewrite bind_app. apply elem_of_app. right. simpl.
      by rewrite app_nil_r. }
    rewrite bind_app, fmap_app in Hnd. simpl in Hnd.
    rewrite app_nil_r in Hnd.
    apply NoDup_app in Hnd as (Hnd1 & Hdisj & Hnd2).
    assert (Hapart : ∀ node node',
              node ∈ certificates ≫= certificate_nodes ->
              node' ∈ certificate_nodes certificate ->
              "RTCCertificate_" +:+ rtc.fingerprint node
              ≠ "RTCCertificate_" +:+ rtc.fingerprint node').
    { intros node node' Hin Hin' E. apply certificate_stats_id_inj in E.
      apply (Hdisj (rtc.fingerprint node)).
      - apply list_elem_of_fmap. by exists node.
      - rewrite E. apply list_elem_of_fmap. by exists node'. }
    destruct (IH report Hnd1) as [IH1 IH2].
    { intros node Hin. by apply Hfresh, Hin_l. }
    fold r1 in IH1, IH2.
    destruct (certificate_nodes_walk timestamp_us certificate r1 Hnd2)
      as [Hrec Hother].
    { intros node Hin. rewrite IH2; [by apply Hfresh, Hin_r |].
      intros node' Hin' E. by apply (Hapart node' node). }
    split.
    + intros node Hin. rewrite bind_app in Hin. simpl in Hin.
      rewrite app_nil_r in Hin.
      apply elem_of_app in Hin as [Hin | Hin]; [| by apply Hrec].
      rewrite Hother; [by apply IH1 |].
      intros node' Hin'. by apply Hapart.
    + intros k Hk. rewrite Hother.
      * apply IH2. intros node Hin. by apply Hk, Hin_l.
      * intros node Hin. by apply Hk, Hin_r.
Qed.

(** X8.  The certificates of a whole session.  [ProduceCertificateStats_s]
    always goes through on the signaling thread.  When no fingerprint
    occurs twice among the nodes of the chains of the session's
    certificates (for every transport the local one, then the remote one)
    and the report holds nothing under their ids, then the report keeps
    what it held and gains one object for every node of every chain: under
    [RTCCertificate_] followed by the node's fingerprint, with the node's
    fingerprint, algorithm and certificate, and with the id of the object
    of the node's issuer, undefined for a node without issuer. *)
Theorem session_certificates_linked c pc timestamp_us session_stats
    (report : RTCStatsReport) :
  NoDup (rtc.fingerprint
           <$> (session_certificates pc session_stats ≫= certificate_nodes)) ->
  (∀ node,
     node ∈ session_certificates pc session_stats ≫= certificate_nodes ->
     report !! ("RTCCertificate_" +:+ rtc.fingerprint node) = None) ->
  ∃ report' : RTCStatsReport,
    ProduceCertificateStats_s c (signaling_thread_ c) pc timestamp_us
      session_stats report = Some report' ∧
    report ⊆ report' ∧
    size report'
    = (size report
       + length (session_certificates pc session_stats ≫= certificate_nodes))%nat ∧
    ∀ node,
      node ∈ session_certificates pc session_stats ≫= certificate_nodes ->
      report' !! ("RTCCertificate_" +:+ rtc.fingerprint node)
      = Some
          {| RTCStats.id := "RTCCertificate_" +:+ rtc.fingerprint node;
             RTCStats.timestamp_us := timestamp_us;
             RTCStats.members := Certificate
               {| RTCCertificateStats.fingerprint :=
                    Some (rtc.fingerprint node);
                  RTCCertificateStats.fingerprint_algorithm :=
                    Some (rtc.fingerprint_algorithm node);
                  RTCCertificateStats.base64_certificate :=
                    Some (rtc.base64_certificate node);
                  RTCCertificateStats.issuer_certificate_id :=
                    (fun issuer => "RTCCertificate_" +:+ rtc.fingerprint issuer)
                      <$> rtc.issuer node |} |}.
Proof.
  intros Hnd Hfresh. rewrite ProduceCertificateStats_s_walks.
  eexists. split; [reflexivity |].
  set (nodes := session_certificates pc session_stats ≫= certificate_nodes)
    in *.
  destruct (walks_lookup timestamp_us (session_certificates pc session_stats)
              report Hnd Hfresh) as [Hrec Hother].
  fold nodes in Hrec, Hother.
  set (report' := foldl _ report (session_certificates pc session_stats)) in *.
  assert (Hsub : report ⊆ report').
  { apply map_subseteq_spec. intros k x Hk. rewrite Hother; [done |].
    intros node Hin ->. rewrite (Hfresh node Hin) in Hk. discriminate Hk. }
  split; [exact Hsub |]. split; [| exact Hrec].
  assert (Hdom : dom report'
                 = dom report ∪ list_to_set (certificate_stats_id <$> nodes)).
  { apply set_eq. intros k.
    rewrite elem_of_union, elem_of_list_to_set, !elem_of_dom. split.
    - intros Hk.
      destruct (decide (k ∈ certificate_stats_id <$> nodes)) as [Hin | Hnin];
        [by right |].
      left. rewrite <- Hother; [done |].
      intros node Hin ->. apply Hnin. apply list_elem_of_fmap. by exists node.
    - intros [[x Hx] | Hin].
      + exists x. by eapply lookup_weaken.
      + apply list_elem_of_fmap in Hin as (node & -> & Hin).
        unfold certificate_stats_id. rewrite (Hrec node Hin). eauto. }
  rewrite <- !size_dom, Hdom. rewrite size_union.
  - rewrite size_list_to_set, length_fmap; [done |].
    by apply chain_ids_NoDup.
  - intros k Hk1 Hk2. apply elem_of_list_to_set in Hk2.
    apply list_elem_of_fmap in Hk2 as (node & -> & Hin).
    apply elem_of_dom in Hk1 as [x Hx].
    unfold certificate_stats_id in Hx. rewrite (Hfresh node Hin) in Hx.
    discriminate Hx.
Qed.

(** Two transports: the first has the chain A, B as its local certificate
    and C as its remote one, the second has D as its local certificate. *)
Definition two_transports : SessionStats :=
  {| transport_stats :=
       [("audio", {| cricket.transport_name := "audio";
                     cricket.channel_stats := [] |});
        ("video", {| cricket.transport_name := "video";
                     cricket.channel_stats := [] |})] |}.

Definition certificate_of (s : rtc.SSLCertificateStats) : rtc.SSLCertificate :=
  {| rtc.GetStats := Some s |}.

Definition two_transports_peer_connection : PeerConnection :=
  {| session :=
       {| signaling_thread := 1%nat;
          worker_thread := 2%nat;
          network_thread := 3%nat;
          GetTransportStats := Some two_transports;
          GetLocalCertificate := fun transport_name =>
            Some {| rtc.ssl_certificate :=
                      if String.eqb transport_name "audio"
                      then certificate_of chain_A_B
                      else certificate_of (example_certificate "D" None) |};
          GetRemoteSSLCertificate := fun transport_name =>
            if String.eqb transport_name "audio"
            then Some (certificate_of (example_certificate "C" None))
            else None |};
     sctp_data_channels := [] |}.

Lemma session_certificates_linked_witness :
  ∃ report' : RTCStatsReport,
    ProduceCertificateStats_s example_collector 1%nat
      two_transports_peer_connection 7 two_transports ∅ = Some report' ∧
    size report' = 4%nat ∧
    report' !! "RTCCertificate_A"
    = Some (certificate_stats_of "RTCCertificate_" 7 chain_A_B
              (Some "RTCCertificate_B")) ∧
    report' !! "RTCCertificate_D"
    = Some (certificate_stats_of "RTCCertificate_" 7
              (example_certificate "D" None) None).
Proof.
  destruct (session_certificates_linked example_collector
              two_transports_peer_connection 7 two_transports ∅)
    as (report' & H1 & _ & H2 & H3).
  - apply (bool_decide_unpack _). vm_compute. reflexivity.
  - intros node _. apply lookup_empty.
  - exists report'. split; [exact H1 |]. split; [exact H2 |]. split.
    + apply (H3 chain_A_B). by left.
    + apply (H3 (example_certificate "D" None)). do 3 right. by left.
Defined.

(** ** The objects of the candidates *)

(** Whenever [ProduceIceCandidateStats_s] returns, the report is the one it
    was given, with the candidate's object added when no object was under
    the candidate's id. *)
Lemma ProduceIceCandidateStats_s_result K c cur timestamp_us candidate is_local
    (report : RTCStatsReport) id report' :
  ProduceIceCandidateStats_s K c cur timestamp_us candidate is_local report
  = Some (id, report') ->
  report'
  = add_if_absent (candidate_stats_of K timestamp_us is_local candidate) report.
Proof.
  unfold ProduceIceCandidateStats_s, Get, add_if_absent.
  destruct (RTC_DCHECK (IsCurrent _ _)); [| done].
  cbn [mbind option_bind mret option_ret].
  change (RTCStats.id (candidate_stats_of K timestamp_us is_local candidate))
    with ("RTCIceCandidate_" +:+ cricket.id candidate).
  destruct (report !! ("RTCIceCandidate_" +:+ cricket.id candidate))
    as [stats|].
  - cbn [mbind option_bind].
    destruct (RTC_DCHECK _); [| done]. cbn [mbind option_bind].
    by intros [= _ <-].
  - destruct (CandidateTypeToRTCIceCandidateType K (cricket.type candidate))
      as [candidate_type|] eqn:Hty; [| done].
    cbn [mbind option_bind].
    destruct (RTC_DCHECK _); [| done]. cbn [mbind option_bind].
    intros [= _ <-].
    unfold candidate_stats_of, AddStats, candidate_stats_id. by rewrite Hty.
Qed.

Lemma ProduceIceCandidateAndPairStats_info_result K c cur timestamp_us info
    (report report' : RTCStatsReport) :
  ProduceIceCandidateAndPairStats_info K c cur timestamp_us info report
  = Some report' ->
  ∃ pair,
    report'
    = <[candidate_pair_stats_id info := pair]>
        (add_if_absent
           (candidate_stats_of K timestamp_us false
              (cricket.remote_candidate info))
           (add_if_absent
              (candidate_stats_of K timestamp_us true
                 (cricket.local_candidate info))
              report)).
Proof.
  unfold ProduceIceCandidateAndPairStats_info.
  destruct (ProduceIceCandidateStats_s K c cur timestamp_us
              (cricket.local_candidate info) true report)
    as [[local_id r1]|] eqn:H1; simpl; [| done].
  destruct (ProduceIceCandidateStats_s K c cur timestamp_us
              (cricket.remote_candidate info) false r1)
    as [[remote_id r2]|] eqn:H2; simpl; [| done].
  intros [= <-].
  apply ProduceIceCandidateStats_s_result in H1, H2. subst r1 r2.
  eexists. reflexivity.
Qed.

(** The candidates of the entries with their side, in the order in which
    the producer asks for their objects: for every entry the local
    candidate, then the remote one. *)
Definition visited_candidates (infos : list cricket.ConnectionInfo)
  : list (bool * cricket.Candidate) :=
  infos ≫= fun info =>
    [(true, cricket.local_candidate info);
     (false, cricket.remote_candidate info)].

(** The first of them that has a given id. *)
Fixpoint first_candidate (id : string)
    (candidates : list (bool * cricket.Candidate))
  : option (bool * cricket.Candidate) :=
  match candidates with
  | [] => None
  | x :: rest =>
      if String.eqb (cricket.id x.2) id then Some x
      else first_candidate id rest
  end.

Lemma add_if_absent_lookup_candidate K timestamp_us is_local candidate
    (report : RTCStatsReport) id :
  add_if_absent (candidate_stats_of K timestamp_us is_local candidate) report
    !! ("RTCIceCandidate_" +:+ id)
  = match report !! ("RTCIceCandidate_" +:+ id) with
    | Some stats => Some stats
    | None =>
        if String.eqb (cricket.id candidate) id
        then Some (candidate_stats_of K timestamp_us is_local candidate)
        else None
    end.
Proof.
  destruct (String.eqb_spec (cricket.id candidate) id) as [<- | Hne].
  - pose proof (add_if_absent_lookup
                  (candidate_stats_of K timestamp_us is_local candidate) report)
      as H.
    rewrite candidate_stats_of_id in H. unfold candidate_stats_id in H.
    rewrite H. by destruct (report !! _).
  - rewrite add_if_absent_lookup_ne.
    + by destruct (report !! _).
    + rewrite candidate_stats_of_id. unfold candidate_stats_id. intros E.
      apply Hne. by simplify_eq/=.
Qed.

Lemma for_each_info_candidates K c cur timestamp_us infos :
  ∀ report report' : RTCStatsReport,
    for_each (ProduceIceCandidateAndPairStats_info K c cur timestamp_us)
      infos report = Some report' ->
    ∀ id,
      report' !! ("RTCIceCandidate_" +:+ id)
      = match report !! ("RTCIceCandidate_" +:+ id) with
        | Some stats => Some stats
        | None =>
            (fun x => candidate_stats_of K timestamp_us x.1 x.2)
              <$> first_candidate id (visited_candidates infos)
        end.
Proof.
  induction infos as [|info infos IH]; intros report report'; simpl.
  - intros [= <-] id. by destruct (report !! _).
  - destruct (ProduceIceCandidateAndPairStats_info K c cur timestamp_us info
                report) as [r1|] eqn:H1; simpl; [| done].
    intros Hrest id. rewrite (IH r1 report' Hrest id).
    apply ProduceIceCandidateAndPairStats_info_result in H1 as [pair ->].
    rewrite lookup_insert_ne.
    2:{ change ("RTCIceCandidate_" +:+ id)
          with (candidate_stats_id
                  {| cricket.id := id;
                     cricket.address := cricket.address
                                          (cricket.local_candidate info);
                     cricket.protocol := ""; cricket.type := "";
                     cricket.priority := 0 |}).
        apply pair_id_not_candidate_id. }
    rewrite !add_if_absent_lookup_candidate.
    destruct (report !! ("RTCIceCandidate_" +:+ id)); [done |].
    change (visited_candidates (info :: infos))
      with ((true, cricket.local_candidate info)
            :: (false, cricket.remote_candidate info)
            :: visited_candidates infos).
    simpl.
    destruct (String.eqb (cricket.id (cricket.local_candidate info)) id);
      [done |].
    by destruct (String.eqb (cricket.id (cricket.remote_candidate info)) id).
Qed.

Lemma to_int32_small (z : Z) : 0 <= z < 2 ^ 31 -> to_int32 z = z.
Proof. intros H. unfold to_int32. rewrite Z.mod_small; lia. Qed.

Lemma to_int32_large (z : Z) :
  2 ^ 31 <= z < 2 ^ 32 -> to_int32 z = z - 2 ^ 32.
Proof.
  intros H. unfold to_int32.
  replace (z + 2 ^ 31) with (z - 2 ^ 31 + 1 * 2 ^ 32) by lia.
  rewrite Z.mod_add by lia. rewrite Z.mod_small; lia.
Qed.

(** X9.  The object of a candidate is made from the first candidate with
    that id that the producer meets.  After
    [ProduceIceCandidateAndPairStats_s] has gone through on an empty report,
    for a session that has no pair id twice, the report holds, under
    [RTCIceCandidate_] followed by an id, the object made for the first
    candidate with that id in the order of the entries (local before
    remote), and nothing when no candidate has the id: a later candidate
    with the same id and another address, protocol, type or priority leaves
    no trace.  The object carries the candidate's address, its port, its
    protocol, the translation of its type and its priority, and no url; the
    port, a [uint16_t], is kept as it is, and the priority, a [uint32_t],
    is kept up to 2^31 - 1 and comes out negative, less 2^32, from 2^31
    on. *)
Theorem candidate_object_of_first_occurrence K c timestamp_us session_stats
    (report' : RTCStatsReport) :
  NoDup (candidate_pair_stats_id <$> session_infos session_stats) ->
  ProduceIceCandidateAndPairStats_s K c (signaling_thread_ c) timestamp_us
    session_stats ∅ = Some report' ->
  (∀ id,
     report' !! ("RTCIceCandidate_" +:+ id)
     = (fun x => candidate_stats_of K timestamp_us x.1 x.2)
         <$> first_candidate id
               (visited_candidates (session_infos session_stats))) ∧
  (∀ is_local candidate,
     0 <= cricket.port (cricket.address candidate) < 2 ^ 16 ->
     0 <= cricket.priority candidate < 2 ^ 32 ->
     candidate_stats_of K timestamp_us is_local candidate
     = {| RTCStats.id := "RTCIceCandidate_" +:+ cricket.id candidate;
          RTCStats.timestamp_us := timestamp_us;
          RTCStats.members :=
            (if is_local then LocalIceCandidate else RemoteIceCandidate)
              {| RTCIceCandidateStats.ip :=
                   Some (cricket.ipaddr (cricket.address candidate));
                 RTCIceCandidateStats.port :=
                   Some (cricket.port (cricket.address candidate));
                 RTCIceCandidateStats.protocol :=
                   Some (cricket.protocol candidate);
                 RTCIceCandidateStats.candidate_type :=
                   CandidateTypeToRTCIceCandidateType K
                     (cricket.type candidate);
                 RTCIceCandidateStats.priority :=
                   Some (if cricket.priority candidate <? 2 ^ 31
                         then cricket.priority candidate
                         else cricket.priority candidate - 2 ^ 32);
                 RTCIceCandidateStats.url := None |} |}).
Proof.
  intros _ Hrun. split.
  - intros id. rewrite ProduceIceCandidateAndPairStats_s_flat in Hrun.
    rewrite (for_each_info_candidates K c _ timestamp_us _ ∅ report' Hrun id).
    by rewrite lookup_empty.
  - intros is_local candidate Hport Hprio.
    unfold candidate_stats_of, new_RTCIceCandidateStats, candidate_stats_id.
    rewrite (to_int32_small (cricket.port _)) by lia.
    destruct (Z.ltb_spec (cricket.priority candidate) (2 ^ 31)).
    + rewrite (to_int32_small (cricket.priority _)) by lia. by destruct is_local.
    + rewrite (to_int32_large (cricket.priority _)) by lia. by destruct is_local.
Qed.

(** Two entries whose local candidates share the id [Lx] and differ in
    the rest; the first has the greatest priority a [uint32_t] holds. *)
Definition first_Lx : cricket.Candidate :=
  {| cricket.id := "Lx";
     cricket.address := {| cricket.ipaddr := "1.2.3.4"; cricket.port := 5 |};
     cricket.protocol := "udp";
     cricket.type := "local";
     cricket.priority := 4294967295 |}.

Definition second_Lx : cricket.Candidate :=
  {| cricket.id := "Lx";
     cricket.address := {| cricket.ipaddr := "6.7.8.9"; cricket.port := 10 |};
     cricket.protocol := "tcp";
     cricket.type := "stun";
     cricket.priority := 1 |}.

Definition same_id_session : SessionStats :=
  session_of
    [ {| cricket.local_candidate := first_Lx;
         cricket.remote_candidate := example_candidate "Rx" "local";
         cricket.writable := true;
         cricket.sent_total_bytes := 0; cricket.recv_total_bytes := 0;
         cricket.rtt := 0; cricket.sent_ping_requests_total := 0;
         cricket.recv_ping_responses := 0; cricket.sent_ping_responses := 0 |};
      {| cricket.local_candidate := second_Lx;
         cricket.remote_candidate := example_candidate "Ry" "local";
         cricket.writable := true;
         cricket.sent_total_bytes := 0; cricket.recv_total_bytes := 0;
         cricket.rtt := 0; cricket.sent_ping_requests_total := 0;
         cricket.recv_ping_responses := 0; cricket.sent_ping_responses := 0 |} ].

Lemma candidate_object_of_first_occurrence_witness :
  ∃ report' : RTCStatsReport,
    ProduceIceCandidateAndPairStats_s webrtc_constants example_collector
      1%nat 7 same_id_session ∅ = Some report' ∧
    report' !! "RTCIceCandidate_Lx"
    = Some {| RTCStats.id := "RTCIceCandidate_Lx";
              RTCStats.timestamp_us := 7;
              RTCStats.members := LocalIceCandidate
                {| RTCIceCandidateStats.ip := Some "1.2.3.4";
                   RTCIceCandidateStats.port := Some 5;
                   RTCIceCandidateStats.protocol := Some "udp";
                   RTCIceCandidateStats.candidate_type := Some "host";
                   RTCIceCandidateStats.priority := Some (-1);
                   RTCIceCandidateStats.url := None |} |}.
Proof.
  destruct (ProduceIceCandidateAndPairStats_s webrtc_constants
              example_collector 1%nat 7 same_id_session ∅)
    as [report'|] eqn:Hrun; [| discriminate Hrun].
  exists report'. split; [reflexivity |].
  assert (Hnd : NoDup (candidate_pair_stats_id
                         <$> session_infos same_id_session)).
  { apply (bool_decide_unpack _). vm_compute. reflexivity. }
  destruct (candidate_object_of_first_occurrence webrtc_constants
              example_collector 7 same_id_session report' Hnd Hrun)
    as [H1 H2].
  pose proof (H1 "Lx") as E.
  change ("RTCIceCandidate_" +:+ "Lx") with "RTCIceCandidate_Lx" in E.
  change (first_candidate "Lx"
            (visited_candidates (session_infos same_id_session)))
    with (Some (true, first_Lx)) in E.
  rewrite E. cbn [fmap option_fmap option_map fst snd].
  rewrite (H2 true first_Lx) by (simpl; lia). reflexivity.
Defined.

(** ** The expectations of the collector's test

    rtcstatscollector_unittest.cc checks the reports of the collector with
    helpers that state, by [EXPECT_...], what a report must hold for a
    candidate and for a certificate.  They are embedded here as the
    functions that tell whether every expectation of a call holds;
    [EXPECT_EQ( *member, v)] holds when the member is defined and is [v],
    and a [cast_to<T>] of an object of another class counts as a failed
    expectation. *)

(** [ExpectReportContainsCandidate(report, candidate, is_local)]: whether
    its expectations hold; the pointer to the object, which it returns for
    [ExpectReportContainsCandidatePair], is left out. *)
Definition ExpectReportContainsCandidate (K : cricket.Constants)
    (report : RTCStatsReport) (candidate : cricket.Candidate)
    (is_local : bool) : bool :=
  match Get ("RTCIceCandidate_" +:+ cricket.id candidate) report with
  | None => false
  | Some stats =>
      match RTCStats.members stats, is_local with
      | LocalIceCandidate candidate_stats, true
      | RemoteIceCandidate candidate_stats, false =>
          bool_decide (RTCIceCandidateStats.ip candidate_stats
                       = Some (cricket.ipaddr (cricket.address candidate))) &&
          bool_decide (RTCIceCandidateStats.port candidate_stats
                       = Some (to_int32
                                 (cricket.port (cricket.address candidate)))) &&
          bool_decide (RTCIceCandidateStats.protocol candidate_stats
                       = Some (cricket.protocol candidate)) &&
          match CandidateTypeToRTCIceCandidateType K (cricket.type candidate)
          with
          | Some candidate_type =>
              bool_decide (RTCIceCandidateStats.candidate_type candidate_stats
                           = Some candidate_type)
          | None => false
          end &&
          bool_decide (RTCIceCandidateStats.priority candidate_stats
                       = Some (to_int32 (cricket.priority candidate))) &&
          bool_decide (RTCIceCandidateStats.url candidate_stats = None)
      | _, _ => false
      end
  end.

(** [CertificateInfo]: what the test keeps of a certificate, for every
    node of its chain, leaf first. *)
Record CertificateInfo := {
  certificate : rtc.RTCCertificate;
  ders : list string;
  pems : list string;
  fingerprints : list string
}.

(** [ExpectReportContainsCertificateInfo(report, cert_info)]: the loop over
    the indices of [cert_info.fingerprints]. *)
Definition ExpectReportContainsCertificateInfo (report : RTCStatsReport)
    (cert_info : CertificateInfo) : bool :=
  forallb (fun i =>
    match fingerprints cert_info !! i, pems cert_info !! i with
    | Some fingerprint, Some pem =>
        match Get ("RTCCertificate_" +:+ fingerprint) report with
        | None => false
        | Some stats =>
            match RTCStats.members stats with
            | Certificate cert_stats =>
                bool_decide (RTCCertificateStats.fingerprint cert_stats
                             = Some fingerprint) &&
                bool_decide (RTCCertificateStats.fingerprint_algorithm
                               cert_stats = Some "sha-1") &&
                bool_decide (RTCCertificateStats.base64_certificate cert_stats
                             = Some pem) &&
                match fingerprints cert_info !! (i + 1)%nat with
                | Some issuer_fingerprint =>
                    bool_decide
                      (RTCCertificateStats.issuer_certificate_id cert_stats
                       = Some ("RTCCertificate_" +:+ issuer_fingerprint))
                | None =>
                    bool_decide
                      (RTCCertificateStats.issuer_certificate_id cert_stats
                       = None)
                end
            | _ => false
            end
        end
    | _, _ => false
    end) (seq 0 (length (fingerprints cert_info))).

(** A candidate's object is made only for a type that has a translation. *)
Lemma ProduceIceCandidateStats_s_known K c cur timestamp_us candidate is_local
    (report : RTCStatsReport) id report' :
  ProduceIceCandidateStats_s K c cur timestamp_us candidate is_local report
  = Some (id, report') ->
  report !! ("RTCIceCandidate_" +:+ cricket.id candidate) = None ->
  is_Some (CandidateTypeToRTCIceCandidateType K (cricket.type candidate)).
Proof.
  unfold ProduceIceCandidateStats_s, Get.
  destruct (RTC_DCHECK (IsCurrent _ _)); [| done].
  cbn [mbind option_bind]. intros H Hnone. rewrite Hnone in H.
  destruct (CandidateTypeToRTCIceCandidateType K (cricket.type candidate));
    [eauto | done].
Qed.

Lemma for_each_info_known K c cur timestamp_us infos :
  ∀ report report' : RTCStatsReport,
    for_each (ProduceIceCandidateAndPairStats_info K c cur timestamp_us)
      infos report = Some report' ->
    ∀ id x,
      report !! ("RTCIceCandidate_" +:+ id) = None ->
      first_candidate id (visited_candidates infos) = Some x ->
      is_Some (CandidateTypeToRTCIceCandidateType K (cricket.type x.2)).
Proof.
  induction infos as [|info infos IH]; intros report report'; simpl; [done |].
  destruct (ProduceIceCandidateAndPairStats_info K c cur timestamp_us info
              report) as [r|] eqn:Hinfo; simpl; [| done].
  intros Hrest id x Hnone.
  change (visited_candidates (info :: infos))
    with ((true, cricket.local_candidate info)
          :: (false, cricket.remote_candidate info)
          :: visited_candidates infos).
  pose proof Hinfo as Hshape.
  apply ProduceIceCandidateAndPairStats_info_result in Hshape as [pair Hr].
  unfold ProduceIceCandidateAndPairStats_info in Hinfo.
  destruct (ProduceIceCandidateStats_s K c cur timestamp_us
              (cricket.local_candidate info) true report)
    as [[local_id r1]|] eqn:H1; [| done].
  cbn [mbind option_bind] in Hinfo.
  destruct (ProduceIceCandidateStats_s K c cur timestamp_us
              (cricket.remote_candidate info) false r1)
    as [[remote_id r2]|] eqn:H2; [| done].
  pose proof (ProduceIceCandidateStats_s_result _ _ _ _ _ _ _ _ _ H1) as Hr1.
  simpl.
  destruct (String.eqb_spec (cricket.id (cricket.local_candidate info)) id)
    as [El | Hl].
  - intros [= <-]. simpl.
    apply (ProduceIceCandidateStats_s_known _ _ _ _ _ _ _ _ _ H1).
    by rewrite El.
  - destruct (String.eqb_spec (cricket.id (cricket.remote_candidate info)) id)
      as [Er | Hr'].
    + intros [= <-]. simpl.
      apply (ProduceIceCandidateStats_s_known _ _ _ _ _ _ _ _ _ H2).
      rewrite Hr1, Er, add_if_absent_lookup_candidate, Hnone.
      by destruct (String.eqb_spec (cricket.id (cricket.local_candidate info))
                     id).
    + apply (IH r report' Hrest). rewrite Hr.
      rewrite lookup_insert_ne.
      2:{ change ("RTCIceCandidate_" +:+ id)
            with (candidate_stats_id
                    {| cricket.id := id;
                       cricket.address := cricket.address
                                            (cricket.local_candidate info);
                       cricket.protocol := ""; cricket.type := "";
                       cricket.priority := 0 |}).
          apply pair_id_not_candidate_id. }
      rewrite !add_if_absent_lookup_candidate, Hnone.
      destruct (String.eqb_spec (cricket.id (cricket.local_candidate info))
                  id); [done |].
      by destruct (String.eqb_spec
                     (cricket.id (cricket.remote_candidate info)) id).
Qed.

(** A candidate is the first of its id among those visited, or equal to
    the first. *)
Definition agrees_with_first (is_local : bool) (candidate : cricket.Candidate)
    (infos : list cricket.ConnectionInfo) : Prop :=
  first_candidate (cricket.id candidate) (visited_candidates infos)
  = Some (is_local, candidate).

(** X10.  The expectation of the test for candidates holds of every report
    of the producer, not only of those of the test.  After
    [ProduceIceCandidateAndPairStats_s] has gone through on an empty report,
    for a session that has no pair id twice,
    [ExpectReportContainsCandidate] holds, with the side it is visited on,
    for every candidate that is the first of its id that the producer
    visits or is equal to that one. *)
Theorem candidates_pass_the_expectation K c timestamp_us session_stats
    (report' : RTCStatsReport) candidate is_local :
  NoDup (candidate_pair_stats_id <$> session_infos session_stats) ->
  ProduceIceCandidateAndPairStats_s K c (signaling_thread_ c) timestamp_us
    session_stats ∅ = Some report' ->
  agrees_with_first is_local candidate (session_infos session_stats) ->
  ExpectReportContainsCandidate K report' candidate is_local = true.
Proof.
  intros _ Hrun Hfirst. rewrite ProduceIceCandidateAndPairStats_s_flat in Hrun.
  pose proof (for_each_info_candidates K c _ timestamp_us _ ∅ report' Hrun
                (cricket.id candidate)) as Hlook.
  rewrite lookup_empty, Hfirst in Hlook. simpl in Hlook.
  destruct (for_each_info_known K c _ timestamp_us _ ∅ report' Hrun
              (cricket.id candidate) (is_local, candidate)
              (lookup_empty _) Hfirst) as [candidate_type Hty].
  simpl in Hty.
  unfold ExpectReportContainsCandidate, Get. rewrite Hlook.
  unfold candidate_stats_of, new_RTCIceCandidateStats. simpl.
  rewrite Hty.
  destruct is_local; simpl; by rewrite !bool_decide_eq_true_2.
Qed.

Lemma candidates_pass_the_expectation_witness :
  ∃ report' : RTCStatsReport,
    ProduceIceCandidateAndPairStats_s webrtc_constants example_collector
      1%nat 7 same_id_session ∅ = Some report' ∧
    ExpectReportContainsCandidate webrtc_constants report' first_Lx true
    = true.
Proof.
  destruct (ProduceIceCandidateAndPairStats_s webrtc_constants
              example_collector 1%nat 7 same_id_session ∅)
    as [report'|] eqn:Hrun; [| discriminate Hrun].
  exists report'. split; [reflexivity |].
  apply (candidates_pass_the_expectation webrtc_constants example_collector
           7 same_id_session report' first_Lx true).
  - apply (bool_decide_unpack _). vm_compute. reflexivity.
  - exact Hrun.
  - reflexivity.
Defined.

(** What the test keeps agrees with the nodes of a certificate: their
    fingerprints and their base64 texts, in the order of the chain, and
    "sha-1" as the algorithm of each, as [FakeSSLCertificate] has it. *)
Definition describes (cert_info : CertificateInfo)
    (nodes : list rtc.SSLCertificateStats) : Prop :=
  fingerprints cert_info = rtc.fingerprint <$> nodes ∧
  pems cert_info = rtc.base64_certificate <$> nodes ∧
  Forall (fun node => rtc.fingerprint_algorithm node = "sha-1") nodes.

Lemma certificate_nodes_next certificate :
  ∀ i x, certificate_nodes certificate !! i = Some x ->
         certificate_nodes certificate !! S i = rtc.issuer x.
Proof.
  unfold certificate_nodes. destruct (rtc.GetStats certificate) as [s|].
  - apply chain_nodes_next.
  - done.
Qed.

(** X11.  The expectation of the test for certificates holds of every
    report of the producer.  When no fingerprint occurs twice among the
    chain nodes of a session and no node's id is in the report,
    [ProduceCertificateStats_s] goes through, and
    [ExpectReportContainsCertificateInfo] holds of its report for each
    certificate of the session, local or remote, and a [CertificateInfo]
    that lists the fingerprints and base64 texts of its chain, leaf first,
    all of algorithm "sha-1". *)
Theorem certificates_pass_the_expectation c pc timestamp_us session_stats
    (report : RTCStatsReport) certificate cert_info :
  NoDup (rtc.fingerprint
           <$> (session_certificates pc session_stats ≫= certificate_nodes)) ->
  (∀ node,
     node ∈ session_certificates pc session_stats ≫= certificate_nodes ->
     report !! ("RTCCertificate_" +:+ rtc.fingerprint node) = None) ->
  certificate ∈ session_certificates pc session_stats ->
  describes cert_info (certificate_nodes certificate) ->
  ∃ report' : RTCStatsReport,
    ProduceCertificateStats_s c (signaling_thread_ c) pc timestamp_us
      session_stats report = Some report' ∧
    ExpectReportContainsCertificateInfo report' cert_info = true.
Proof.
  intros Hnd Hfresh Hin (Hfp & Hpem & Halg).
  rewrite ProduceCertificateStats_s_walks.
  eexists. split; [reflexivity |].
  destruct (walks_lookup timestamp_us (session_certificates pc session_stats)
              report Hnd Hfresh) as [Hrec _].
  unfold ExpectReportContainsCertificateInfo. apply forallb_forall.
  intros i Hi. apply in_seq in Hi as [_ Hi]. simpl in Hi.
  rewrite Hfp, Hpem, !list_lookup_fmap.
  rewrite Hfp, length_fmap in Hi.
  destruct (lookup_lt_is_Some_2 _ _ Hi) as [node Hnode].
  rewrite Hnode. simpl. unfold Get.
  rewrite Hrec.
  2:{ apply list_elem_of_bind. exists certificate. split; [| exact Hin].
      by eapply list_elem_of_lookup_2. }
  unfold certificate_record, certificate_stats_of. simpl.
  rewrite Nat.add_1_r, (certificate_nodes_next _ _ _ Hnode).
  rewrite (proj1 (Forall_lookup _ _) Halg i node Hnode).
  destruct (rtc.issuer node); cbn [fmap option_fmap option_map];
    rewrite !bool_decide_eq_true_2 by reflexivity; reflexivity.
Qed.

(** What the test would keep of the chain A, B. *)
Definition chain_A_B_info : CertificateInfo :=
  {| certificate := {| rtc.ssl_certificate := certificate_of chain_A_B |};
     ders := ["der of A"; "der of B"];
     pems := ["pem of A"; "pem of B"];
     fingerprints := ["A"; "B"] |}.

Lemma certificates_pass_the_expectation_witness :
  ∃ report' : RTCStatsReport,
    ProduceCertificateStats_s example_collector 1%nat
      two_transports_peer_connection 7 two_transports ∅ = Some report' ∧
    ExpectReportContainsCertificateInfo report' chain_A_B_info = true.
Proof.
  apply (certificates_pass_the_expectation example_collector
           two_transports_peer_connection 7 two_transports ∅
           (certificate_of chain_A_B) chain_A_B_info).
  - apply (bool_decide_unpack _). vm_compute. reflexivity.
  - intros node _. apply lookup_empty.
  - by left.
  - split; [reflexivity |]. split; [reflexivity |].
    by repeat constructor.
Defined.

(** ** What every partial report of the signaling thread satisfies *)

(** The report holds, under [id], an object of the class [type]. *)
Definition holds (report : RTCStatsReport) (id : string) (type : StatsType)
  : Prop :=
  ∃ stats, report !! id = Some stats ∧ RTCStats.type stats = type.

(** The class of an object shows in the id it is filed under. *)
Definition class_in_id (id : string) (stats : RTCStats.t) : Prop :=
  match RTCStats.members stats with
  | Certificate m =>
      ∃ fingerprint,
        id = "RTCCertificate_" +:+ fingerprint ∧
        RTCCertificateStats.fingerprint m = Some fingerprint
  | LocalIceCandidate _ | RemoteIceCandidate _ =>
      ∃ candidate_id, id = "RTCIceCandidate_" +:+ candidate_id
  | IceCandidatePair _ =>
      ∃ local_id remote_id,
        id = "RTCIceCandidatePair_" +:+ local_id +:+ "_" +:+ remote_id
  | PeerConnectionSummary _ => id = "RTCPeerConnection"
  end.

(** The ids that an object names are ids of objects of the report, of the
    class that the member asks for. *)
Definition names_resolve (report : RTCStatsReport) (stats : RTCStats.t)
  : Prop :=
  match RTCStats.members stats with
  | Certificate m =>
      ∀ issuer, RTCCertificateStats.issuer_certificate_id m = Some issuer ->
                holds report issuer RTCCertificateStats_kType
  | IceCandidatePair m =>
      (∃ local_id,
         RTCIceCandidatePairStats.local_candidate_id m = Some local_id ∧
         holds report local_id RTCLocalIceCandidateStats_kType) ∧
      (∃ remote_id,
         RTCIceCandidatePairStats.remote_candidate_id m = Some remote_id ∧
         holds report remote_id RTCRemoteIceCandidateStats_kType)
  | _ => True
  end.

Definition well_formed (timestamp_us : Z) (report : RTCStatsReport) : Prop :=
  ∀ id stats, report !! id = Some stats ->
    RTCStats.id stats = id ∧
    RTCStats.timestamp_us stats = timestamp_us ∧
    class_in_id id stats ∧
    names_resolve report stats.

Lemma well_formed_empty timestamp_us : well_formed timestamp_us ∅.
Proof. intros id stats. by rewrite lookup_empty. Qed.

Definition is_candidate (stats : RTCStats.t) : Prop :=
  match RTCStats.members stats with
  | LocalIceCandidate _ | RemoteIceCandidate _ => True
  | _ => False
  end.

(** Two objects that may be filed under the same id are of the same class,
    the two classes of candidates apart. *)
Lemma class_in_id_type id (a b : RTCStats.t) :
  class_in_id id a -> class_in_id id b -> ¬ is_candidate b ->
  RTCStats.type a = RTCStats.type b.
Proof.
  unfold class_in_id, is_candidate, RTCStats.type.
  destruct (RTCStats.members a), (RTCStats.members b); try done;
    intros Ha Hb Hnc; try (by destruct Hnc); exfalso;
    repeat match goal with
           | H : ∃ _, _ |- _ => destruct H
           | H : _ ∧ _ |- _ => destruct H
           end; subst; discriminate.
Qed.

(** An object put in the place of one of its class: what the report held
    of some class under some id, it still holds. *)
Lemma holds_insert (report : RTCStatsReport) id stats i type :
  (∀ old, report !! id = Some old -> RTCStats.type old = RTCStats.type stats) ->
  holds report i type -> holds (<[id := stats]> report) i type.
Proof.
  intros Hold (s & Hs & Hty). unfold holds. rewrite lookup_insert.
  case_decide as E.
  - subst i. exists stats. split; [done |]. by rewrite <- (Hold s Hs).
  - by exists s.
Qed.

Lemma names_resolve_mono (report report' : RTCStatsReport) stats :
  (∀ i type, holds report i type -> holds report' i type) ->
  names_resolve report stats -> names_resolve report' stats.
Proof.
  intros Hmono. unfold names_resolve.
  destruct (RTCStats.members stats) as [m | m | m | m | m]; try done.
  - intros H issuer Hi. by apply Hmono, H.
  - intros [(l & Hl & Hhl) (r & Hr & Hhr)]. split.
    + exists l. split; [done | by apply Hmono].
    + exists r. split; [done | by apply Hmono].
Qed.

Lemma well_formed_insert timestamp_us (report : RTCStatsReport) stats :
  well_formed timestamp_us report ->
  RTCStats.timestamp_us stats = timestamp_us ->
  class_in_id (RTCStats.id stats) stats ->
  (¬ is_candidate stats ∨ report !! RTCStats.id stats = None) ->
  names_resolve (<[RTCStats.id stats := stats]> report) stats ->
  well_formed timestamp_us (<[RTCStats.id stats := stats]> report).
Proof.
  intros Hwf Hts Hclass Hkind Hnames.
  assert (Hold : ∀ old, report !! RTCStats.id stats = Some old ->
                        RTCStats.type old = RTCStats.type stats).
  { intros old Ho. destruct Hkind as [Hnc | Hnone]; [| congruence].
    destruct (Hwf _ _ Ho) as (_ & _ & Hc & _).
    by apply (class_in_id_type (RTCStats.id stats)). }
  intros id s. rewrite lookup_insert. case_decide as E.
  - subst id. intros [= <-]. done.
  - intros Hs. destruct (Hwf _ _ Hs) as (H1 & H2 & H3 & H4).
    split; [done |]. split; [done |]. split; [done |].
    revert H4. apply names_resolve_mono. intros i type.
    by apply holds_insert.
Qed.

(** One turn of the walk over a chain. *)
Lemma chain_turn_well_formed timestamp_us s prev_stats
    (report : RTCStatsReport) :
  well_formed timestamp_us report ->
  well_formed timestamp_us (chain_turn timestamp_us s prev_stats report).2.
Proof.
  intros Hwf. unfold chain_turn, AddStats. simpl.
  set (new_id := "RTCCertificate_" +:+ rtc.fingerprint s).
  set (linked := match prev_stats with
                 | Some prev =>
                     alter (set_issuer_certificate_id new_id) prev report
                 | None => report
                 end).
  assert (Hlinked : ∀ id stats, linked !! id = Some stats ->
            ∃ old, report !! id = Some old ∧
                   (stats = old ∨
                    (prev_stats = Some id ∧
                     stats = set_issuer_certificate_id new_id old))).
  { intros id stats. unfold linked. destruct prev_stats as [prev|].
    - rewrite lookup_alter. case_decide as E.
      + subst id. destruct (report !! prev) as [old|]; [| done].
        simpl. intros [= <-]. exists old. split; [done |]. by right.
      + intros H. exists stats. split; [done |]. by left.
    - intros H. exists stats. split; [done |]. by left. }
  assert (Hholds : ∀ i type, holds report i type ->
            holds (<[new_id := new_RTCCertificateStats timestamp_us s]> linked)
              i type).
  { intros i type (old & Ho & Hty). unfold holds. rewrite lookup_insert.
    case_decide as E.
    - subst i. eexists. split; [done |]. rewrite <- Hty.
      destruct (Hwf _ _ Ho) as (_ & _ & Hc & _). symmetry.
      apply (class_in_id_type new_id); [done | | by intros []].
      exists (rtc.fingerprint s). done.
    - unfold linked. destruct prev_stats as [prev|].
      + rewrite lookup_alter. case_decide.
        * subst i. rewrite Ho. simpl. eexists. split; [done |].
          by rewrite set_issuer_certificate_id_type.
        * by exists old.
      + by exists old. }
  intros id stats. rewrite lookup_insert. case_decide as E.
  - intros [= <-]. split; [done |]. split; [done |]. split.
    + exists (rtc.fingerprint s). done.
    + intros issuer Hi. done.
  - intros Hs. destruct (Hlinked _ _ Hs) as (old & Ho & Hcase).
    destruct (Hwf _ _ Ho) as (H1 & H2 & H3 & H4).
    destruct Hcase as [-> | [Hp ->]].
    + split; [done |]. split; [done |]. split; [done |].
      revert H4. by apply names_resolve_mono.
    + destruct old as [oid ots om]. simpl in *.
      destruct om as [m | m | m | m | m]; simpl in *;
        try (split; [done |]; split; [done |]; split; [done |];
             revert H4; by apply (names_resolve_mono report)).
      split; [done |]. split; [done |]. split; [done |].
      unfold names_resolve. simpl. intros issuer [= <-].
      unfold holds. rewrite lookup_insert_eq. eexists. split; done.
Qed.

Lemma chain_turns_well_formed timestamp_us nodes :
  ∀ prev_stats (report : RTCStatsReport),
    well_formed timestamp_us report ->
    well_formed timestamp_us
      (chain_turns timestamp_us nodes prev_stats report).2.
Proof.
  induction nodes as [|s rest IH]; intros prev_stats report Hwf; [done |].
  rewrite chain_turns_cons. by apply IH, chain_turn_well_formed.
Qed.

Lemma certificate_chain_well_formed c cur timestamp_us certificate
    (report report' : RTCStatsReport) :
  ProduceCertificateStatsFromSSLCertificateAndChain_s c cur timestamp_us
    certificate report = Some report' ->
  well_formed timestamp_us report -> well_formed timestamp_us report'.
Proof.
  unfold ProduceCertificateStatsFromSSLCertificateAndChain_s.
  destruct (RTC_DCHECK _); [| done]. simpl.
  destruct (rtc.GetStats certificate) as [s|]; intros [= <-]; [| done].
  rewrite chain_loop_turns. apply chain_turns_well_formed.
Qed.

Lemma ProduceCertificateStats_s_well_formed c cur pc timestamp_us session_stats
    (report report' : RTCStatsReport) :
  ProduceCertificateStats_s c cur pc timestamp_us session_stats report
    = Some report' ->
  well_formed timestamp_us report -> well_formed timestamp_us report'.
Proof.
  unfold ProduceCertificateStats_s.
  destruct (RTC_DCHECK _); [| done]. simpl. intros H Hwf.
  revert H. apply for_each_invariant; [| done].
  intros [name transport] r r' _ Hr. simpl.
  destruct (GetLocalCertificate _ _) as [local|]; simpl.
  - destruct (ProduceCertificateStatsFromSSLCertificateAndChain_s c cur
                timestamp_us (rtc.ssl_certificate local) r) as [r1|] eqn:E1;
      [| done].
    simpl. apply certificate_chain_well_formed in E1; [| done].
    destruct (GetRemoteSSLCertificate _ _) as [remote|].
    + intros E2. by apply certificate_chain_well_formed in E2.
    + by intros [= <-].
  - destruct (GetRemoteSSLCertificate _ _) as [remote|].
    + intros E2. by apply certificate_chain_well_formed in E2.
    + by intros [= <-].
Qed.

(** An object that is not a candidate's takes the place of an object of
    its own class only. *)
Lemma well_formed_same_class timestamp_us (report : RTCStatsReport) stats :
  well_formed timestamp_us report ->
  class_in_id (RTCStats.id stats) stats ->
  ¬ is_candidate stats ->
  ∀ old, report !! RTCStats.id stats = Some old ->
         RTCStats.type old = RTCStats.type stats.
Proof.
  intros Hwf Hclass Hnc old Ho.
  destruct (Hwf _ _ Ho) as (_ & _ & Hc & _).
  by apply (class_in_id_type (RTCStats.id stats)).
Qed.

(** One call of [ProduceIceCandidateStats_s]: the id it answers is the id
    of an object of the report, of the class of the candidate's side. *)
Lemma ProduceIceCandidateStats_s_well_formed K c cur timestamp_us candidate
    is_local (report report' : RTCStatsReport) id :
  ProduceIceCandidateStats_s K c cur timestamp_us candidate is_local report
    = Some (id, report') ->
  well_formed timestamp_us report ->
  well_formed timestamp_us report' ∧
  holds report' id (candidate_kType is_local) ∧
  (∀ i type, holds report i type -> holds report' i type).
Proof.
  unfold ProduceIceCandidateStats_s, Get.
  destruct (RTC_DCHECK (IsCurrent _ _)); [| done].
  cbn [mbind option_bind].
  destruct (report !! ("RTCIceCandidate_" +:+ cricket.id candidate))
    as [stats|] eqn:Hfound.
  - cbn [mbind option_bind].
    destruct (StatsType_eqb _ _) eqn:Hty; [| done]. cbn [RTC_DCHECK mbind option_bind].
    intros [= <- <-] Hwf. split; [done |]. split; [| done].
    destruct (Hwf _ _ Hfound) as (Hid & _).
    exists stats. rewrite Hid. split; [done |].
    by apply StatsType_eqb_eq in Hty.
  - destruct (CandidateTypeToRTCIceCandidateType K (cricket.type candidate))
      as [candidate_type|]; [| done].
    cbn [mbind option_bind].
    destruct (StatsType_eqb _ _) eqn:Hty; [| done]. cbn [RTC_DCHECK mbind option_bind].
    intros [= <- <-] Hwf. unfold AddStats.
    split; [| split].
    + apply well_formed_insert; try done.
      * unfold class_in_id. simpl.
        destruct is_local; by exists (cricket.id candidate).
      * by right.
      * unfold names_resolve. simpl. by destruct is_local.
    + unfold holds. simpl. rewrite lookup_insert_eq. eexists. split; [done |].
      by destruct is_local.
    + intros i type. apply holds_insert. simpl. intros old Ho. congruence.
Qed.

Lemma ProduceIceCandidateAndPairStats_info_well_formed K c cur timestamp_us
    info (report report' : RTCStatsReport) :
  ProduceIceCandidateAndPairStats_info K c cur timestamp_us info report
    = Some report' ->
  well_formed timestamp_us report -> well_formed timestamp_us report'.
Proof.
  unfold ProduceIceCandidateAndPairStats_info.
  destruct (ProduceIceCandidateStats_s K c cur timestamp_us
              (cricket.local_candidate info) true report)
    as [[local_id r1]|] eqn:E1; [| done].
  cbn [mbind option_bind].
  destruct (ProduceIceCandidateStats_s K c cur timestamp_us
              (cricket.remote_candidate info) false r1)
    as [[remote_id r2]|] eqn:E2; [| done].
  cbn [mbind option_bind]. intros [= <-] Hwf.
  destruct (ProduceIceCandidateStats_s_well_formed _ _ _ _ _ _ _ _ _ E1 Hwf)
    as (Hwf1 & Hl & _).
  destruct (ProduceIceCandidateStats_s_well_formed _ _ _ _ _ _ _ _ _ E2 Hwf1)
    as (Hwf2 & Hr & Hmono).
  set (pair := new_RTCIceCandidatePairStats _ timestamp_us local_id remote_id
                 info).
  assert (Hclass : class_in_id (RTCStats.id pair) pair).
  { eexists _, _. reflexivity. }
  assert (Hold := well_formed_same_class timestamp_us r2 pair Hwf2 Hclass
                    ltac:(by intros [])).
  unfold AddStats. apply well_formed_insert; try done.
  - left. by intros [].
  - split.
    + exists local_id. split; [done |]. apply holds_insert; [done |].
      by apply Hmono.
    + exists remote_id. split; [done |]. by apply holds_insert.
Qed.

Lemma ProduceIceCandidateAndPairStats_s_well_formed K c cur timestamp_us
    session_stats (report report' : RTCStatsReport) :
  ProduceIceCandidateAndPairStats_s K c cur timestamp_us session_stats report
    = Some report' ->
  well_formed timestamp_us report -> well_formed timestamp_us report'.
Proof.
  unfold ProduceIceCandidateAndPairStats_s.
  destruct (RTC_DCHECK _); [| done]. simpl. intros H Hwf.
  revert H. apply for_each_invariant; [| done].
  intros transport r r' _ Hr. apply for_each_invariant; [| done].
  intros channel r0 r0' _ Hr0. apply for_each_invariant; [| done].
  intros info r1 r1' _ Hr1 H.
  by eapply ProduceIceCandidateAndPairStats_info_well_formed.
Qed.

Lemma ProducePeerConnectionStats_s_well_formed c cur pc timestamp_us
    (report report' : RTCStatsReport) :
  ProducePeerConnectionStats_s c cur pc timestamp_us report = Some report' ->
  well_formed timestamp_us report -> well_formed timestamp_us report'.
Proof.
  unfold ProducePeerConnectionStats_s, AddStats.
  destruct (RTC_DCHECK _); [| done]. simpl. intros [= <-] Hwf.
  match goal with
  | |- well_formed _ (<[_ := ?s]> _) =>
      apply (well_formed_insert timestamp_us report s)
  end; try done.
  left. by intros [].
Qed.

Lemma signaling_partial_well_formed K c cur pc timestamp_us content :
  signaling_partial K c cur pc timestamp_us = Some content ->
  well_formed timestamp_us content.
Proof.
  unfold signaling_partial.
  destruct (GetTransportStats (session pc)) as [session_stats|].
  - destruct (ProduceCertificateStats_s c cur pc timestamp_us session_stats ∅)
      as [r1|] eqn:E1; [| done].
    cbn [mbind option_bind].
    destruct (ProduceIceCandidateAndPairStats_s K c cur timestamp_us
                session_stats r1) as [r2|] eqn:E2; [| done].
    cbn [mbind option_bind]. intros E3.
    apply ProduceCertificateStats_s_well_formed in E1;
      [| apply well_formed_empty].
    apply ProduceIceCandidateAndPairStats_s_well_formed in E2; [| done].
    by apply ProducePeerConnectionStats_s_well_formed in E3.
  - cbn [mbind option_bind]. intros E3.
    apply ProducePeerConnectionStats_s_well_formed in E3;
      [done | apply well_formed_empty].
Qed.

(** ** Runs: what the store of reports holds *)

(** The producers look at the collector for its signaling thread only. *)
Lemma signaling_partial_collector K (c c' : RTCStatsCollector) cur pc
    timestamp_us :
  signaling_thread_ c = signaling_thread_ c' ->
  signaling_partial K c cur pc timestamp_us
  = signaling_partial K c' cur pc timestamp_us.
Proof.
  intros E.
  unfold signaling_partial, ProduceCertificateStats_s,
    ProduceIceCandidateAndPairStats_s, ProducePeerConnectionStats_s,
    ProduceIceCandidateAndPairStats_info, ProduceIceCandidateStats_s,
    ProduceCertificateStatsFromSSLCertificateAndChain_s.
  by rewrite E.
Qed.

(** The UTC times that the requests of a run read, and what the peer
    connection answered to the invocations of the run. *)
Definition request_timestamps (es : list Event) : list Z :=
  omap (fun e => match e with
                 | call_GetStatsReport _ _ _ timestamp_us => Some timestamp_us
                 | _ => None
                 end) es.

Definition answers (es : list Event) : list PeerConnection :=
  omap (fun e => match e with
                 | run_invoked _ pc => Some pc
                 | _ => None
                 end) es.

(** A report is what the producers of the signaling thread made of one of
    the answers, for one of the requests. *)
Definition partial_of (K : cricket.Constants) (signaling : Thread)
    (es : list Event) (content : RTCStatsReport) : Prop :=
  ∃ c pc timestamp_us,
    signaling_thread_ c = signaling ∧
    pc ∈ answers es ∧
    timestamp_us ∈ request_timestamps es ∧
    signaling_partial K c signaling pc timestamp_us = Some content.

(** Through a run [es]: the thread handles and the lifetime stay as the
    constructor set them, a posted task of the signaling thread is bound to
    the UTC time of a request, and every report is empty or is what the
    producers of the signaling thread made. *)
Record store_inv (K : cricket.Constants) (c0 : RTCStatsCollector)
    (es : list Event) (w : World) : Prop := {
  si_signaling : signaling_thread_ (this w) = signaling_thread_ c0;
  si_worker : worker_thread_ (this w) = worker_thread_ c0;
  si_network : network_thread_ (this w) = network_thread_ c0;
  si_lifetime : cache_lifetime_us_ (this w) = cache_lifetime_us_ c0;
  si_tasks : ∀ timestamp_us,
    timestamp_us ∈ signaling_tasks (invoker_ (this w)) ->
    timestamp_us ∈ request_timestamps es;
  si_reports : ∀ a r, reports w !! a = Some r ->
    r = ∅ ∨ partial_of K (signaling_thread_ c0) es r
}.

Lemma partial_of_snoc K signaling es e content :
  partial_of K signaling es content ->
  partial_of K signaling (es ++ [e]) content.
Proof.
  intros (c & pc & ts & Hc & Hpc & Hts & Hp). exists c, pc, ts.
  split; [done |]. unfold answers, request_timestamps. rewrite !omap_app.
  split; [apply elem_of_app; by left |].
  split; [apply elem_of_app; by left | done].
Qed.

Lemma signaling_tasks_delete (l : list (Thread * Task)) i timestamp_us :
  timestamp_us ∈ signaling_tasks (delete i l) ->
  timestamp_us ∈ signaling_tasks l.
Proof.
  unfold signaling_tasks. rewrite !list_elem_of_omap.
  intros (x & Hx & Hm). exists x. split; [| done].
  by eapply list_elem_of_delete_inv.
Qed.

Lemma partial_has_summary K c cur pc timestamp_us content :
  signaling_partial K c cur pc timestamp_us = Some content ->
  is_Some (content !! "RTCPeerConnection").
Proof.
  intros H. apply signaling_partial_one_summary in H as [(stats & Hs & _) _].
  eauto.
Qed.

Lemma step_store_inv K c0 es e (w w' : World) :
  store_inv K c0 es w ->
  step K e w = Some w' ->
  store_inv K c0 (es ++ [e]) w'.
Proof.
  intros [Hsig Hwrk Hnet Hlife Htasks Hreports].
  assert (Hstamps : ∀ ts, ts ∈ request_timestamps es ->
                          ts ∈ request_timestamps (es ++ [e])).
  { intros ts Hts. unfold request_timestamps. rewrite omap_app.
    apply elem_of_app. by left. }
  assert (Hkeep : ∀ a r, reports w !! a = Some r ->
            r = ∅ ∨ partial_of K (signaling_thread_ c0) (es ++ [e]) r).
  { intros a r Hr. destruct (Hreports a r Hr) as [-> | Hp]; [by left |].
    right. by apply partial_of_snoc. }
  destruct e as [cur cb now ts | cur | i pc]; simpl.
  - unfold GetStatsReport.
    destruct (RTC_DCHECK _); simpl; [| done].
    destruct (cache_is_fresh _ _).
    + unfold DeliverCachedReport. simpl.
      destruct (RTC_DCHECK (IsCurrent _ _)); simpl; [| done].
      destruct (RTC_DCHECK (negb _)); simpl; [| done].
      destruct (cached_report_ (this w)); simpl; [| done].
      intros [= <-]. split; simpl; try done.
      intros t Ht. by apply Hstamps, Htasks.
    + destruct (_ =? 0); intros [= <-]; split; simpl; try done.
      * intros t. unfold signaling_tasks. rewrite omap_app, elem_of_app.
        intros [Ht | Ht].
        -- by apply Hstamps, Htasks.
        -- simpl in Ht. apply list_elem_of_singleton in Ht. subst t.
           unfold request_timestamps. rewrite omap_app, elem_of_app.
           right. simpl. by left.
      * intros t Ht. by apply Hstamps, Htasks.
  - unfold ClearCachedStatsReport.
    destruct (RTC_DCHECK _); simpl; [| done]. intros [= <-].
    split; simpl; try done. intros t Ht. by apply Hstamps, Htasks.
  - destruct (invoker_ (this w) !! i) as [[thread task]|] eqn:Hi; [| done].
    simpl. intros H.
    apply run_Task_inv in H as (p & store & Hb & Hrun).
    assert (Hin_task : ∀ ts,
              task = Bind_ProducePartialResultsOnSignalingThread ts ->
              ts ∈ request_timestamps (es ++ [run_invoked i pc])).
    { intros ts ->. apply Hstamps, Htasks. unfold signaling_tasks.
      apply list_elem_of_omap. exists (thread, Bind_ProducePartialResultsOnSignalingThread ts).
      split; [| done]. by eapply list_elem_of_lookup_2. }
    assert (Hstore : ∀ a r, store !! a = Some r ->
              r = ∅ ∨
              partial_of K (signaling_thread_ c0) (es ++ [run_invoked i pc]) r).
    { inversion Hb as [ts content Hcur Hpart | ts | ts | q]; subst;
        simpl in *; intros a r; rewrite ?lookup_insert;
        try (case_decide; [intros [= <-]; by left | by apply Hkeep]);
        try by apply Hkeep.
      case_decide; [| by apply Hkeep]. intros [= <-]. right.
      exists (this w), pc, ts. split; [done |].
      split.
      { unfold answers. rewrite omap_app, elem_of_app. right. simpl. by left. }
      split; [by apply Hin_task |].
      rewrite <- Hpart, Hsig.
      by apply signaling_partial_collector. }
    assert (Htasks' : ∀ t,
              t ∈ signaling_tasks (delete i (invoker_ (this w))) ->
              t ∈ request_timestamps (es ++ [run_invoked i pc])).
    { intros t Ht. by apply Hstamps, Htasks, (signaling_tasks_delete _ i). }
    destruct Hrun as [Hrun | [Hcur ->]].
    + apply AddPartialResults_s_inv in Hrun
        as (_ & _ & acc & store' & Hm & Hcases).
      assert (Hstore' : ∀ a r, store' !! a = Some r ->
                r = ∅ ∨
                partial_of K (signaling_thread_ c0)
                  (es ++ [run_invoked i pc]) r).
      { destruct Hm as [Hnone | a0 receiver victim Ha Hr Hv Hdisj];
          simpl in *; [done |].
        intros a r. rewrite lookup_insert.
        case_decide; [intros [= <-]; by left |].
        rewrite lookup_insert. case_decide; [| by apply Hstore].
        intros [= <-].
        destruct (Hstore _ _ Hr) as [-> | Hpr].
        - rewrite (left_id_L ∅ (∪)). by eapply Hstore.
        - destruct (Hstore _ _ Hv) as [-> | Hpv].
          + rewrite (right_id_L ∅ (∪)). by right.
          + exfalso.
            destruct Hpr as (c1 & pc1 & ts1 & _ & _ & _ & H1).
            destruct Hpv as (c2 & pc2 & ts2 & _ & _ & _ & H2).
            apply partial_has_summary in H1 as [x1 Hx1].
            apply partial_has_summary in H2 as [x2 Hx2].
            exact (proj1 (map_disjoint_spec receiver victim) Hdisj
                     _ _ _ Hx1 Hx2). }
      destruct Hcases as [[_ ->] | (_ & _ & ->)]; split; simpl; done.
    + split; simpl; try done.
      intros t. rewrite signaling_tasks_snoc_posted. apply Htasks'.
Qed.

Lemma run_snoc K es e (w : World) :
  run K (es ++ [e]) w = run K es w ≫= step K e.
Proof.
  rewrite run_app. destruct (run K es w) as [w1|]; simpl; [| done].
  by destruct (step K e w1).
Qed.

Lemma store_inv_Create K pc cache_lifetime_us c :
  Create pc cache_lifetime_us = Some c -> store_inv K c [] (new_World c).
Proof.
  unfold Create. destruct (RTC_DCHECK _); simpl; [| done]. intros [= <-].
  split; simpl; done.
Qed.

Lemma run_store_inv K c0 es :
  ∀ w : World,
    store_inv K c0 [] (new_World c0) ->
    run K es (new_World c0) = Some w ->
    store_inv K c0 es w.
Proof.
  induction es as [|e es IH] using rev_ind; intros w H0.
  - simpl. by intros [= <-].
  - rewrite run_snoc.
    destruct (run K es (new_World c0)) as [w1|] eqn:Hrun; simpl; [| done].
    intros Hstep. eapply step_store_inv; [| exact Hstep]. by apply IH.
Qed.

(** Every published report is what the producers of the signaling thread
    made of one answer of the peer connection, for one request. *)
Lemma published_partial_of K pc0 cache_lifetime_us c es (w : World) p :
  Create pc0 cache_lifetime_us = Some c ->
  run K es (new_World c) = Some w ->
  published w p ->
  ∃ content,
    reports w !! p = Some content ∧
    partial_of K (signaling_thread_ c) es content.
Proof.
  intros Hc Hrun Hpub.
  destruct (run_inv K es _ _ (collector_inv_Create _ _ _ Hc) Hrun)
    as (Hinv & _ & _).
  destruct (inv_published _ Hinv p Hpub) as (content & Hcontent & Hone).
  pose proof (run_store_inv K c es w (store_inv_Create K _ _ _ Hc) Hrun)
    as Hstore.
  exists content. split; [done |].
  destruct (si_reports _ _ _ _ Hstore p content Hcontent) as [-> | Hp];
    [| done].
  by apply one_summary_not_empty in Hone.
Qed.

(** X12.  What a callback is given is the work of the signaling thread alone.
    In every world that a collector reaches from its creation, every
    published report holds exactly what [ProduceCertificateStats_s],
    [ProduceIceCandidateAndPairStats_s] and [ProducePeerConnectionStats_s]
    made, in this order from an empty report, of what the peer connection
    answered to one invocation of the run, with the UTC time that one
    request of the run read: the worker and the network thread add nothing
    to it, and the merge adds nothing and takes nothing away. *)
Theorem published_report_is_signaling_partial K pc0 cache_lifetime_us c es
    (w : World) p :
  Create pc0 cache_lifetime_us = Some c ->
  run K es (new_World c) = Some w ->
  published w p ->
  ∃ content pc timestamp_us,
    reports w !! p = Some content ∧
    pc ∈ answers es ∧
    timestamp_us ∈ request_timestamps es ∧
    (content0 ←
       match GetTransportStats (session pc) with
       | Some session_stats =>
           content ← ProduceCertificateStats_s c (signaling_thread_ c) pc
                       timestamp_us session_stats ∅;
           ProduceIceCandidateAndPairStats_s K c (signaling_thread_ c)
             timestamp_us session_stats content
       | None => Some ∅
       end;
     ProducePeerConnectionStats_s c (signaling_thread_ c) pc timestamp_us
       content0)
    = Some content.
Proof.
  intros Hc Hrun Hpub.
  destruct (published_partial_of K pc0 cache_lifetime_us c es w p Hc Hrun Hpub)
    as (content & Hcontent & c1 & pc & ts & Hc1 & Hpc & Hts & Hpart).
  exists content, pc, ts.
  split; [exact Hcontent |]. split; [exact Hpc |]. split; [exact Hts |].
  change (signaling_partial K c (signaling_thread_ c) pc ts = Some content).
  rewrite <- Hpart. by apply signaling_partial_collector.
Qed.

(** A peer connection with one transport, one pair of candidates and the
    chain A, B as the local certificate. *)
Definition busy_peer_connection : PeerConnection :=
  {| session :=
       {| signaling_thread := 1%nat;
          worker_thread := 2%nat;
          network_thread := 3%nat;
          GetTransportStats := Some (session_of [example_info "Lx" "Rx"]);
          GetLocalCertificate := fun _ =>
            Some {| rtc.ssl_certificate := {| rtc.GetStats := Some chain_A_B |} |};
          GetRemoteSSLCertificate := fun _ => None |};
     sctp_data_channels := [ {| state := DataChannelInterface.kOpen |} ] |}.

Lemma busy_cycle_runs :
  ∃ w,
    run webrtc_constants (one_cycle 11%nat 100 busy_peer_connection)
      (new_World example_collector) = Some w ∧
    cached_report_ (this w) = Some 0%nat.
Proof.
  eexists. split.
  - vm_compute. reflexivity.
  - vm_compute. reflexivity.
Qed.

Lemma published_report_is_signaling_partial_witness :
  ∃ (w : World) (content : RTCStatsReport),
    run webrtc_constants (one_cycle 11%nat 100 busy_peer_connection)
      (new_World example_collector) = Some w ∧
    reports w !! 0%nat = Some content ∧
    signaling_partial webrtc_constants example_collector 1%nat
      busy_peer_connection 99 = Some content.
Proof.
  destruct busy_cycle_runs as (w & Hrun & Hc).
  assert (Hpub : published w 0%nat) by by left.
  destruct (published_report_is_signaling_partial webrtc_constants no_channels
              50000 example_collector _ w 0%nat eq_refl Hrun Hpub)
    as (content & pc & ts & Hcontent & Hpc & Hts & Hpart).
  exists w, content. split; [exact Hrun |]. split; [exact Hcontent |].
  assert (Epc : pc = busy_peer_connection).
  { assert (Hall : Forall (fun x => x = busy_peer_connection)
                     (answers (one_cycle 11%nat 100 busy_peer_connection)))
      by (repeat constructor).
    rewrite Forall_forall in Hall. by apply Hall. }
  assert (Ets : ts = 99).
  { simpl in Hts. by apply list_elem_of_singleton in Hts. }
  subst pc ts. exact Hpart.
Defined.

(** The peer connection hands over every certificate and every candidate
    pair once: among the nodes of the chains of the session's certificates
    no fingerprint occurs twice, and no two entries have the same pair id.
    Every object that the producers give to the report then has an id that
    the report does not hold yet. *)
Definition ids_once (pc : PeerConnection) : Prop :=
  ∀ session_stats,
    GetTransportStats (session pc) = Some session_stats ->
    NoDup (rtc.fingerprint
             <$> (session_certificates pc session_stats ≫= certificate_nodes)) ∧
    NoDup (candidate_pair_stats_id <$> session_infos session_stats).

Lemma busy_peer_connection_ids_once : ids_once busy_peer_connection.
Proof.
  intros session_stats [= <-].
  split; apply (bool_decide_unpack _); vm_compute; reflexivity.
Qed.

(** X13.  In every published report of a run in which the peer connection
    hands over every certificate and every candidate pair once, every
    object is filed under its own id, all objects carry one and the same
    timestamp, the UTC time that one request of the run read, and the class
    of an object can be read off its id: a certificate is under
    [RTCCertificate_] and its fingerprint, a candidate under
    [RTCIceCandidate_...], a candidate pair under
    [RTCIceCandidatePair_..._...], the summary under [RTCPeerConnection]. *)
Theorem published_objects_filed_and_stamped K pc0 cache_lifetime_us c es
    (w : World) p :
  Create pc0 cache_lifetime_us = Some c ->
  run K es (new_World c) = Some w ->
  (∀ pc, pc ∈ answers es -> ids_once pc) ->
  published w p ->
  ∃ content timestamp_us,
    reports w !! p = Some content ∧
    timestamp_us ∈ request_timestamps es ∧
    ∀ id stats, content !! id = Some stats ->
      Get id content = Some stats ∧
      RTCStats.id stats = id ∧
      RTCStats.timestamp_us stats = timestamp_us ∧
      class_in_id id stats.
Proof.
  intros Hc Hrun _ Hpub.
  destruct (published_partial_of K pc0 cache_lifetime_us c es w p Hc Hrun Hpub)
    as (content & Hcontent & c1 & pc & ts & _ & _ & Hts & Hpart).
  exists content, ts. split; [done |]. split; [done |].
  intros id stats Hs.
  destruct (signaling_partial_well_formed K _ _ _ _ _ Hpart id stats Hs)
    as (H1 & H2 & H3 & _).
  done.
Qed.

Lemma busy_answers_ids_once :
  ∀ pc, pc ∈ answers (one_cycle 11%nat 100 busy_peer_connection) ->
        ids_once pc.
Proof.
  assert (Hall : Forall (fun x => x = busy_peer_connection)
                   (answers (one_cycle 11%nat 100 busy_peer_connection)))
    by (repeat constructor).
  rewrite Forall_forall in Hall. intros pc Hpc. rewrite (Hall pc Hpc).
  apply busy_peer_connection_ids_once.
Qed.

Lemma published_objects_filed_and_stamped_witness :
  ∃ (w : World) (content : RTCStatsReport),
    run webrtc_constants (one_cycle 11%nat 100 busy_peer_connection)
      (new_World example_collector) = Some w ∧
    reports w !! 0%nat = Some content ∧
    ∀ id stats, content !! id = Some stats ->
      RTCStats.id stats = id ∧ RTCStats.timestamp_us stats = 99.
Proof.
  destruct busy_cycle_runs as (w & Hrun & Hc).
  assert (Hpub : published w 0%nat) by by left.
  destruct (published_objects_filed_and_stamped webrtc_constants no_channels
              50000 example_collector _ w 0%nat eq_refl Hrun
              busy_answers_ids_once Hpub)
    as (content & ts & Hcontent & Hts & Hall).
  exists w, content. split; [exact Hrun |]. split; [exact Hcontent |].
  assert (Ets : ts = 99).
  { simpl in Hts. by apply list_elem_of_singleton in Hts. }
  subst ts. intros id stats Hs. destruct (Hall id stats Hs) as (_ & H1 & H2 & _).
  by split.
Defined.

(** X14.  In every published report of a run in which the peer connection
    hands over every certificate and every candidate pair once, the ids
    that objects name lead somewhere: the [issuer_certificate_id] of a
    certificate, when defined, is the id of a certificate of the same
    report, and the [local_candidate_id] and [remote_candidate_id] of a
    candidate pair are defined and are the ids of a local and of a remote
    candidate of the same report. *)
Theorem published_names_resolve K pc0 cache_lifetime_us c es (w : World) p :
  Create pc0 cache_lifetime_us = Some c ->
  run K es (new_World c) = Some w ->
  (∀ pc, pc ∈ answers es -> ids_once pc) ->
  published w p ->
  ∃ content,
    reports w !! p = Some content ∧
    ∀ id stats, content !! id = Some stats ->
      match RTCStats.members stats with
      | Certificate m =>
          ∀ issuer,
            RTCCertificateStats.issuer_certificate_id m = Some issuer ->
            ∃ issuer_stats,
              Get issuer content = Some issuer_stats ∧
              RTCStats.type issuer_stats = RTCCertificateStats_kType
      | IceCandidatePair m =>
          (∃ local_id local_stats,
             RTCIceCandidatePairStats.local_candidate_id m = Some local_id ∧
             Get local_id content = Some local_stats ∧
             RTCStats.type local_stats = RTCLocalIceCandidateStats_kType) ∧
          (∃ remote_id remote_stats,
             RTCIceCandidatePairStats.remote_candidate_id m = Some remote_id ∧
             Get remote_id content = Some remote_stats ∧
             RTCStats.type remote_stats = RTCRemoteIceCandidateStats_kType)
      | _ => True
      end.
Proof.
  intros Hc Hrun _ Hpub.
  destruct (published_partial_of K pc0 cache_lifetime_us c es w p Hc Hrun Hpub)
    as (content & Hcontent & c1 & pc & ts & _ & _ & _ & Hpart).
  exists content. split; [done |].
  intros id stats Hs.
  destruct (signaling_partial_well_formed K _ _ _ _ _ Hpart id stats Hs)
    as (_ & _ & _ & H).
  unfold names_resolve, holds in H.
  destruct (RTCStats.members stats) as [m | m | m | m | m]; try done.
  destruct H as [(l & Hl & ls & Hls & Htl) (r & Hr & rs & Hrs & Htr)].
  split; [by exists l, ls | by exists r, rs].
Qed.

Lemma published_names_resolve_witness :
  ∃ (w : World) (content : RTCStatsReport) pair_stats m local_stats,
    run webrtc_constants (one_cycle 11%nat 100 busy_peer_connection)
      (new_World example_collector) = Some w ∧
    reports w !! 0%nat = Some content ∧
    content !! "RTCIceCandidatePair_Lx_Rx" = Some pair_stats ∧
    RTCStats.members pair_stats = IceCandidatePair m ∧
    RTCIceCandidatePairStats.local_candidate_id m = Some "RTCIceCandidate_Lx" ∧
    content !! "RTCIceCandidate_Lx" = Some local_stats ∧
    RTCStats.type local_stats = RTCLocalIceCandidateStats_kType.
Proof.
  destruct busy_cycle_runs as (w & Hrun & Hc).
  assert (Hpub : published w 0%nat) by by left.
  destruct (published_names_resolve webrtc_constants no_channels
              50000 example_collector _ w 0%nat eq_refl Hrun
              busy_answers_ids_once Hpub)
    as (content & Hcontent & Hall).
  assert (Hpair : ∃ pair_stats m,
            content !! "RTCIceCandidatePair_Lx_Rx" = Some pair_stats ∧
            RTCStats.members pair_stats = IceCandidatePair m ∧
            RTCIceCandidatePairStats.local_candidate_id m
            = Some "RTCIceCandidate_Lx").
  { assert (Hl : (w ← run webrtc_constants
                          (one_cycle 11%nat 100 busy_peer_connection)
                          (new_World example_collector);
                    content ← reports w !! 0%nat;
                    stats ← content !! "RTCIceCandidatePair_Lx_Rx";
                    match RTCStats.members stats with
                    | IceCandidatePair m =>
                        RTCIceCandidatePairStats.local_candidate_id m
                    | _ => None
                    end)
                 = Some "RTCIceCandidate_Lx")
      by (vm_compute; reflexivity).
    rewrite Hrun in Hl. cbn [mbind option_bind] in Hl. clear Hrun Hall.
    change (reports w !! 0%nat = Some content) in Hcontent.
    rewrite Hcontent in Hl. cbn [mbind option_bind] in Hl.
    destruct (content !! "RTCIceCandidatePair_Lx_Rx") as [pair_stats|];
      [| done].
    cbn [mbind option_bind] in Hl. exists pair_stats.
    destruct (RTCStats.members pair_stats) as [| | | m |] eqn:Hm; try done.
    by exists m. }
  destruct Hpair as (pair_stats & m & Hp & Hm & Hl).
  specialize (Hall _ _ Hp). rewrite Hm in Hall.
  destruct Hall as [(l & ls & Hl' & Hls & Htl) _].
  rewrite Hl in Hl'. injection Hl' as <-.
  exists w, content, pair_stats, m, ls.
  split; [exact Hrun |]. split; [exact Hcontent |]. split; [exact Hp |].
  split; [exact Hm |]. split; [exact Hl |]. split; [exact Hls | exact Htl].
Defined.

(** ** Runs with a monotonic clock: the checks of the collector hold *)

(** The thread that a posted invocation is posted to. *)
Definition thread_of (c : RTCStatsCollector) (task : Task) : Thread :=
  match task with
  | Bind_ProducePartialResultsOnSignalingThread _
  | Bind_AddPartialResults_s _ => signaling_thread_ c
  | Bind_ProducePartialResultsOnWorkerThread _ => worker_thread_ c
  | Bind_ProducePartialResultsOnNetworkThread _ => network_thread_ c
  end.

(** [rtc::TimeMicros()] is monotonic: the readings [cache_now_us] of the
    requests of a run, in their order, never go down, and none is below
    [t]. *)
Fixpoint clock_from (t : Z) (es : list Event) : Prop :=
  match es with
  | [] => True
  | call_GetStatsReport _ _ cache_now_us _ :: es' =>
      t <= cache_now_us ∧ clock_from cache_now_us es'
  | _ :: es' => clock_from t es'
  end.

(** What holds of a collector whose clock has not read less than a value
    it read before, [t] being the last reading: every posted invocation
    sits with the thread it is meant for; callbacks are queued exactly
    while contributions are pending; and while contributions are pending,
    the cycle started no later than [t], at a time when the cache held no
    report that could be served. *)
Record clock_inv (t : Z) (w : World) : Prop := {
  ci_threads : ∀ thread task,
    (thread, task) ∈ invoker_ (this w) -> thread = thread_of (this w) task;
  ci_waiting :
    0 < num_pending_partial_reports_ (this w) -> callbacks_ (this w) ≠ [];
  ci_idle :
    num_pending_partial_reports_ (this w) = 0 -> callbacks_ (this w) = [];
  ci_stale :
    0 < num_pending_partial_reports_ (this w) ->
    cached_report_ (this w) = None ∨
    cache_lifetime_us_ (this w)
      < partial_report_timestamp_us_ (this w) - cache_timestamp_us_ (this w);
  ci_started :
    0 < num_pending_partial_reports_ (this w) ->
    partial_report_timestamp_us_ (this w) <= t
}.

Lemma clock_inv_Create pc cache_lifetime_us c t :
  Create pc cache_lifetime_us = Some c -> clock_inv t (new_World c).
Proof.
  unfold Create. destruct (RTC_DCHECK _); simpl; [| done]. intros [= <-].
  split; simpl; try done; try lia.
  intros thread task Hin. by apply elem_of_nil in Hin.
Qed.

Lemma cache_is_fresh_inv (c : RTCStatsCollector) cache_now_us :
  cache_is_fresh c cache_now_us = true ->
  is_Some (cached_report_ c) ∧
  cache_now_us - cache_timestamp_us_ c <= cache_lifetime_us_ c.
Proof.
  unfold cache_is_fresh. intros H. apply andb_true_iff in H as [H1 H2].
  split; [by apply bool_decide_eq_true_1 in H1 | by apply Z.leb_le].
Qed.

Lemma cache_is_fresh_stale (c : RTCStatsCollector) cache_now_us :
  cache_is_fresh c cache_now_us = false ->
  cached_report_ c = None ∨
  cache_lifetime_us_ c < cache_now_us - cache_timestamp_us_ c.
Proof.
  unfold cache_is_fresh. intros H. apply andb_false_iff in H as [H | H].
  - left. apply bool_decide_eq_false_1 in H.
    destruct (cached_report_ c); [| done]. exfalso. apply H. eauto.
  - right. apply Z.leb_gt in H. lia.
Qed.

Lemma GetStatsReport_clock_inv t cur callback cache_now_us timestamp_us
    (w w' : World) :
  collector_inv w ->
  clock_inv t w ->
  t <= cache_now_us ->
  GetStatsReport cur callback cache_now_us timestamp_us w = Some w' ->
  clock_inv cache_now_us w'.
Proof.
  intros Hinv [Hthreads Hwaiting Hidle Hstale Hstarted] Hclock.
  pose proof (inv_count _ Hinv) as Hcount.
  assert (Hnonneg : 0 <= num_pending_partial_reports_ (this w)) by lia.
  unfold GetStatsReport.
  destruct (RTC_DCHECK _); simpl; [| done].
  rewrite cache_is_fresh_set_callbacks_.
  destruct (cache_is_fresh (this w) cache_now_us) eqn:Hfresh.
  - apply cache_is_fresh_inv in Hfresh as [[cached Hcached] Hage].
    assert (Hzero : num_pending_partial_reports_ (this w) = 0).
    { destruct (decide (0 < num_pending_partial_reports_ (this w)))
        as [Hpos |]; [| lia].
      destruct (Hstale Hpos) as [Hn | Hs]; [congruence |].
      specialize (Hstarted Hpos). lia. }
    unfold DeliverCachedReport. simpl.
    destruct (RTC_DCHECK (IsCurrent _ _)); simpl; [| done].
    destruct (RTC_DCHECK (negb _)); simpl; [| done].
    rewrite Hcached. simpl. intros [= <-].
    split; simpl; try done; lia.
  - apply cache_is_fresh_stale in Hfresh.
    destruct (_ =? 0) eqn:Hzero; intros [= <-]; split; simpl; try done;
      try lia.
    + intros thread task Hin. apply elem_of_app in Hin as [Hin | Hin].
      * by apply Hthreads.
      * repeat (apply elem_of_cons in Hin as [[= -> ->] | Hin]; [done |]).
        by apply elem_of_nil in Hin.
    + intros _. by destruct (callbacks_ (this w)).
    + intros _. by destruct (callbacks_ (this w)).
Qed.

Lemma thread_of_threads (c c' : RTCStatsCollector) task :
  signaling_thread_ c' = signaling_thread_ c ->
  worker_thread_ c' = worker_thread_ c ->
  network_thread_ c' = network_thread_ c ->
  thread_of c' task = thread_of c task.
Proof. intros H1 H2 H3. by destruct task. Qed.

Lemma run_invoked_clock_inv K t i pc (w w' : World) :
  clock_inv t w ->
  step K (run_invoked i pc) w = Some w' ->
  clock_inv t w'.
Proof.
  intros [Hthreads Hwaiting Hidle Hstale Hstarted]. simpl.
  destruct (invoker_ (this w) !! i) as [[thread task]|] eqn:Hi; [| done].
  simpl. intros H.
  apply run_Task_inv in H as (p & store & _ & Hrun).
  assert (Hdel : ∀ thread task,
            (thread, task) ∈ delete i (invoker_ (this w)) ->
            thread = thread_of (this w) task).
  { intros th ta Hin. by eapply Hthreads, list_elem_of_delete_inv. }
  destruct Hrun as [Hrun | [Hcur ->]].
  - apply AddPartialResults_s_inv in Hrun
      as (_ & Hpos & acc & store' & _ & [[Hn ->] | (Hn & Hcb & ->)]);
      simpl in *.
    + split; simpl; try done; try lia.
      * intros _. by apply Hwaiting.
      * intros _. by apply Hstale.
    + split; simpl; try done; lia.
  - split; simpl; try done.
    intros th ta Hin. apply elem_of_app in Hin as [Hin | Hin].
    + by apply Hdel.
    + apply list_elem_of_singleton in Hin. by injection Hin as -> ->.
Qed.

Lemma step_clock_inv K t e (w w' : World) :
  collector_inv w ->
  clock_inv t w ->
  clock_from t [e] ->
  step K e w = Some w' ->
  ∃ t', clock_inv t' w' ∧
        ∀ es, clock_from t (e :: es) -> clock_from t' es.
Proof.
  intros Hinv Hci Hclock Hstep.
  destruct e as [cur cb now ts | cur | i pc].
  - exists now. destruct Hclock as [Hle _]. split.
    + by eapply GetStatsReport_clock_inv.
    + by intros es [_ H].
  - exists t. split; [| done].
    revert Hstep. simpl. unfold ClearCachedStatsReport.
    destruct (RTC_DCHECK _); simpl; [| done]. intros [= <-].
    destruct Hci as [Hthreads Hwaiting Hidle Hstale Hstarted].
    split; simpl; try done. intros _. by left.
  - exists t. split; [| done]. by eapply run_invoked_clock_inv.
Qed.

Lemma run_clock_inv K es :
  ∀ t (w w' : World),
    collector_inv w ->
    clock_inv t w ->
    clock_from t es ->
    run K es w = Some w' ->
    collector_inv w' ∧ ∃ t', clock_inv t' w'.
Proof.
  induction es as [|e es IH]; intros t w w' Hinv Hci Hclock; simpl.
  - intros [= <-]. eauto.
  - destruct (step K e w) as [w1|] eqn:Hstep; simpl; [| done].
    intros Hrun.
    destruct (step_inv K e w w1 Hinv Hstep) as (Hinv1 & _).
    destruct (step_clock_inv K t e w w1 Hinv Hci) as (t1 & Hci1 & Hnext);
      [destruct e; simpl in *; tauto | done |].
    by apply (IH t1 w1 w' Hinv1 Hci1 (Hnext es Hclock)).
Qed.

(** The report that a task brings can be merged: either the accumulator
    or the report is empty. *)
Lemma pre_merge_merges (w : World) p from_signaling :
  pre_merge w p from_signaling ->
  ∃ accumulator store, merges w p accumulator store.
Proof.
  intros [_ _ (content & Hp & Hcontent) _ Hacc _ _ _ _ _].
  destruct (partial_report_ (this w)) as [a|] eqn:Ha.
  - destruct (Hacc a eq_refl) as (_ & r & Hr & He & _).
    eexists _, _. eapply merges_later; [done | done | done |].
    destruct from_signaling.
    + rewrite He by by left. apply map_disjoint_empty_l.
    + subst content. apply map_disjoint_empty_r.
  - eexists _, _. by apply merges_first.
Qed.

Lemma AddPartialResults_s_returns (w : World) p from_signaling :
  pre_merge w p from_signaling ->
  callbacks_ (this w) ≠ [] ->
  is_Some (AddPartialResults_s (signaling_thread_ (this w)) p w).
Proof.
  intros Hpm Hcb.
  destruct (pre_merge_merges w p from_signaling Hpm) as (acc & store & Hm).
  pose proof (pm_count _ _ _ Hpm) as Hcount.
  destruct (decide (num_pending_partial_reports_ (this w) = 1)) as [H1 | H1].
  - rewrite (AddPartialResults_s_completes w p acc store H1 Hcb Hm). eauto.
  - rewrite (AddPartialResults_s_continues w p acc store); [eauto | lia | done].
Qed.

Lemma run_invoked_returns K t i pc (w : World) thread task :
  collector_inv w ->
  clock_inv t w ->
  invoker_ (this w) !! i = Some (thread, task) ->
  (∀ timestamp_us,
     task = Bind_ProducePartialResultsOnSignalingThread timestamp_us ->
     is_Some (signaling_partial K (this w) (signaling_thread_ (this w)) pc
                timestamp_us)) ->
  is_Some (step K (run_invoked i pc) w).
Proof.
  intros Hinv Hci Hi Hready. simpl. rewrite Hi. simpl.
  set (w0 := upd_this (fun c => set_invoker_ (delete i (invoker_ c)) c) w).
  assert (Hthread : thread = thread_of (this w) task).
  { apply (ci_threads _ _ Hci). by eapply list_elem_of_lookup_2. }
  assert (Hcb : callbacks_ (this w) ≠ []).
  { apply (ci_waiting _ _ Hci). rewrite (inv_count _ Hinv).
    apply lookup_lt_Some in Hi. lia. }
  assert (Hmerge : ∀ p store,
            brings K thread pc w0 task p store ->
            is_Some (AddPartialResults_s (signaling_thread_ (this w)) p
                       (set_reports store w0))).
  { intros p store Hb.
    destruct (brings_pre_merge K thread pc w i task p store Hinv Hi Hb)
      as [Hpm _].
    exact (AddPartialResults_s_returns (set_reports store w0) p
             (is_signaling_task task) Hpm Hcb). }
  assert (Hadd : ∀ p store,
            brings K thread pc w0 task p store ->
            is_Some (AddPartialResults thread p (set_reports store w0))).
  { intros p store Hb. unfold AddPartialResults. simpl.
    destruct (IsCurrent (signaling_thread_ (this w)) thread) eqn:E; simpl.
    - apply IsCurrent_true in E. rewrite E. by apply Hmerge.
    - eauto. }
  destruct task as [ts | ts | ts | p]; simpl in Hthread; subst thread; simpl.
  - rewrite ProducePartialResultsOnSignalingThread_eq.
    change (signaling_thread_ (this w0)) with (signaling_thread_ (this w)).
    rewrite IsCurrent_refl. cbn [RTC_DCHECK mbind option_bind].
    destruct (Hready ts eq_refl) as [content Hcontent].
    assert (Hc0 : signaling_partial K (this w0) (signaling_thread_ (this w))
                    pc ts = Some content).
    { rewrite <- Hcontent. by apply signaling_partial_collector. }
    rewrite Hc0. cbn [mbind option_bind]. apply Hadd.
    by apply brings_signaling.
  - unfold ProducePartialResultsOnWorkerThread, RTCStatsReport_Create.
    change (worker_thread_ (this w0)) with (worker_thread_ (this w)).
    rewrite IsCurrent_refl. cbn [RTC_DCHECK mbind option_bind].
    apply Hadd, brings_worker.
  - unfold ProducePartialResultsOnNetworkThread, RTCStatsReport_Create.
    change (network_thread_ (this w0)) with (network_thread_ (this w)).
    rewrite IsCurrent_refl. cbn [RTC_DCHECK mbind option_bind].
    apply Hadd, brings_network.
  - specialize (Hmerge p (reports w) (brings_posted K _ pc w0 p)).
    by destruct w.
Qed.

(** X15.  With a monotonic clock the collector never trips over its own
    bookkeeping.  In every world that a collector reaches from its creation
    by a run whose clock readings never go down, every posted invocation
    sits with the thread that its method checks for, callbacks are queued
    and contributions are pending, and the invocation returns when it is
    run: the thread checks pass, the count of pending contributions is
    positive at every merge, the reports merged share no id, and at the
    last merge the queue of callbacks is not empty.  The one thing that can
    end the run is a check of the producers of the signaling thread on what
    the peer connection hands them. *)
Theorem posted_invocation_returns K pc0 cache_lifetime_us c t es (w : World)
    i thread task pc :
  Create pc0 cache_lifetime_us = Some c ->
  clock_from t es ->
  run K es (new_World c) = Some w ->
  invoker_ (this w) !! i = Some (thread, task) ->
  (∀ timestamp_us,
     task = Bind_ProducePartialResultsOnSignalingThread timestamp_us ->
     is_Some (signaling_partial K (this w) (signaling_thread_ (this w)) pc
                timestamp_us)) ->
  thread = thread_of (this w) task ∧
  0 < num_pending_partial_reports_ (this w) ∧
  callbacks_ (this w) ≠ [] ∧
  is_Some (step K (run_invoked i pc) w).
Proof.
  intros Hc Hclock Hrun Hi Hready.
  destruct (run_clock_inv K es t _ w (collector_inv_Create _ _ _ Hc)
              (clock_inv_Create _ _ _ t Hc) Hclock Hrun)
    as (Hinv & t' & Hci).
  assert (Hpos : 0 < num_pending_partial_reports_ (this w)).
  { rewrite (inv_count _ Hinv). apply lookup_lt_Some in Hi. lia. }
  split; [| split; [| split]].
  - apply (ci_threads _ _ Hci). by eapply list_elem_of_lookup_2.
  - exact Hpos.
  - by apply (ci_waiting _ _ Hci).
  - by eapply run_invoked_returns.
Qed.

(** ** Every request is answered *)

(** Two steps at most for a posted task (it may post its merge), one for
    a posted merge. *)
Definition steps_left (posted : list (Thread * Task)) : nat :=
  sum_list_with (fun x => match x.2 with
                          | Bind_AddPartialResults_s _ => 1
                          | _ => 2
                          end)%nat posted.

Lemma steps_left_cons thread task (posted : list (Thread * Task)) :
  steps_left ((thread, task) :: posted)
  = (match task with Bind_AddPartialResults_s _ => 1 | _ => 2 end
     + steps_left posted)%nat.
Proof. reflexivity. Qed.

Lemma steps_left_snoc_posted (posted : list (Thread * Task)) thread p :
  steps_left (posted ++ [(thread, Bind_AddPartialResults_s p)])
  = (steps_left posted + 1)%nat.
Proof.
  unfold steps_left. rewrite sum_list_with_app. simpl. lia.
Qed.

Lemma steps_left_bound (posted : list (Thread * Task)) :
  (steps_left posted <= 2 * length posted)%nat.
Proof.
  induction posted as [|[thread task] l IH]; [done |].
  rewrite steps_left_cons. destruct task; simpl; lia.
Qed.

Lemma step_signaling_thread K e (w w' : World) :
  step K e w = Some w' ->
  signaling_thread_ (this w') = signaling_thread_ (this w).
Proof.
  destruct e as [cur cb now ts | cur | i pc]; simpl.
  - unfold GetStatsReport.
    destruct (RTC_DCHECK _); simpl; [| done].
    destruct (cache_is_fresh _ _).
    + unfold DeliverCachedReport. simpl.
      destruct (RTC_DCHECK (IsCurrent _ _)); simpl; [| done].
      destruct (RTC_DCHECK (negb _)); simpl; [| done].
      destruct (cached_report_ (this w)); simpl; [| done].
      by intros [= <-].
    + destruct (_ =? 0); by intros [= <-].
  - unfold ClearCachedStatsReport.
    destruct (RTC_DCHECK _); simpl; [| done]. by intros [= <-].
  - destruct (invoker_ (this w) !! i) as [[thread task]|]; [| done].
    simpl. intros H.
    apply run_Task_inv in H as (p & store & _ & [H | [_ ->]]); [| done].
    apply AddPartialResults_s_inv in H
      as (_ & _ & acc & store' & _ & [[_ ->] | (_ & _ & ->)]); done.
Qed.

(** Running the invocation at the head of the queue leaves less to do and
    no new task of the signaling thread. *)
Lemma run_head_steps_left K t pc (w w' : World) :
  clock_inv t w ->
  step K (run_invoked 0 pc) w = Some w' ->
  (steps_left (invoker_ (this w')) < steps_left (invoker_ (this w)))%nat ∧
  (∀ ts, ts ∈ signaling_tasks (invoker_ (this w')) ->
         ts ∈ signaling_tasks (invoker_ (this w))).
Proof.
  intros Hci. simpl.
  destruct (invoker_ (this w)) as [|[thread task] l] eqn:Hl; [done |].
  simpl. intros H.
  assert (Hthread : thread = thread_of (this w) task).
  { apply (ci_threads _ _ Hci). rewrite Hl. by left. }
  assert (Htail : ∀ ts, ts ∈ signaling_tasks l ->
                        ts ∈ signaling_tasks ((thread, task) :: l)).
  { intros ts. unfold signaling_tasks. simpl.
    destruct task; simpl; try done. intros Hin. by right. }
  apply run_Task_inv in H as (p & store & Hb & [H | [Hcur ->]]).
  - apply AddPartialResults_s_inv in H
      as (_ & _ & acc & store' & _ & [[_ ->] | (_ & _ & ->)]);
      simpl; rewrite Hl; simpl; (split; [| done]);
      rewrite ?steps_left_cons; destruct task; lia.
  - simpl in Hcur. simpl. rewrite Hl. simpl. split.
    + rewrite steps_left_snoc_posted, ?steps_left_cons.
      destruct task; simpl in Hthread; try lia; by subst thread.
    + intros ts. rewrite signaling_tasks_snoc_posted. apply Htail.
Qed.

Lemma drain K t pc :
  ∀ (n : nat) (w : World),
    (steps_left (invoker_ (this w)) <= n)%nat ->
    collector_inv w ->
    clock_inv t w ->
    (∀ ts, ts ∈ signaling_tasks (invoker_ (this w)) ->
           is_Some (signaling_partial K (this w) (signaling_thread_ (this w))
                      pc ts)) ->
    ∃ (k : nat) (w' : World),
      (k <= n)%nat ∧
      run K (replicate k (run_invoked 0 pc)) w = Some w' ∧
      invoker_ (this w') = [] ∧
      collector_inv w' ∧
      clock_inv t w' ∧
      served_then_queued w' = served_then_queued w.
Proof.
  induction n as [|n IH]; intros w Hn Hinv Hci Hready.
  - exists 0%nat, w. split; [done |]. split; [done |].
    split; [| done].
    destruct (invoker_ (this w)) as [|[thread task] l]; [done |].
    rewrite steps_left_cons in Hn. destruct task; lia.
  - destruct (invoker_ (this w)) as [|[thread task] l] eqn:Hl.
    { exists 0%nat, w. split; [lia |]. by rewrite Hl. }
    assert (Hi : invoker_ (this w) !! 0%nat = Some (thread, task))
      by by rewrite Hl.
    destruct (run_invoked_returns K t 0 pc w thread task Hinv Hci Hi)
      as [w1 Hstep].
    { intros ts ->. apply Hready. unfold signaling_tasks. simpl. by left. }
    destruct (step_inv K _ w w1 Hinv Hstep) as (Hinv1 & _).
    pose proof (run_invoked_clock_inv K t 0 pc w w1 Hci Hstep) as Hci1.
    destruct (run_head_steps_left K t pc w w1 Hci Hstep) as [Hless Htasks].
    rewrite Hl in Hless, Htasks.
    pose proof (step_signaling_thread K _ w w1 Hstep) as Hsig.
    destruct (IH w1) as (k & w' & Hk & Hrun & Hnil & Hinv' & Hci' & Hserved);
      [lia | done | done | |].
    { intros ts Hts. rewrite Hsig.
      destruct (Hready ts) as [content Hcontent]; [by apply Htasks |].
      exists content. rewrite <- Hcontent.
      by apply signaling_partial_collector. }
    exists (S k), w'. split; [lia |]. split.
    { change (step K (run_invoked 0 pc) w
              ≫= run K (replicate k (run_invoked 0 pc)) = Some w').
      rewrite Hstep. exact Hrun. }
    split; [done |]. split; [done |]. split; [done |].
    rewrite Hserved. rewrite (step_served K _ w w1 Hstep). simpl.
    apply app_nil_r.
Qed.

(** X16.  Every request is answered.  From any world that a collector
    reaches from its creation by a run whose clock readings never go down,
    running the invocation at the head of the queue again and again comes
    to an end, after at most two steps for each posted invocation, when the
    producers of the signaling thread pass their checks on what the peer
    connection answers: then nothing is posted, no contribution is pending,
    no callback is queued, and every callback that was queued has been
    called, in the order of the queue, after those called before. *)
Theorem every_request_is_answered K pc0 cache_lifetime_us c t es (w : World)
    pc :
  Create pc0 cache_lifetime_us = Some c ->
  clock_from t es ->
  run K es (new_World c) = Some w ->
  (∀ timestamp_us,
     timestamp_us ∈ signaling_tasks (invoker_ (this w)) ->
     is_Some (signaling_partial K (this w) (signaling_thread_ (this w)) pc
                timestamp_us)) ->
  ∃ (k : nat) (w' : World),
    (k <= 2 * length (invoker_ (this w)))%nat ∧
    run K (replicate k (run_invoked 0 pc)) w = Some w' ∧
    invoker_ (this w') = [] ∧
    num_pending_partial_reports_ (this w') = 0 ∧
    callbacks_ (this w') = [] ∧
    (delivered w').*1 = (delivered w).*1 ++ callbacks_ (this w).
Proof.
  intros Hc Hclock Hrun Hready.
  destruct (run_clock_inv K es t _ w (collector_inv_Create _ _ _ Hc)
              (clock_inv_Create _ _ _ t Hc) Hclock Hrun)
    as (Hinv & t' & Hci).
  destruct (drain K t' pc _ w (steps_left_bound _) Hinv Hci Hready)
    as (k & w' & Hk & Hdrain & Hnil & Hinv' & Hci' & Hserved).
  exists k, w'. split; [done |]. split; [done |]. split; [done |].
  assert (Hzero : num_pending_partial_reports_ (this w') = 0).
  { by rewrite (inv_count _ Hinv'), Hnil. }
  split; [done |].
  pose proof (ci_idle _ _ Hci' Hzero) as Hcb. split; [done |].
  unfold served_then_queued in Hserved. rewrite Hcb, app_nil_r in Hserved.
  done.
Qed.

Lemma posted_invocation_returns_witness :
  is_Some (step webrtc_constants (run_invoked 1 no_channels) in_flight_world).
Proof.
  refine (proj2 (proj2 (proj2
    (posted_invocation_returns webrtc_constants no_channels 50000
       example_collector 0 [call_GetStatsReport 1%nat 11%nat 100 99]
       in_flight_world 1 2%nat (Bind_ProducePartialResultsOnWorkerThread 99)
       no_channels eq_refl _ eq_refl eq_refl _)))).
  - simpl. lia.
  - intros timestamp_us E. discriminate E.
Defined.

Lemma every_request_is_answered_witness :
  ∃ (k : nat) (w' : World),
    (k <= 6)%nat ∧
    run webrtc_constants (replicate k (run_invoked 0 no_channels))
      in_flight_world = Some w' ∧
    callbacks_ (this w') = [] ∧
    (delivered w').*1 = [11%nat].
Proof.
  destruct (every_request_is_answered webrtc_constants no_channels 50000
              example_collector 0 [call_GetStatsReport 1%nat 11%nat 100 99]
              in_flight_world no_channels eq_refl)
    as (k & w' & Hk & Hrun & _ & _ & Hcb & Hd).
  - simpl. lia.
  - reflexivity.
  - intros timestamp_us _. eexists. reflexivity.
  - exists k, w'. split; [exact Hk |]. split; [exact Hrun |].
    split; [exact Hcb | exact Hd].
Defined.

(** ** Which report a callback is given *)

(** X17.  A request hands out the object that is in the cache, which
    callbacks have been given before; a cycle that completes hands out an
    object that no callback has been given before and that was not in the
    cache; [ClearCachedStatsReport] hands out nothing.  In every world that
    a collector reaches from its creation, the calls of [OnStatsDelivered]
    that one step adds all carry one report, the one that the cache holds
    after the step. *)
Theorem delivery_is_cached_or_new K pc0 cache_lifetime_us c es (w : World)
    e (w' : World) :
  Create pc0 cache_lifetime_us = Some c ->
  run K es (new_World c) = Some w ->
  step K e w = Some w' ->
  ∃ served report,
    delivered w' = delivered w ++ ((fun callback => (callback, report)) <$> served) ∧
    (served ≠ [] ->
     cached_report_ (this w') = Some report ∧
     match e with
     | call_GetStatsReport _ _ _ _ =>
         cached_report_ (this w) = Some report ∧ report ∈ (delivered w).*2
     | call_ClearCachedStatsReport _ => False
     | run_invoked _ _ =>
         cached_report_ (this w) ≠ Some report ∧ report ∉ (delivered w).*2
     end).
Proof.
  intros Hc Hrun.
  destruct (run_inv K es _ _ (collector_inv_Create _ _ _ Hc) Hrun)
    as (Hinv & _ & _).
  clear Hrun Hc.
  assert (Hnone : ∀ w', delivered w' = delivered w ->
            ∃ served report,
              delivered w'
              = delivered w ++ ((fun callback => (callback, report)) <$> served) ∧
              (served ≠ [] ->
               cached_report_ (this w') = Some report ∧
               match e with
               | call_GetStatsReport _ _ _ _ =>
                   cached_report_ (this w) = Some report ∧
                   report ∈ (delivered w).*2
               | call_ClearCachedStatsReport _ => False
               | run_invoked _ _ =>
                   cached_report_ (this w) ≠ Some report ∧
                   report ∉ (delivered w).*2
               end)).
  { intros w0 Hd. exists [], 0%nat. split; [by rewrite Hd, app_nil_r | done]. }
  destruct e as [cur cb now ts | cur | i pc]; simpl.
  - unfold GetStatsReport.
    destruct (RTC_DCHECK _); simpl; [| done].
    destruct (cache_is_fresh _ _).
    + unfold DeliverCachedReport. simpl.
      destruct (RTC_DCHECK (IsCurrent _ _)); simpl; [| done].
      destruct (RTC_DCHECK (negb _)); simpl; [| done].
      destruct (cached_report_ (this w)) as [cached|] eqn:Hcached; simpl;
        [| done].
      intros [= <-]. exists (callbacks_ (this w) ++ [cb]), cached.
      split; [done |]. intros _. simpl. split; [done |]. split; [done |].
      by apply (inv_cached _ Hinv).
    + destruct (_ =? 0); intros [= <-]; by apply Hnone.
  - unfold ClearCachedStatsReport.
    destruct (RTC_DCHECK _); simpl; [| done]. intros [= <-]. by apply Hnone.
  - destruct (invoker_ (this w) !! i) as [[thread task]|] eqn:Hi; [| done].
    simpl. intros H.
    apply run_Task_inv in H as (p & store & Hb & Hrun).
    destruct (brings_pre_merge K thread pc w i task p store Hinv Hi Hb)
      as [Hpm _].
    destruct Hrun as [Hrun | [_ ->]]; [| by apply Hnone].
    apply AddPartialResults_s_inv in Hrun
      as (_ & _ & acc & store' & Hm & [[_ ->] | (_ & _ & ->)]);
      [by apply Hnone |].
    destruct (pre_merge_merged _ _ _ _ _ Hpm Hm) as (Hnp & _).
    exists (callbacks_ (this w)), acc. split; [done |].
    intros _. simpl. split; [done |]. split.
    + intros Hcached. apply Hnp. by left.
    + intros Hin. apply Hnp. by right.
Qed.

Lemma delivery_is_cached_or_new_witness :
  ∃ (w w' : World) served report,
    run webrtc_constants (one_cycle 11%nat 100 no_channels)
      (new_World example_collector) = Some w ∧
    step webrtc_constants (call_GetStatsReport 1%nat 12%nat 101 199) w
    = Some w' ∧
    delivered w'
    = delivered w ++ ((fun callback => (callback, report)) <$> served) ∧
    (served ≠ [] ->
     cached_report_ (this w') = Some report ∧
     cached_report_ (this w) = Some report ∧
     report ∈ (delivered w).*2).
Proof.
  destruct one_cycle_runs as (w & Hrun & Hcached).
  assert (Hstep : ∃ w', step webrtc_constants
                          (call_GetStatsReport 1%nat 12%nat 101 199) w
                        = Some w').
  { assert (H : is_Some
                  (run webrtc_constants (one_cycle 11%nat 100 no_channels)
                     (new_World example_collector)
                   ≫= step webrtc_constants
                        (call_GetStatsReport 1%nat 12%nat 101 199)))
      by (vm_compute; eauto).
    rewrite Hrun in H. destruct H as [w' H]. by exists w'. }
  destruct Hstep as (w' & Hstep).
  destruct (delivery_is_cached_or_new webrtc_constants no_channels 50000
              example_collector _ w _ w' eq_refl Hrun Hstep)
    as (served & report & Hd & Hnew).
  exists w, w', served, report.
  split; [exact Hrun |]. split; [exact Hstep |]. split; [exact Hd |].
  exact Hnew.
Defined.
